(** * PIMS: import pipeline, normalized pyramid and histogram queries

    A shallow embedding of the parts of the Cytomine PIMS sources that the
    import pipeline ([pims/importer/importer.py]), the image wrapper
    ([pims/files/image.py]) and the histogram routes
    ([pims/api/histograms.py]) are made of, and the properties proved
    about them.

    Python values are embedded as follows: an [int] is a [Z], a numpy
    1-D integer array is a [list Z], a [Path] is the list of its segments,
    a raised exception is the [Raise] case of [Res].  Python's own
    integers are unbounded; a count held in a numpy array is a 64-bit
    signed integer, and sums of such counts wrap around. *)

From stdpp Require Import gmap strings list fin_maps.
From Stdlib Require Import ZArith Lia.

Set Default Proof Using "Type".

(** ** Python exceptions and results *)

(** A path is the list of its segments from the filesystem root. *)
Abbreviation Path := (list string).

(** Why a [BadRequestException] of [pims/api/histograms.py] was raised. *)
Inductive Detail :=
  | CannotMakeBins (n_bins : Z) (shape : Z)
  | NotPowerOf2 (n_bins : Z).

(** The exceptions that the embedded code raises or catches.  All of them
    derive from Python's [Exception]; the three [...Problem] classes of
    [importer.py] derive from [BadRequestException], and
    [FileNotFoundError], [FileExistsError] and [NotADirectoryError] derive
    from [OSError]. *)
Inductive Exception :=
  | AttributeError
  | KeyError
  | TypeError
  | ValueError
  | ZeroDivisionError
  | OverflowError
  | AssertionError
  | NotImplementedError
  | OSError
  | FileNotFoundError
  | FileExistsError
  | NotADirectoryError
  | ArchiveError
  | BadRequestException (detail : Detail)
  | FilepathNotFoundProblem (filepath : Path)
  | NoMatchingFormatProblem (filepath : option Path)
  | NoAppropriateRepresentationProblem
  | FileErrorProblem (filepath : option Path)
  | ImageParsingProblem (filepath : Path)
  | FormatConversionProblem
  | RuntimeError (msg : string).

Inductive Res (A : Type) :=
  | Ok (a : A)
  | Raise (e : Exception).
Arguments Ok {A} a.
Arguments Raise {A} e.

(** ** Histogram queries ([pims/api/histograms.py]) *)

Module Histograms.
Local Open Scope Z_scope.

Definition len {A} (l : list A) : Z := Z.of_nat (length l).

(** The sum of a list of integers, without any bound. *)
Definition sum_Z (l : list Z) : Z := foldr Z.add 0 l.

(** The 64-bit signed integer that an unbounded one becomes when it is
    stored: two's complement, so [2 ^ 63] comes back as [- 2 ^ 63]. *)
Definition wrap64 (z : Z) : Z := (z + 2 ^ 63) mod 2 ^ 64 - 2 ^ 63.

(** numpy's [sum] over an array of 64-bit integers: the total is kept in a
    64-bit signed integer and wraps around without any error. *)
Definition np_sum (l : list Z) : Z := wrap64 (sum_Z l).

(** [sys.maxsize], the largest length that [len] can return. *)
Definition maxsize : Z := 2 ^ 63 - 1.

(** Python's [a % b] on integers: the sign follows the divisor, as
    [Z.modulo] does, and a zero divisor raises. *)
Definition py_mod (a b : Z) : Res Z :=
  if b =? 0 then Raise ZeroDivisionError else Ok (a mod b).

(** [k] consecutive rows of [sz] elements, the C-order rows of a reshape. *)
Fixpoint chunks (k sz : nat) (l : list Z) : list (list Z) :=
  match k with
  | O => []
  | S k' => take sz l :: chunks k' sz (drop sz l)
  end.

(** numpy's [hist.reshape((n_bins, -1))] on a 1-D array.  Every negative
    entry of the shape counts as the unknown dimension and only one is
    allowed, so a negative [n_bins] next to [-1] raises; the unknown
    dimension is [size / n_bins] and must be exact. *)
Definition reshape_rows (hist : list Z) (n_bins : Z) : Res (list (list Z)) :=
  if n_bins <? 0 then Raise ValueError
  else if (n_bins =? 0) || negb (len hist mod n_bins =? 0) then Raise ValueError
  else Ok (chunks (Z.to_nat n_bins) (Z.to_nat (len hist / n_bins)) hist).

(** Python's normalisation of a slice bound against a length. *)
Definition slice_index (i n : Z) : Z :=
  if i <? 0 then Z.max (i + n) 0 else Z.min i n.

(** [l[start:stop]] *)
Definition py_slice {A} (l : list A) (start stop : Z) : list A :=
  let a := slice_index start (len l) in
  let b := slice_index stop (len l) in
  take (Z.to_nat (b - a)) (drop (Z.to_nat a) l).

Fixpoint first_nonzero (l : list Z) : option nat :=
  match l with
  | [] => None
  | x :: r => if x =? 0 then S <$> first_nonzero r else Some O
  end.

(** Modelled from the spec: [pims.files.histogram.argmin_nonzero] is imported
    by [histograms.py] but is not among the sources.  The spec calls the
    tight bounds "the first and last non-zero-count bin index in a
    histogram"; it does not say what is returned when every bin is zero, and
    the model then answers with the first index. *)
Definition argmin_nonzero (hist : list Z) : Z :=
  from_option Z.of_nat 0 (first_nonzero hist).

(** Modelled from the spec: [pims.files.histogram.argmax_nonzero], the last
    non-zero-count bin index; not among the sources either.  When every bin
    is zero the model answers with the last index. *)
Definition argmax_nonzero (hist : list Z) : Z :=
  len hist - 1 - from_option Z.of_nat 0 (first_nonzero (reverse hist)).

Definition parse_n_bins (n_bins hist_len : Z) : Z :=
  if n_bins <=? hist_len then n_bins else hist_len.

Definition _histogram_binning (hist : list Z) (n_bins : Z) : Res (list Z) :=
  match py_mod (len hist) n_bins with
  | Raise e => Raise e
  | Ok r =>
      if negb (r =? 0) then
        Raise (BadRequestException (CannotMakeBins n_bins (len hist)))
      else
        match reshape_rows hist n_bins with
        | Raise e => Raise e
        | Ok rows => Ok (np_sum <$> rows)
        end
  end.

(** The dictionary returned by [histogram_formatter]. *)
Record Formatted := {
  histogram : list Z;
  first_bin : Z;
  last_bin : Z;
  minimum : Z;
  maximum : Z;
  n_bins : Z
}.

Definition histogram_formatter (hist : list Z) (bounds : Z * Z)
    (n_bins : Z) (full_range : bool) : Res Formatted :=
  let finish (hist : list Z) (bin_bounds : Z * Z) :=
    let '(first_bin, last_bin) := bin_bounds in
    let '(mini, maxi) := bounds in
    {| histogram := hist; first_bin := first_bin; last_bin := last_bin;
       minimum := mini; maximum := maxi; n_bins := n_bins |} in
  if n_bins =? len hist then
    let bin_bounds := bounds in
    let hist :=
      if negb full_range then py_slice hist bin_bounds.1 (bin_bounds.2 + 1)
      else hist in
    Ok (finish hist bin_bounds)
  else
    match _histogram_binning hist n_bins with
    | Raise e => Raise e
    | Ok hist =>
        let bin_bounds := (argmin_nonzero hist, argmax_nonzero hist) in
        let hist :=
          if negb full_range then py_slice hist bin_bounds.1 (bin_bounds.2 + 1)
          else hist in
        Ok (finish hist bin_bounds)
    end.

Definition is_power_of_2 (n : Z) : bool :=
  (Z.land n (n - 1) =? 0) && negb (n =? 0).

Record HistogramConfig := {
  cfg_n_bins : Z;
  cfg_full_range : bool
}.

(** [HistogramConfig.__init__] *)
Definition HistogramConfig_init (n_bins : Z) (full_range : bool)
    : Res HistogramConfig :=
  if negb (is_power_of_2 n_bins) then
    Raise (BadRequestException (NotPowerOf2 n_bins))
  else Ok {| cfg_n_bins := n_bins; cfg_full_range := full_range |}.

(** What the histogram routes read of the spatial representation
    ([pims/files/image.py]): whether it exists, its bit depth and the
    whole-image histogram with its stored bounds. *)
Record SpatialImage := {
  img_exists : bool;
  significant_bits : N;
  image_histogram : list Z;
  image_bounds : Z * Z
}.

(** [Image.max_value] *)
Definition max_value (im : SpatialImage) : Z :=
  2 ^ Z.of_N (significant_bits im) - 1.

(** [len(Image.value_range)], with [value_range = range(0, max_value + 1)].
    The range itself can be of any size, but [len] raises an
    [OverflowError] on a range of more than [sys.maxsize] values. *)
Definition len_value_range (im : SpatialImage) : Res Z :=
  let n := Z.max 0 (max_value im + 1 - 0) in
  if maxsize <? n then Raise OverflowError else Ok n.

(** [check_representation_existence] of [pims/api/exceptions.py] *)
Definition check_representation_existence (im : SpatialImage) : Res unit :=
  if negb (img_exists im) then Raise NoAppropriateRepresentationProblem
  else Ok tt.

(** The bin count handed to [histogram_formatter] by the three routes:
    [parse_n_bins(hist_config.n_bins, len(in_image.value_range))]. *)
Definition effective_n_bins (im : SpatialImage) (cfg : HistogramConfig)
    : Res Z :=
  match len_value_range im with
  | Raise e => Raise e
  | Ok hist_len => Ok (parse_n_bins (cfg_n_bins cfg) hist_len)
  end.

(** [show_image_histogram], from the query parameters on: the
    [HistogramConfig] dependency is built first, then the body runs. *)
Definition show_image_histogram (in_image : SpatialImage)
    (n_bins : Z) (full_range : bool) : Res Formatted :=
  match HistogramConfig_init n_bins full_range with
  | Raise e => Raise e
  | Ok hist_config =>
      match check_representation_existence in_image with
      | Raise e => Raise e
      | Ok _ =>
          match effective_n_bins in_image hist_config with
          | Raise e => Raise e
          | Ok n_bins =>
              histogram_formatter (image_histogram in_image)
                (image_bounds in_image) n_bins (cfg_full_range hist_config)
          end
      end
  end.

(** [out] holds the bins of [l] from index [a] to index [b], both
    included, and nothing else. *)
Definition truncated_to (out l : list Z) (a b : Z) : Prop :=
  length out = Z.to_nat (b - a + 1) /\
  forall i : nat, (i < length out)%nat -> out !! i = l !! (Z.to_nat a + i)%nat.

(** [out] holds the total of [hist] as far as sums in 64 bits keep it:
    always modulo [2 ^ 64], and as it is when no count is negative and the
    total is below [2 ^ 63]. *)
Definition same_total (out hist : list Z) : Prop :=
  wrap64 (sum_Z out) = wrap64 (sum_Z hist) /\
  (Forall (fun x => 0 <= x) hist -> sum_Z hist < 2 ^ 63 ->
     sum_Z out = sum_Z hist).

(** [i] is the first, respectively the last, index of a non-zero bin. *)
Definition first_nonzero_at (l : list Z) (i : Z) : Prop :=
  0 <= i /\ (exists x, l !! Z.to_nat i = Some x /\ x <> 0) /\
  forall j : nat, (j < Z.to_nat i)%nat -> l !! j = Some 0.

Definition last_nonzero_at (l : list Z) (i : Z) : Prop :=
  0 <= i /\ (exists x, l !! Z.to_nat i = Some x /\ x <> 0) /\
  forall j : nat, (Z.to_nat i < j < length l)%nat -> l !! j = Some 0.

End Histograms.

(** ** Normalized pyramid *)

Module Pyramid.
Local Open Scope N_scope.

(** One resolution level.  The downsampling factor, [base_width /
    tier_width] as a float in the spec, is kept as the exact pair of its
    numerator and denominator. *)
Record PyramidTier := {
  width : N;
  height : N;
  tile_width : N;
  tile_height : N;
  factor : N * N
}.

Definition make_tier (base_width w h t : N) : PyramidTier :=
  {| width := w; height := h; tile_width := t; tile_height := t;
     factor := (base_width, w) |}.

(** The halving loop of the algorithm below, with the number of tiers it
    may still record as fuel: it records the current tier, stops when both
    sides are below [min_tier_dim] and otherwise goes on with both sides
    halved. *)
Fixpoint halving (fuel : nat) (base_width w h min_tier_dim t : N)
    : option (list PyramidTier) :=
  match fuel with
  | O => None
  | S fuel' =>
      let tier := make_tier base_width w h t in
      if (w <? min_tier_dim) && (h <? min_tier_dim) then Some [tier]
      else cons tier <$> halving fuel' base_width (w / 2) (h / 2) min_tier_dim t
  end.

(** Modelled from the spec: [pims.formats.utils.pyramid.normalized_pyramid],
    which [Image.normalized_pyramid] calls, is not among the sources.  The
    spec gives it as [synthesize_normalized(width, height, min_tier_dim,
    tile_size)], in two sentences.  The algorithm: "starting from (width,
    height), repeatedly halve both dimensions (integer division, floor)
    until both are below min_tier_dim, recording one tier per halving step
    including the base", with the same tile size on every tier.  The edge
    case: "if base width or height is already below min_tier_dim, the
    pyramid has exactly one tier".  The edge case is decided on the base,
    before the loop; the loop then runs on a base that has both sides at
    the minimum or above.  The spec's list of properties says the same of
    the widths alone ("width(level+1) == width(level) // 2 until width <
    m"): here every tier after the base has half the width of the one
    before it, floor.  [None] stands for a loop that has not stopped
    within [fuel] tiers. *)
Definition synthesize_normalized (fuel : nat) (w h min_tier_dim t : N)
    : option (list PyramidTier) :=
  if (w <? min_tier_dim) || (h <? min_tier_dim) then Some [make_tier w w h t]
  else halving fuel w w h min_tier_dim t.

(** Both sides of a tier are below the minimum. *)
Definition both_below (m : N) (tier : PyramidTier) : Prop :=
  width tier < m /\ height tier < m.

(** [Image.normalized_pyramid] of [pims/files/image.py] passes the width and
    the height only; the minimum tier side and the tile size are the
    callee's, 256 in the spec's example. *)
Definition normalized_pyramid (fuel : nat) (w h : N) : option (list PyramidTier) :=
  synthesize_normalized fuel w h 256 256.

End Pyramid.

(** ** Integrity check ([pims/files/image.py]) *)

Module ImageCheck.

(** The attributes that [check_integrity] reads when [metadata] is set. *)
Definition attributes : list string :=
  ["width"; "height"; "depth"; "duration"; "n_channels"; "pixel_type";
   "physical_size_x"; "physical_size_y"; "physical_size_z"; "frame_rate";
   "description"; "acquisition_datetime"; "channels"; "objective";
   "microscope";
   "associated_thumb"; "associated_label"; "associated_macro";
   "raw_metadata"; "pyramid"].

(** The [for attr in attributes] loop.  [getattr attr] is what reading the
    attribute on the image does: it returns or it raises. *)
Fixpoint check_attributes (getattr : string -> Res unit) (lazy_mode : bool)
    (attrs : list string) (errors : list (string * Exception))
    : list (string * Exception) :=
  match attrs with
  | [] => errors
  | attr :: rest =>
      match getattr attr with
      | Ok _ => check_attributes getattr lazy_mode rest errors
      | Raise e =>
          let errors := errors ++ [(attr, e)] in
          if lazy_mode then errors
          else check_attributes getattr lazy_mode rest errors
      end
  end.

(** [Image.check_integrity(lazy_mode, metadata)]; the other flags are not
    read by the method. *)
Definition check_integrity (getattr : string -> Res unit)
    (lazy_mode metadata : bool) : list (string * Exception) :=
  let errors := [] in
  if metadata then check_attributes getattr lazy_mode attributes errors
  else errors.

(** The pair recorded for an attribute, if reading it raises. *)
Definition failure (getattr : string -> Res unit) (attr : string)
    : option (string * Exception) :=
  match getattr attr with
  | Ok _ => None
  | Raise e => Some (attr, e)
  end.

End ImageCheck.

(** ** The import pipeline ([pims/importer/importer.py]) *)

Module Importer.

(** *** Files *)

Inductive Node :=
  | File (content : string)
  | Dir
  | Symlink (target : Path).

(** The filesystem: what is found at each path.  Entries are keyed by the
    path as written; a link is followed when it is the entry itself. *)
Abbreviation FS := (gmap Path Node).

Definition parent (p : Path) : Path := removelast p.
Definition name (p : Path) : string := default "" (last p).

Definition node_at (fs : FS) (p : Path) : option Node :=
  match p with
  | [] => Some Dir
  | _ => fs !! p
  end.

(** The kernel gives up after this many links. *)
Definition SYMLOOP_MAX : nat := 40.

Fixpoint resolve (fuel : nat) (fs : FS) (p : Path) : option (Path * Node) :=
  match node_at fs p with
  | Some (Symlink t) =>
      match fuel with
      | O => None
      | S fuel' => resolve fuel' fs t
      end
  | Some n => Some (p, n)
  | None => None
  end.

(** [Path.exists()] follows links. *)
Definition path_exists (fs : FS) (p : Path) : bool :=
  bool_decide (is_Some (resolve SYMLOOP_MAX fs p)).

Definition is_dir (fs : FS) (p : Path) : bool :=
  match resolve SYMLOOP_MAX fs p with
  | Some (_, Dir) => true
  | _ => false
  end.

(** Why no entry can be made in [d], if none can: [d] is missing
    ([ENOENT], a [FileNotFoundError]), it is not a directory ([ENOTDIR], a
    [NotADirectoryError]), or too many links lead to it ([ELOOP], a plain
    [OSError]). *)
Fixpoint directory_error (fuel : nat) (fs : FS) (d : Path) : option Exception :=
  match node_at fs d with
  | Some Dir => None
  | Some (File _) => Some NotADirectoryError
  | Some (Symlink t) =>
      match fuel with
      | O => Some OSError
      | S fuel' => directory_error fuel' fs t
      end
  | None => Some FileNotFoundError
  end.

(** [Path.mkdir()], without [parents] and without [exist_ok]: the
    directory above is walked to first, then the entry must be new. *)
Definition os_mkdir (p : Path) (fs : FS) : Res FS :=
  match directory_error SYMLOOP_MAX fs (parent p) with
  | Some e => Raise e
  | None =>
      match node_at fs p with
      | Some _ => Raise FileExistsError
      | None => Ok (<[p := Dir]> fs)
      end
  end.

(** [path.symlink_to(target)] *)
Definition os_symlink (path target : Path) (fs : FS) : Res FS :=
  match directory_error SYMLOOP_MAX fs (parent path) with
  | Some e => Raise e
  | None =>
      match node_at fs path with
      | Some _ => Raise FileExistsError
      | None => Ok (<[path := Symlink target]> fs)
      end
  end.

Definition under (src : Path) (p : Path) : bool :=
  bool_decide (take (length src) p = src).

(** An entry and everything below it change place. *)
Definition rename_tree (src dst : Path) (fs : FS) : FS :=
  list_to_map
    ((fun kv : Path * Node =>
        if under src kv.1 then (dst ++ drop (length src) kv.1, kv.2) else kv)
       <$> filter (fun kv : Path * Node => negb (under dst kv.1) || under src kv.1)
             (map_to_list fs)).

(** [shutil.move(origin, dest)], as far as the importer uses it, to a
    place on the same filesystem: into [dest] when it is a directory
    (which must not hold the name yet: [shutil.Error], an [OSError]), else
    a rename to [dest]. *)
Definition shutil_move (origin dest : Path) (fs : FS) : Res FS :=
  let real_dst := if is_dir fs dest then dest ++ [name origin] else dest in
  if is_dir fs dest && bool_decide (is_Some (node_at fs real_dst)) then Raise OSError
  else
    match fs !! origin with
    | None => Raise FileNotFoundError
    | Some _ =>
        match directory_error SYMLOOP_MAX fs (parent real_dst) with
        | Some e => Raise e
        | None => Ok (rename_tree origin real_dst fs)
        end
    end.

(** [shutil.copy(origin, dest)]: the content of a file. *)
Definition shutil_copy (origin dest : Path) (fs : FS) : Res FS :=
  let real_dst := if is_dir fs dest then dest ++ [name origin] else dest in
  match resolve SYMLOOP_MAX fs origin with
  | Some (_, File c) =>
      match directory_error SYMLOOP_MAX fs (parent real_dst) with
      | Some e => Raise e
      | None => Ok (<[real_dst := File c]> fs)
      end
  | Some (_, _) => Raise OSError
  | None => Raise FileNotFoundError
  end.

(** The bytes found when a path is opened. *)
Inductive reads (fs : FS) : Path -> string -> Prop :=
  | reads_file p c : fs !! p = Some (File c) -> reads fs p c
  | reads_link p t c :
      fs !! p = Some (Symlink t) -> reads fs t c -> reads fs p c.

(** *** Formats, images, events *)

(** What the pipeline asks of a format plugin. *)
Record Format := {
  fmt_path : Path;
  get_identifier : string;
  is_spatial : bool;
  need_conversion : bool;
  (** [conversion_format().get_identifier()] *)
  conversion_identifier : Res string
}.

Record Image := {
  image_path : Path;
  image_format : Format
}.

Record Archive := {
  archive_path : Path;
  archive_format : Format
}.

(** The members of [ImportEventType] that the importer refers to; the
    enumeration itself is declared in [pims.importer.listeners]. *)
Inductive ImportEventType :=
  | START_DATA_EXTRACTION | FILE_NOT_FOUND | MOVED_PENDING_FILE
  | END_DATA_EXTRACTION | START_FORMAT_DETECTION | ERROR_NO_FORMAT
  | END_FORMAT_DETECTION | START_UNPACKING | ERROR_UNPACKING | END_UNPACKING
  | START_INTEGRITY_CHECK | ERROR_INTEGRITY_CHECK | END_INTEGRITY_CHECK
  | START_SPATIAL_DEPLOY | START_CONVERSION | ERROR_CONVERSION
  | END_CONVERSION | END_SPATIAL_DEPLOY | START_HISTOGRAM_DEPLOY
  | ERROR_HISTOGRAM | END_HISTOGRAM_DEPLOY | END_SUCCESSFUL_IMPORT
  | FILE_ERROR | FILE_NOT_MOVED | REGISTER_FILE.

#[global] Instance ImportEventType_eq_dec : EqDecision ImportEventType.
Proof. solve_decision. Defined.

(** An argument handed to a handler; [None] is Python's [None]. *)
Inductive Arg :=
  | APath (p : option Path)
  | AFormat (f : Format)
  | AImage (im : option Image)
  | AException (e : Exception)
  | AErrors (errors : list (string * Exception))
  | ABool (b : bool).

Record Event := {
  kind : ImportEventType;
  args : list Arg;
  kwargs : list (string * Arg)
}.

(** *** Observers *)

(** What [getattr(logger, method)(...)] does on one observer: the lookup
    fails, or the handler runs and returns or raises. *)
Inductive HandlerOutcome :=
  | NoHandler
  | Returns
  | Raises (e : Exception).

Record Delivery := {
  to : nat;
  what : Event;
  outcome : HandlerOutcome
}.

(** What [import_collection] uses of a [CytomineListener]. *)
Record CytomineHooks := {
  (** [new_listener_from_registered_child(child)]: the credentials and the
      identity of the listener made for the child *)
  new_listener_from_registered_child : Path -> Res (string * nat)
}.

(** An observer.  Its handlers may keep state: what one does with an event
    depends on everything delivered so far.  [cytomine] is set when the
    observer is a [CytomineListener]. *)
Record Listener := {
  handle : list Delivery -> Event -> HandlerOutcome;
  cytomine : option CytomineHooks
}.

(** *** Worker tasks *)

Inductive TaskArg :=
  | TAuth (auth : string)
  | TStr (p : Path)
  | TName (n : string)
  | TListener (id : nat)
  | TBool (b : bool).

(** [celery.signature(task, args=args)] *)
Record Signature := {
  task : string;
  task_args : list TaskArg
}.

(** *** The importer and its surroundings *)

(** The collaborators that the sources do not contain: settings, format
    registry, archives, converters, metadata readers, histogram builder and
    the worker pool.  Each is a function of the files it sees. *)
Record Env := {
  PENDING_PATH : Path;
  FILE_ROOT_PATH : Path;
  UPLOAD_DIR_PREFIX : string;
  (** [str(unique_name_generator())] *)
  unique_name_generator : string;
  (** [Path.is_extracted()] *)
  is_extracted : Path -> bool;
  (** [FormatFactory().match(path)] *)
  FormatFactory_match : FS -> Path -> option Format;
  (** [Archive.from_path(path)] *)
  Archive_from_path : FS -> Path -> option Archive;
  (** [archive.extract(path)] *)
  archive_extract : Archive -> Path -> FS -> Res unit * FS;
  (** [SpatialReadableFormatFactory().match(path)] *)
  SpatialReadableFormatFactory_match : FS -> Path -> option Format;
  (** [format.from_path(path)] *)
  Format_from_path : Format -> Path -> Format;
  (** [format.convert(path)] *)
  format_convert : Format -> Path -> FS -> Res bool * FS;
  (** [getattr(image, attr)] *)
  image_getattr : FS -> Image -> string -> Res unit;
  (** [Path.get_spatial()] *)
  get_spatial : FS -> Image -> option Image;
  (** the histogram engine in [FAST] mode: the blob it computes for
      [image], to be stored at [path] *)
  histogram_engine : FS -> option Image -> Path -> Res string;
  has_original_role : Path -> bool;
  has_spatial_role : Image -> bool;
  has_histogram_role : Path -> bool;
  (** [collection.get_extracted_children(stop_recursion_cond=...)] *)
  get_extracted_children : FS -> Path -> list Path;
  (** [group(tasks).apply_async().get()] *)
  group_get : list Signature -> FS -> Res unit * FS
}.

(** Modelled from the spec: the constants of [pims.files.file], which is
    not among the sources, as the filesystem layout of the spec has them:
    [processed/original.<format-id>], [processed/spatial.<format-id>],
    [processed/histogram], [processed/extracted/]. *)
Definition PROCESSED_DIR : string := "processed".
Definition ORIGINAL_STEM : string := "original".
Definition SPATIAL_STEM : string := "spatial".
Definition HISTOGRAM_STEM : string := "histogram".
Definition EXTRACTED_DIR : string := "extracted".

(** The attributes of a [FileImporter] that [__init__] sets and the methods
    assign.  [self.loggers] is set once and never assigned again: it is the
    parameter [loggers] of the definitions below. *)
Record FileImporter := mkFileImporter {
  pending_file : Path;
  pending_name : option string;
  upload_dir : option Path;
  upload_path : option Path;
  original_path : option Path;
  original : option Image;
  spatial_path : option Path;
  spatial : option Image;
  histogram_path : option Path;
  histogram : option Path;
  processed_dir : option Path;
  extracted_dir : option Path
}.

(** [FileImporter.__init__] *)
Definition FileImporter_init (pending_file : Path) (pending_name : option string)
    : FileImporter :=
  mkFileImporter pending_file pending_name
    None None None None None None None None None None.

Definition set_upload_dir (v : option Path) (s : FileImporter) :=
  let 'mkFileImporter a b _ d e f g h i j k l := s in
  mkFileImporter a b v d e f g h i j k l.
Definition set_upload_path (v : option Path) (s : FileImporter) :=
  let 'mkFileImporter a b c _ e f g h i j k l := s in
  mkFileImporter a b c v e f g h i j k l.
Definition set_original_path (v : option Path) (s : FileImporter) :=
  let 'mkFileImporter a b c d _ f g h i j k l := s in
  mkFileImporter a b c d v f g h i j k l.
Definition set_original (v : option Image) (s : FileImporter) :=
  let 'mkFileImporter a b c d e _ g h i j k l := s in
  mkFileImporter a b c d e v g h i j k l.
Definition set_spatial_path (v : option Path) (s : FileImporter) :=
  let 'mkFileImporter a b c d e f _ h i j k l := s in
  mkFileImporter a b c d e f v h i j k l.
Definition set_spatial (v : option Image) (s : FileImporter) :=
  let 'mkFileImporter a b c d e f g _ i j k l := s in
  mkFileImporter a b c d e f g v i j k l.
Definition set_histogram_path (v : option Path) (s : FileImporter) :=
  let 'mkFileImporter a b c d e f g h _ j k l := s in
  mkFileImporter a b c d e f g h v j k l.
Definition set_histogram (v : option Path) (s : FileImporter) :=
  let 'mkFileImporter a b c d e f g h i _ k l := s in
  mkFileImporter a b c d e f g h i v k l.
Definition set_processed_dir (v : option Path) (s : FileImporter) :=
  let 'mkFileImporter a b c d e f g h i j _ l := s in
  mkFileImporter a b c d e f g h i j v l.
Definition set_extracted_dir (v : option Path) (s : FileImporter) :=
  let 'mkFileImporter a b c d e f g h i j k _ := s in
  mkFileImporter a b c d e f g h i j k v.

(** What the pipeline itself reads and writes: its own attributes, the
    files, and the events it has handed to [notify], oldest first. *)
Record Pipeline := {
  self : FileImporter;
  fs : FS;
  emitted : list Event
}.

(** What has happened on the observers' side: every call of a handler,
    oldest first, and the warnings logged for skipped observers. *)
Record ObserverLog := {
  delivered : list Delivery;
  warnings : list (nat * ImportEventType)
}.

Abbreviation World := (Pipeline * ObserverLog)%type.

(** *** Computations that may raise *)

Definition M (A : Type) : Type := World -> Res A * World.

#[global] Instance M_ret : MRet M := fun A a w => (Ok a, w).

#[global] Instance M_bind : MBind M := fun A B k c w =>
  match c w with
  | (Ok a, w') => k a w'
  | (Raise e, w') => (Raise e, w')
  end.

Definition raise {A} (e : Exception) : M A := fun w => (Raise e, w).

(** [try: body except <caught> as e: handler e] *)
Definition try_except {A} (body : M A) (caught : Exception -> bool)
    (handler : Exception -> M A) : M A :=
  fun w =>
    match body w with
    | (Raise e, w') => if caught e then handler e w' else (Raise e, w')
    | ok => ok
    end.

(** A step that concerns the pipeline only. *)
Definition lift {A} (f : Pipeline -> Res A * Pipeline) : M A :=
  fun w => let '(r, p) := f w.1 in (r, (p, w.2)).

Definition attr {A} (field : FileImporter -> A) : M A :=
  lift (fun p => (Ok (field (self p)), p)).

(** Reading [self.<attribute>] *)
Definition self_pending_file : M (Path) := attr pending_file.
Definition self_pending_name : M (option string) := attr pending_name.
Definition self_upload_dir : M (option Path) := attr upload_dir.
Definition self_upload_path : M (option Path) := attr upload_path.
Definition self_original_path : M (option Path) := attr original_path.
Definition self_spatial_path : M (option Path) := attr spatial_path.
Definition self_spatial : M (option Image) := attr spatial.
Definition self_histogram : M (option Path) := attr histogram.
Definition self_processed_dir : M (option Path) := attr processed_dir.

Definition assign (set : FileImporter -> FileImporter) : M unit :=
  lift (fun p => (Ok tt, {| self := set (self p); fs := fs p; emitted := emitted p |})).

Definition files : M FS := lift (fun p => (Ok (fs p), p)).

(** A filesystem call: it changes the files or raises. *)
Definition syscall (op : FS -> Res FS) : M unit :=
  lift (fun p =>
    match op (fs p) with
    | Ok fs' => (Ok tt, {| self := self p; fs := fs'; emitted := emitted p |})
    | Raise e => (Raise e, p)
    end).

(** A collaborator that changes the files and returns or raises. *)
Definition extern {A} (op : FS -> Res A * FS) : M A :=
  lift (fun p =>
    let '(r, fs') := op (fs p) in
    (r, {| self := self p; fs := fs'; emitted := emitted p |})).

Definition of_res {A} (r : Res A) : M A := fun w => (r, w).

(** [assert cond] *)
Definition assert (cond : bool) : M unit :=
  if cond then mret tt else raise AssertionError.

(** Using [None] where a path is needed: [None / Path(...)] is a
    [TypeError]. *)
Definition as_path (o : option Path) : M Path :=
  match o with
  | Some p => mret p
  | None => raise TypeError
  end.

Definition is_OSError (e : Exception) : bool :=
  match e with
  | OSError | FileNotFoundError | FileExistsError | NotADirectoryError => true
  | _ => false
  end.

Definition any_Exception (e : Exception) : bool := true.

Definition evt (method : ImportEventType) (args : list Arg)
    (kwargs : list (string * Arg)) : Event :=
  {| kind := method; args := args; kwargs := kwargs |}.

Section Pipeline.
Context (env : Env) (loggers : list Listener).

(** The [for logger in self.loggers] loop of [notify], from the observer
    of index [i] on.  A failed lookup is an [AttributeError], and so is
    an [AttributeError] raised by the handler itself: both are logged as
    a warning and the loop goes on; any other exception leaves the
    loop. *)
Fixpoint notify_loop (i : nat) (ls : list Listener) (ev : Event)
    (log : ObserverLog) : Res unit * ObserverLog :=
  match ls with
  | [] => (Ok tt, log)
  | logger :: rest =>
      let o := handle logger (delivered log) ev in
      let d := delivered log ++ [{| to := i; what := ev; outcome := o |}] in
      match o with
      | Returns =>
          notify_loop (S i) rest ev {| delivered := d; warnings := warnings log |}
      | NoHandler | Raises AttributeError =>
          notify_loop (S i) rest ev
            {| delivered := d; warnings := warnings log ++ [(i, kind ev)] |}
      | Raises e => (Raise e, {| delivered := d; warnings := warnings log |})
      end
  end.

(** [FileImporter.notify(method, *args, **kwargs)] *)
Definition notify (method : ImportEventType) (args : list Arg)
    (kwargs : list (string * Arg)) : M unit :=
  fun w =>
    let ev := evt method args kwargs in
    let p := {| self := self w.1; fs := fs w.1; emitted := emitted w.1 ++ [ev] |} in
    let '(r, log) := notify_loop 0 loggers ev w.2 in
    (r, (p, log)).

(** [FileImporter.mkdir] *)
Definition mkdir (directory : Path) : M unit :=
  try_except (syscall (os_mkdir directory)) is_OSError (fun e =>
    notify FILE_ERROR [APath (Some directory)] [("exception", AException e)] ;;
    raise (FileErrorProblem (Some directory))).

(** [FileImporter.move] *)
Definition move (origin dest : Path) (prefer_copy : bool) : M unit :=
  try_except
    (if prefer_copy then syscall (shutil_copy origin dest)
     else syscall (shutil_move origin dest))
    is_OSError (fun e =>
      notify FILE_NOT_MOVED [APath (Some origin)] [("exception", AException e)] ;;
      raise (FileErrorProblem (Some origin))).

(** [FileImporter.mksymlink]; reading [target.is_dir()] on [None] is an
    [AttributeError], which the method does not catch. *)
Definition mksymlink (path : Path) (target : option Path) : M unit :=
  try_except
    (match target with
     | None => raise AttributeError
     | Some target => syscall (os_symlink path target)
     end)
    is_OSError (fun e =>
      notify FILE_ERROR [APath (Some path)] [("exception", AException e)] ;;
      raise (FileErrorProblem (Some path))).

(** [Image(path, format=format)]: the format is loaded again when it was
    matched on another path. *)
Definition Image_init (path : Path) (format : Format) : Image :=
  {| image_path := path;
     image_format :=
       if decide (fmt_path format = path) then format
       else Format_from_path env format path |}.

(** [image.check_integrity(metadata=True)] *)
Definition check_image (image : Image) : M (list (string * Exception)) :=
  fs ← files;
  mret (ImageCheck.check_integrity (image_getattr env fs image) false true).

(** [FileImporter.deploy_spatial] *)
Definition deploy_spatial (format : Format) : M (option Image) :=
  original_path ← self_original_path;
  notify START_SPATIAL_DEPLOY [APath original_path] [] ;;
  (if need_conversion format then
     (* Do the spatial conversion *)
     try_except
       (ext ← of_res (conversion_identifier format);
        processed_dir ← self_processed_dir;
        processed_dir ← as_path processed_dir;
        let spatial_path := processed_dir ++ [SPATIAL_STEM +:+ "." +:+ ext] in
        assign (set_spatial_path (Some spatial_path)) ;;
        upload_path ← self_upload_path;
        notify START_CONVERSION [APath (Some spatial_path); APath upload_path] [] ;;
        r ← extern (format_convert env format spatial_path);
        fs ← files;
        if negb r || negb (path_exists fs spatial_path) then
          notify ERROR_CONVERSION [APath (Some spatial_path)] [] ;;
          raise FormatConversionProblem
        else mret tt)
       any_Exception (fun e =>
         spatial_path ← self_spatial_path;
         notify ERROR_CONVERSION [APath spatial_path] [("exception", AException e)] ;;
         raise FormatConversionProblem) ;;
     spatial_path ← self_spatial_path;
     notify END_CONVERSION [APath spatial_path] [] ;;
     (* Check format of converted file *)
     notify START_FORMAT_DETECTION [APath spatial_path] [] ;;
     spatial_path ← as_path spatial_path;
     fs ← files;
     match SpatialReadableFormatFactory_match env fs spatial_path with
     | None =>
         notify ERROR_NO_FORMAT [APath (Some spatial_path)] [] ;;
         raise (NoMatchingFormatProblem (Some spatial_path))
     | Some spatial_format =>
         notify END_FORMAT_DETECTION
           [APath (Some spatial_path); AFormat spatial_format] [] ;;
         let spatial := Image_init spatial_path spatial_format in
         assign (set_spatial (Some spatial)) ;;
         (* Check spatial image integrity *)
         notify START_INTEGRITY_CHECK [APath (Some spatial_path)] [] ;;
         errors ← check_image spatial;
         if bool_decide (0 < length errors) then
           notify ERROR_INTEGRITY_CHECK [APath (Some spatial_path)]
             [("integrity_errors", AErrors errors)] ;;
           raise (ImageParsingProblem (image_path spatial))
         else
           notify END_INTEGRITY_CHECK [AImage (Some spatial)] []
     end
   else
     (* Create spatial role *)
     processed_dir ← self_processed_dir;
     processed_dir ← as_path processed_dir;
     let spatial_path :=
       processed_dir ++ [SPATIAL_STEM +:+ "." +:+ get_identifier format] in
     assign (set_spatial_path (Some spatial_path)) ;;
     original_path ← self_original_path;
     mksymlink spatial_path original_path ;;
     assign (set_spatial (Some (Image_init spatial_path format)))) ;;
  spatial ← self_spatial;
  match spatial with
  | None => raise AttributeError
  | Some im => assert (has_spatial_role env im)
  end ;;
  notify END_SPATIAL_DEPLOY [AImage spatial] [] ;;
  mret spatial.

(** Modelled from the spec: [pims.files.histogram.build_histogram_file]
    is not among the sources.  The spec has the histogram engine
    [build(image, output_path, mode, overwrite) -> Histogram | Error]
    write the histogram at the output path, [processed/histogram] in the
    layout, "an opaque engine-owned blob", and fail with an error
    otherwise.  The model stores the blob of the engine at the path it is
    given, touches no other file, and returns the path as the histogram;
    when the engine raises, nothing is stored. *)
Definition build_histogram_file (image : option Image) (path : Path)
    : M Path :=
  fs ← files;
  blob ← of_res (histogram_engine env fs image path);
  syscall (fun fs => Ok (<[path := File blob]> fs)) ;;
  mret path.

(** [FileImporter.deploy_histogram]; only a missing or an existing file
    is caught around the builder. *)
Definition deploy_histogram (image : option Image) : M (option Path) :=
  processed_dir ← self_processed_dir;
  processed_dir ← as_path processed_dir;
  let histogram_path := processed_dir ++ [HISTOGRAM_STEM] in
  assign (set_histogram_path (Some histogram_path)) ;;
  notify START_HISTOGRAM_DEPLOY [APath (Some histogram_path); AImage image] [] ;;
  try_except
    (histogram ← build_histogram_file image histogram_path;
     assign (set_histogram (Some histogram)))
    (fun e => match e with
              | FileNotFoundError | FileExistsError => true
              | _ => false
              end)
    (fun e =>
       notify ERROR_HISTOGRAM [APath (Some histogram_path); AImage image]
         [("exception", AException e)] ;;
       raise (FileErrorProblem (Some histogram_path))) ;;
  histogram ← self_histogram;
  match histogram with
  | None => raise AttributeError
  | Some histogram => assert (has_histogram_role env histogram)
  end ;;
  notify END_HISTOGRAM_DEPLOY [APath (Some histogram_path); AImage image] [] ;;
  self_histogram.

(** The [for child in ...] loop of [import_collection]: one
    [REGISTER_FILE] event and, unless building it raises, one task per
    child. *)
Fixpoint register_children (cyto : option CytomineHooks) (task : string)
    (prefer_copy : bool) (children : list Path) (tasks : list Signature)
    : M (list Signature) :=
  match children with
  | [] => mret tasks
  | child :: rest =>
      upload_path ← self_upload_path;
      notify REGISTER_FILE [APath (Some child); APath upload_path] [] ;;
      tasks ← try_except
        (args ← match cyto with
                | Some c =>
                    new_listener ← of_res (new_listener_from_registered_child c child);
                    mret [TAuth new_listener.1; TStr child; TName (name child);
                          TListener new_listener.2; TBool prefer_copy]
                | None => mret [TStr child; TName (name child); TBool prefer_copy]
                end;
         mret (tasks ++ [{| task := task; task_args := args |}]))
        any_Exception (fun _ => mret tasks);
      register_children cyto task prefer_copy rest tasks
  end.

(** [FileImporter.import_collection] *)
Definition import_collection (collection : Path) (prefer_copy : bool)
    : M (list Path) :=
  let cyto : option CytomineHooks := head (omap cytomine loggers) in
  let task :=
    match cyto with
    | Some _ => "pims.tasks.worker.run_import_with_cytomine"
    | None => "pims.tasks.worker.run_import"
    end in
  let imported : list Path := [] in
  fs ← files;
  tasks ← register_children cyto task prefer_copy
            (get_extracted_children env fs collection) [];
  extern (group_get env tasks) ;;
  mret imported.

(** What the first part of [run] hands to the rest: the result of a
    collection, which [run] returns at once, or the format of the single
    image to go on with. *)
Inductive Identified :=
  | Collection (imported : list Path)
  | Single (format : Format).

(** [run], lines 116-151: the pending file is checked and moved in. *)
Definition move_in (prefer_copy : bool) : M unit :=
  pending_file ← self_pending_file;
  notify START_DATA_EXTRACTION [APath (Some pending_file)] [] ;;
  fs ← files;
  (* Check the file is in pending area, or comes from a extracted collection *)
  (if (negb (is_extracted env pending_file)
         && negb (bool_decide (parent pending_file = PENDING_PATH env)))
        || negb (path_exists fs pending_file)
   then
     notify FILE_NOT_FOUND [APath (Some pending_file)] [] ;;
     raise (FilepathNotFoundProblem pending_file)
   else mret tt) ;;
  (* Move the file to PIMS root path *)
  let upload_dir_name := UPLOAD_DIR_PREFIX env +:+ unique_name_generator env in
  let upload_dir := FILE_ROOT_PATH env ++ [upload_dir_name] in
  assign (set_upload_dir (Some upload_dir)) ;;
  mkdir upload_dir ;;
  pending_name ← self_pending_name;
  let name :=
    match pending_name with
    | Some n => if bool_decide (n = "") then name pending_file else n
    | None => name pending_file
    end in
  let upload_path := upload_dir ++ [name] in
  assign (set_upload_path (Some upload_path)) ;;
  move pending_file upload_path prefer_copy ;;
  (* If the pending file comes from an archive *)
  (if negb prefer_copy && is_extracted env pending_file then
     mksymlink pending_file (Some upload_path)
   else mret tt) ;;
  notify MOVED_PENDING_FILE [APath (Some pending_file); APath (Some upload_path)] [] ;;
  notify END_DATA_EXTRACTION [APath (Some upload_path)] [].

(** [run], lines 153-170: the format is identified, as an image format
    or else as an archive. *)
Definition detect_format : M (Format * option Archive) :=
  upload_path ← self_upload_path;
  notify START_FORMAT_DETECTION [APath upload_path] [] ;;
  upload_path ← as_path upload_path;
  fs ← files;
  let format := FormatFactory_match env fs upload_path in
  let archive :=
    match format with
    | None => Archive_from_path env fs upload_path
    | Some _ => None
    end in
  let format :=
    match format, archive with
    | None, Some a => Some (archive_format a)
    | _, _ => format
    end in
  match format with
  | None =>
      notify ERROR_NO_FORMAT [APath (Some upload_path)] [] ;;
      raise (NoMatchingFormatProblem (Some upload_path))
  | Some format =>
      notify END_FORMAT_DETECTION [APath (Some upload_path); AFormat format] [] ;;
      mret (format, archive)
  end.

(** [run], lines 172-224: the processed directory and the original
    role; an archive is unpacked and is either one image in several
    files or a collection. *)
Definition create_original_role (format : Format) (archive : option Archive)
    (prefer_copy : bool) : M Identified :=
  (* Create processed dir *)
  upload_dir ← self_upload_dir;
  upload_dir ← as_path upload_dir;
  let processed_dir := upload_dir ++ [PROCESSED_DIR] in
  assign (set_processed_dir (Some processed_dir)) ;;
  mkdir processed_dir ;;
  (* Create original role *)
  let original_filename := ORIGINAL_STEM +:+ "." +:+ get_identifier format in
  let original_path := processed_dir ++ [original_filename] in
  assign (set_original_path (Some original_path)) ;;
  upload_path ← self_upload_path;
  match archive with
  | Some archive =>
      try_except
        (notify START_UNPACKING [APath upload_path] [] ;;
         extern (archive_extract env archive original_path))
        (fun e => match e with ArchiveError => true | _ => false end)
        (fun e =>
           notify ERROR_UNPACKING [APath upload_path] [("exception", AException e)] ;;
           raise (FileErrorProblem upload_path)) ;;
      (* Now the archive is extracted, check if it's a multi-file format *)
      fs ← files;
      match FormatFactory_match env fs original_path with
      | Some format =>
          (* It is a multi-file format *)
          let original_filename := ORIGINAL_STEM +:+ "." +:+ get_identifier format in
          let new_original_path := processed_dir ++ [original_filename] in
          move original_path new_original_path false ;;
          assign (set_original_path (Some new_original_path)) ;;
          notify END_UNPACKING [APath upload_path; APath (Some new_original_path)]
            [("format", AFormat format); ("is_collection", ABool false)] ;;
          assign (set_upload_path (Some new_original_path)) ;;
          mret (Single format)
      | None =>
          let extracted_dir := processed_dir ++ [EXTRACTED_DIR] in
          assign (set_extracted_dir (Some extracted_dir)) ;;
          mksymlink extracted_dir (Some original_path) ;;
          collection ← import_collection original_path prefer_copy;
          notify END_UNPACKING [APath upload_path; APath (Some original_path)]
            [("is_collection", ABool true)] ;;
          mret (Collection collection)
      end
  | None =>
      mksymlink original_path upload_path ;;
      assert (has_original_role env original_path) ;;
      mret (Single format)
  end.

(** [run], lines 226-236: the original image is opened and checked. *)
Definition check_original_integrity (format : Format) : M Image :=
  original_path ← self_original_path;
  notify START_INTEGRITY_CHECK [APath original_path] [] ;;
  original_path ← as_path original_path;
  let original := Image_init original_path format in
  assign (set_original (Some original)) ;;
  errors ← check_image original;
  if bool_decide (0 < length errors) then
    notify ERROR_INTEGRITY_CHECK [APath (Some original_path)]
      [("integrity_errors", AErrors errors)] ;;
    raise (ImageParsingProblem (image_path original))
  else
    notify END_INTEGRITY_CHECK [AImage (Some original)] [] ;;
    mret original.

(** [run], lines 238-250: the spatial role, the histogram, the end. *)
Definition deploy (format : Format) (original : Image) : M (list Path) :=
  (if is_spatial format then deploy_spatial format
   else raise NotImplementedError) ;;
  fs ← files;
  deploy_histogram (get_spatial env fs original) ;;
  (* Finished *)
  upload_path ← self_upload_path;
  notify END_SUCCESSFUL_IMPORT [APath upload_path; AImage (Some original)] [] ;;
  upload_path ← as_path upload_path;
  mret [upload_path].

(** [run], lines 116-224: from the pending file to the original role. *)
Definition identify (prefer_copy : bool) : M Identified :=
  move_in prefer_copy ;;
  '(format, archive) ← detect_format;
  create_original_role format archive prefer_copy.

(** The [try] block of [run]. *)
Definition run_body (prefer_copy : bool) : M (list Path) :=
  identified ← identify prefer_copy;
  match identified with
  | Collection collection => mret collection
  | Single format =>
      original ← check_original_integrity format;
      deploy format original
  end.

(** [FileImporter.run]: whatever the block raises is announced as a
    [FILE_ERROR] and raised again. *)
Definition run (prefer_copy : bool) : M (list Path) :=
  try_except (run_body prefer_copy) any_Exception (fun e =>
    upload_path ← self_upload_path;
    notify FILE_ERROR [APath upload_path] [("exeception", AException e)] ;;
    raise e).

(** *** Names for what a run is expected to produce *)

Definition upload_dir_of : Path :=
  FILE_ROOT_PATH env ++ [UPLOAD_DIR_PREFIX env +:+ unique_name_generator env].

Definition upload_name_of (s : FileImporter) : string :=
  match pending_name s with
  | Some n => if bool_decide (n = "") then name (pending_file s) else n
  | None => name (pending_file s)
  end.

Definition upload_path_of (s : FileImporter) : Path :=
  upload_dir_of ++ [upload_name_of s].

Definition processed_dir_of : Path := upload_dir_of ++ [PROCESSED_DIR].

Definition original_path_of (format : Format) : Path :=
  processed_dir_of ++ [ORIGINAL_STEM +:+ "." +:+ get_identifier format].

Definition spatial_path_of (ext : string) : Path :=
  processed_dir_of ++ [SPATIAL_STEM +:+ "." +:+ ext].

Definition histogram_path_of : Path := processed_dir_of ++ [HISTOGRAM_STEM].

(** The events of an import that converts a format matched on the upload
    itself, in the order of the calls of [notify]. *)
Definition conversion_trace (s : FileImporter) (format spatial_format : Format)
    (ext : string) (hist_image : option Image) : list Event :=
  let pf := pending_file s in
  let up := upload_path_of s in
  let op := original_path_of format in
  let sp := spatial_path_of ext in
  let hp := histogram_path_of in
  let original := Image_init op format in
  let spatial := Image_init sp spatial_format in
  [evt START_DATA_EXTRACTION [APath (Some pf)] [];
   evt MOVED_PENDING_FILE [APath (Some pf); APath (Some up)] [];
   evt END_DATA_EXTRACTION [APath (Some up)] [];
   evt START_FORMAT_DETECTION [APath (Some up)] [];
   evt END_FORMAT_DETECTION [APath (Some up); AFormat format] [];
   evt START_INTEGRITY_CHECK [APath (Some op)] [];
   evt END_INTEGRITY_CHECK [AImage (Some original)] [];
   evt START_SPATIAL_DEPLOY [APath (Some op)] [];
   evt START_CONVERSION [APath (Some sp); APath (Some up)] [];
   evt END_CONVERSION [APath (Some sp)] [];
   evt START_FORMAT_DETECTION [APath (Some sp)] [];
   evt END_FORMAT_DETECTION [APath (Some sp); AFormat spatial_format] [];
   evt START_INTEGRITY_CHECK [APath (Some sp)] [];
   evt END_INTEGRITY_CHECK [AImage (Some spatial)] [];
   evt END_SPATIAL_DEPLOY [AImage (Some spatial)] [];
   evt START_HISTOGRAM_DEPLOY [APath (Some hp); AImage hist_image] [];
   evt END_HISTOGRAM_DEPLOY [APath (Some hp); AImage hist_image] [];
   evt END_SUCCESSFUL_IMPORT [APath (Some up); AImage (Some original)] []].

End Pipeline.

(** The order of events that a converting import must show. *)
Definition conversion_order : list ImportEventType :=
  [START_DATA_EXTRACTION; MOVED_PENDING_FILE; END_FORMAT_DETECTION;
   START_CONVERSION; END_CONVERSION; END_INTEGRITY_CHECK;
   END_HISTOGRAM_DEPLOY; END_SUCCESSFUL_IMPORT].

(** An outcome that lets the dispatch loop go on to the next observer. *)
Definition tolerated (o : HandlerOutcome) : bool :=
  match o with
  | NoHandler | Returns | Raises AttributeError => true
  | Raises _ => false
  end.

(** An observer none of whose handlers ever raises anything but an
    [AttributeError]. *)
Definition well_behaved (l : Listener) : Prop :=
  forall log ev, tolerated (handle l log ev) = true.

(** Modelled from the spec: [convert] of the format plugins is not among
    the sources.  The spec has a conversion "produce a new file in the
    SPATIAL role slot": when a converter reports success and the target is
    there, the target is a regular file that the converter has written, and
    no other file has changed. *)
Definition converter_makes_file (env : Env) : Prop :=
  forall (format : Format) (target : Path) (fs fs' : FS),
    format_convert env format target fs = (Ok true, fs') ->
    path_exists fs' target = true ->
    exists content, fs' = <[target := File content]> fs.

(** The same observer with handlers that all return. *)
Definition quiet (l : Listener) : Listener :=
  {| handle := fun _ _ => Returns; cytomine := cytomine l |}.

(** Computations that agree on their result and on what they do to the
    pipeline, whatever has happened on the observers' side. *)
Definition same_outcome {A} (c1 c2 : M A) : Prop :=
  forall (p : Pipeline) (o1 o2 : ObserverLog),
    (c1 (p, o1)).1 = (c2 (p, o2)).1 /\ (c1 (p, o1)).2.1 = (c2 (p, o2)).2.1.

(** Every event that the computation emits is of a kind in [P]. *)
Definition emits {A} (P : ImportEventType -> Prop) (c : M A) : Prop :=
  forall (w w' : World) (r : Res A), c w = (r, w') ->
    exists evs, emitted w'.1 = emitted w.1 ++ evs /\
                Forall (fun ev => P (kind ev)) evs.

(** *** A small installation to run the pipeline on *)

Module Demo.

Definition content_at (fs : FS) (p : Path) : option string :=
  match resolve SYMLOOP_MAX fs p with
  | Some (_, File c) => Some c
  | _ => None
  end.

Definition tiff_at (p : Path) : Format :=
  {| fmt_path := p; get_identifier := "PYRTIFF"; is_spatial := true;
     need_conversion := false;
     conversion_identifier := Raise NotImplementedError |}.

Definition raw_at (p : Path) : Format :=
  {| fmt_path := p; get_identifier := "RAW"; is_spatial := true;
     need_conversion := true; conversion_identifier := Ok "PYRTIFF" |}.

Definition zip_at (p : Path) : Format :=
  {| fmt_path := p; get_identifier := "ZIP"; is_spatial := false;
     need_conversion := false;
     conversion_identifier := Raise NotImplementedError |}.

(** The registry knows two image formats by the content of the file. *)
Definition registry (fs : FS) (p : Path) : option Format :=
  match content_at fs p with
  | Some "tiff" => Some (tiff_at p)
  | Some "raw" => Some (raw_at p)
  | _ => None
  end.

(** An installation whose converter either writes the target or, with
    [converter_writes = false], says it has and writes nothing, and whose
    metadata reader fails on the attributes listed in [broken]. *)
Definition env_with (converter_writes : bool) (broken : list string) : Env :=
  {| PENDING_PATH := ["tmp"; "uploaded"];
     FILE_ROOT_PATH := ["data"; "pims"];
     UPLOAD_DIR_PREFIX := "upload";
     unique_name_generator := "0001";
     is_extracted := fun _ => false;
     FormatFactory_match := registry;
     Archive_from_path := fun fs p =>
       match content_at fs p with
       | Some "zip" => Some {| archive_path := p; archive_format := zip_at p |}
       | _ => None
       end;
     archive_extract := fun a p fs =>
       (Ok tt,
        <[p ++ ["b.tiff"] := File "tiff"]>
          (<[p ++ ["a.tiff"] := File "tiff"]> (<[p := Dir]> fs)));
     SpatialReadableFormatFactory_match := registry;
     Format_from_path := fun f p =>
       {| fmt_path := p; get_identifier := get_identifier f;
          is_spatial := is_spatial f; need_conversion := need_conversion f;
          conversion_identifier := conversion_identifier f |};
     format_convert := fun f p fs =>
       (Ok true, if converter_writes then <[p := File "tiff"]> fs else fs);
     image_getattr := fun _ _ a =>
       if bool_decide (a ∈ broken) then Raise ValueError else Ok tt;
     get_spatial := fun fs im => None;
     histogram_engine := fun _ _ _ => Ok "hist";
     has_original_role := fun _ => true;
     has_spatial_role := fun _ => true;
     has_histogram_role := fun _ => true;
     get_extracted_children := fun fs p => [p ++ ["a.tiff"]; p ++ ["b.tiff"]];
     group_get := fun _ fs => (Ok tt, fs) |}.

Definition env : Env := env_with true [].

(** A pending file named [slide] with the given content. *)
Definition pending (c : string) : FS :=
  <[ ["tmp"; "uploaded"; "slide"] := File c ]>
    (<[ ["tmp"; "uploaded"] := Dir ]>
      (<[ ["tmp"] := Dir ]>
        (<[ ["data"; "pims"] := Dir ]>
          (<[ ["data"] := Dir ]> ∅)))).

Definition world (c : string) : World :=
  ({| self := FileImporter_init ["tmp"; "uploaded"; "slide"] None;
      fs := pending c; emitted := [] |},
   {| delivered := []; warnings := [] |}).

(** An observer whose handlers all return, like [StdoutListener]. *)
Definition stdout : Listener :=
  {| handle := fun _ _ => Returns; cytomine := None |}.

(** An observer without any handler. *)
Definition mute : Listener :=
  {| handle := fun _ _ => NoHandler; cytomine := None |}.

(** An observer whose handlers look the path up in a dictionary that does
    not hold it, as [CytomineListener] does with [path_uf_mapping]. *)
Definition unregistered : Listener :=
  {| handle := fun _ _ => Raises KeyError; cytomine := None |}.

(** An observer whose handlers return, but for the events of kind [k]: on
    these the path is looked up in a dictionary that does not hold it, as
    [integrity_error] and [conversion_error] of [CytomineListener] do with
    the paths of the role files, which no handler registers. *)
Definition unregistered_on (k : ImportEventType) : Listener :=
  {| handle := fun _ ev =>
       if bool_decide (kind ev = k) then Raises KeyError else Returns;
     cytomine := None |}.

End Demo.

End Importer.

(** ** What the importer is expected to hand to its surroundings *)

Module Expected.
Import Importer.

(** The task that [import_collection] schedules for each child (lines
    378-381). *)
Definition task_name (cyto : option CytomineHooks) : string :=
  match cyto with
  | Some _ => "pims.tasks.worker.run_import_with_cytomine"
  | None => "pims.tasks.worker.run_import"
  end.

(** The task made for one child of a collection (lines 390-398): with a
    [CytomineListener] the credentials and the listener made for the child
    come first; a child whose listener cannot be made gets no task. *)
Definition child_signature (cyto : option CytomineHooks) (prefer_copy : bool)
    (child : Path) : option Signature :=
  match cyto with
  | Some c =>
      match new_listener_from_registered_child c child with
      | Ok new_listener =>
          Some {| task := task_name cyto;
                  task_args := [TAuth new_listener.1; TStr child;
                                TName (name child); TListener new_listener.2;
                                TBool prefer_copy] |}
      | Raise _ => None
      end
  | None =>
      Some {| task := task_name cyto;
              task_args := [TStr child; TName (name child); TBool prefer_copy] |}
  end.

(** The event announcing one child of a collection. *)
Definition register_event (upload_path : option Path) (child : Path) : Event :=
  evt REGISTER_FILE [APath (Some child); APath upload_path] [].

(** The event with which [run] announces the exception it raises again;
    the keyword is spelled as in the source. *)
Definition file_error_event (upload_path : option Path) (e : Exception) : Event :=
  evt FILE_ERROR [APath upload_path] [("exeception", AException e)].

(** The events of an import of a format matched on the upload itself that
    needs no conversion, in the order of the calls of [notify]. *)
Definition plain_trace (env : Env) (s : FileImporter) (format : Format)
    (hist_image : option Image) : list Event :=
  let pf := pending_file s in
  let up := upload_path_of env s in
  let op := original_path_of env format in
  let sp := spatial_path_of env (get_identifier format) in
  let hp := histogram_path_of env in
  let original := Image_init env op format in
  let spatial := Image_init env sp format in
  [evt START_DATA_EXTRACTION [APath (Some pf)] [];
   evt MOVED_PENDING_FILE [APath (Some pf); APath (Some up)] [];
   evt END_DATA_EXTRACTION [APath (Some up)] [];
   evt START_FORMAT_DETECTION [APath (Some up)] [];
   evt END_FORMAT_DETECTION [APath (Some up); AFormat format] [];
   evt START_INTEGRITY_CHECK [APath (Some op)] [];
   evt END_INTEGRITY_CHECK [AImage (Some original)] [];
   evt START_SPATIAL_DEPLOY [APath (Some op)] [];
   evt END_SPATIAL_DEPLOY [AImage (Some spatial)] [];
   evt START_HISTOGRAM_DEPLOY [APath (Some hp); AImage hist_image] [];
   evt END_HISTOGRAM_DEPLOY [APath (Some hp); AImage hist_image] [];
   evt END_SUCCESSFUL_IMPORT [APath (Some up); AImage (Some original)] []].

End Expected.

(** ** Installations whose collaborators fail *)

Module Broken.
Import Importer.

(** [env] with another archive extractor. *)
Definition with_extract (f : Archive -> Path -> FS -> Res unit * FS)
    (env : Env) : Env :=
  {| PENDING_PATH := PENDING_PATH env;
     FILE_ROOT_PATH := FILE_ROOT_PATH env;
     UPLOAD_DIR_PREFIX := UPLOAD_DIR_PREFIX env;
     unique_name_generator := unique_name_generator env;
     is_extracted := is_extracted env;
     FormatFactory_match := FormatFactory_match env;
     Archive_from_path := Archive_from_path env;
     archive_extract := f;
     SpatialReadableFormatFactory_match := SpatialReadableFormatFactory_match env;
     Format_from_path := Format_from_path env;
     format_convert := format_convert env;
     image_getattr := image_getattr env;
     get_spatial := get_spatial env;
     histogram_engine := histogram_engine env;
     has_original_role := has_original_role env;
     has_spatial_role := has_spatial_role env;
     has_histogram_role := has_histogram_role env;
     get_extracted_children := get_extracted_children env;
     group_get := group_get env |}.

(** [env] with another converter. *)
Definition with_convert (f : Format -> Path -> FS -> Res bool * FS)
    (env : Env) : Env :=
  {| PENDING_PATH := PENDING_PATH env;
     FILE_ROOT_PATH := FILE_ROOT_PATH env;
     UPLOAD_DIR_PREFIX := UPLOAD_DIR_PREFIX env;
     unique_name_generator := unique_name_generator env;
     is_extracted := is_extracted env;
     FormatFactory_match := FormatFactory_match env;
     Archive_from_path := Archive_from_path env;
     archive_extract := archive_extract env;
     SpatialReadableFormatFactory_match := SpatialReadableFormatFactory_match env;
     Format_from_path := Format_from_path env;
     format_convert := f;
     image_getattr := image_getattr env;
     get_spatial := get_spatial env;
     histogram_engine := histogram_engine env;
     has_original_role := has_original_role env;
     has_spatial_role := has_spatial_role env;
     has_histogram_role := has_histogram_role env;
     get_extracted_children := get_extracted_children env;
     group_get := group_get env |}.

(** [env] with another registry of readable spatial formats. *)
Definition with_spatial_registry (f : FS -> Path -> option Format)
    (env : Env) : Env :=
  {| PENDING_PATH := PENDING_PATH env;
     FILE_ROOT_PATH := FILE_ROOT_PATH env;
     UPLOAD_DIR_PREFIX := UPLOAD_DIR_PREFIX env;
     unique_name_generator := unique_name_generator env;
     is_extracted := is_extracted env;
     FormatFactory_match := FormatFactory_match env;
     Archive_from_path := Archive_from_path env;
     archive_extract := archive_extract env;
     SpatialReadableFormatFactory_match := f;
     Format_from_path := Format_from_path env;
     format_convert := format_convert env;
     image_getattr := image_getattr env;
     get_spatial := get_spatial env;
     histogram_engine := histogram_engine env;
     has_original_role := has_original_role env;
     has_spatial_role := has_spatial_role env;
     has_histogram_role := has_histogram_role env;
     get_extracted_children := get_extracted_children env;
     group_get := group_get env |}.

(** An archive of one image in several files: the extraction leaves at
    the path something that the format registry knows. *)
Definition bundle_extract (a : Archive) (p : Path) (fs : FS) : Res unit * FS :=
  (Ok tt, <[p := File "tiff"]> fs).

(** A world in which the upload of a file of content [c] has been moved
    in. *)
Definition uploaded (c : string) : World :=
  ({| self :=
        set_upload_path (Some ["data"; "pims"; "upload0001"; "slide"])
          (set_upload_dir (Some ["data"; "pims"; "upload0001"])
             (FileImporter_init ["tmp"; "uploaded"; "slide"] None));
      fs := <[ ["data"; "pims"; "upload0001"; "slide"] := File c ]>
              (<[ ["data"; "pims"; "upload0001"] := Dir ]>
                 (<[ ["data"; "pims"] := Dir ]> (<[ ["data"] := Dir ]> ∅)));
      emitted := [] |},
   {| delivered := []; warnings := [] |}).

End Broken.

(** ** Request parameters ([pims/api/utils/image_parameter.py]) *)

Module ImageParameter.
Local Open Scope Z_scope.

Inductive Problem :=
  | BadRequestProblem (detail : string)
  | TooLargeOutputProblem (width height max_size : Z)
  (** an exception of Python itself *)
  | Builtin (e : Exception).

Inductive Outcome (A : Type) :=
  | Gives (a : A)
  | Fails (p : Problem).
Arguments Gives {A} a.
Arguments Fails {A} p.

(** A length given as a number of pixels ([int]) or as a ratio ([float]).
    Floats stay abstract: [F] is their type. *)
Inductive Size (F : Type) :=
  | Absolute (n : Z)
  | Ratio (f : F).
Arguments Absolute {F} n.
Arguments Ratio {F} f.

(** An optional parameter that holds one value or a list of values. *)
Inductive Param (A : Type) :=
  | Unset
  | Many (l : list A)
  | One (a : A).
Arguments Unset {A}.
Arguments Many {A} l.
Arguments One {A} a.

(** [ensure_list] *)
Definition ensure_list {A} (value : Param A) : list A :=
  match value with
  | Many l => l
  | One a => [a]
  | Unset => []
  end.

#[global] Instance Outcome_ret : MRet Outcome := fun A a => Gives a.

#[global] Instance Outcome_bind : MBind Outcome := fun A B k o =>
  match o with
  | Gives a => k a
  | Fails p => Fails p
  end.

(** A step of Python itself inside a request. *)
Definition builtin {A} (r : Res A) : Outcome A :=
  match r with
  | Ok a => Gives a
  | Raise e => Fails (Builtin e)
  end.

Section Resizing.
Context {F : Type}.
(** [a / b] on integers, for [b] other than zero: a float, or the
    [OverflowError] of a quotient that is too large for a float *)
Context (true_div : Z -> Z -> Res F).
(** [round(ratio * length)]: an integer, or the [OverflowError] of a length
    too large for a float or of an infinite product, or the [ValueError] of
    a product that is not a number *)
Context (round_times : F -> Z -> Res Z).

(** [resized / length] *)
Definition quotient (resized length : Z) : Outcome F :=
  if length =? 0 then Fails (Builtin ZeroDivisionError)
  else builtin (true_div resized length).

(** [round(ratio * length)] *)
Definition rounded (ratio : F) (length : Z) : Outcome Z :=
  builtin (round_times ratio length).

(** [get_rationed_resizing]: the ratio first, then the resized length, then
    the other one. *)
Definition get_rationed_resizing (resized : Size F) (length other_length : Z)
    : Outcome (Z * Z) :=
  match resized with
  | Ratio ratio =>
      resized ← rounded ratio length;
      other_resized ← rounded ratio other_length;
      mret (resized, other_resized)
  | Absolute n =>
      ratio ← quotient n length;
      other_resized ← rounded ratio other_length;
      mret (n, other_resized)
  end.

Definition swap_outcome (o : Outcome (Z * Z)) : Outcome (Z * Z) :=
  match o with
  | Gives (a, b) => Gives (b, a)
  | Fails p => Fails p
  end.

(** [get_output_dimensions]; the result is [(out_width, out_height)]. *)
Definition get_output_dimensions (image_width image_height : Z)
    (height width length : option (Size F)) : Outcome (Z * Z) :=
  match height, width, length with
  | Some height, _, _ =>
      swap_outcome (get_rationed_resizing height image_height image_width)
  | None, Some width, _ =>
      get_rationed_resizing width image_width image_height
  | None, None, Some length =>
      if image_height <? image_width then
        get_rationed_resizing length image_width image_height
      else
        swap_outcome (get_rationed_resizing length image_height image_width)
  | None, None, None =>
      Fails (BadRequestProblem
               ("Impossible to determine output dimensions. "
                +:+ "Height, width and length cannot all be unset."))
  end.

(** [safeguard_output_dimensions] *)
Definition safeguard_output_dimensions (safe_mode : string)
    (max_size width height : Z) : Outcome (Z * Z) :=
  if bool_decide (safe_mode = "UNSAFE") then Gives (width, height)
  else if bool_decide (safe_mode = "SAFE_REJECT")
          && ((max_size <? width) || (max_size <? height)) then
    Fails (TooLargeOutputProblem width height max_size)
  else if bool_decide (safe_mode = "SAFE_RESIZE")
          && ((max_size <? width) || (max_size <? height)) then
    if height <? width then
      get_rationed_resizing (Absolute max_size) width height
    else
      swap_outcome (get_rationed_resizing (Absolute max_size) height width)
  else Gives (width, height).
End Resizing.

(** [OrderedSet(l)]: the elements of [l] without repetition, each at the
    place of its first occurrence. *)
Definition OrderedSet (l : list Z) : list Z :=
  foldl (fun seen x => if decide (x ∈ seen) then seen else seen ++ [x]) [] l.

(** What [OrderedSet] adds to the elements already seen. *)
Fixpoint fresh_of (seen l : list Z) : list Z :=
  match l with
  | [] => []
  | x :: r =>
      if decide (x ∈ seen) then fresh_of seen r
      else x :: fresh_of (seen ++ [x]) r
  end.

(** An item of a list of planes: an index, or anything else, written as
    text. *)
Inductive Plane :=
  | PlaneIndex (i : Z)
  | PlaneText (s : string).

Section Planes.
(** [is_range] and [parse_range] of [pims.api.utils.schema_format], which
    is not among the sources *)
Context (is_range : string -> bool).
Context (parse_range : string -> Z -> Z -> list Z).

(** The [for plane in planes_to_parse] loop of [parse_planes] *)
Fixpoint collect_planes (planes : list Plane) (n_planes : Z) (name : string)
    (plane_indexes : list Z) : Outcome (list Z) :=
  match planes with
  | [] => Gives plane_indexes
  | PlaneIndex i :: rest =>
      collect_planes rest n_planes name (plane_indexes ++ [i])
  | PlaneText s :: rest =>
      if is_range s then
        collect_planes rest n_planes name
          (plane_indexes ++ parse_range s 0 n_planes)
      else
        Fails (BadRequestProblem
                 (s +:+ " is not a valid index or range for " +:+ name +:+ "."))
  end.

(** [parse_planes] *)
Definition parse_planes (planes_to_parse : list Plane) (n_planes : Z)
    (default : Param Z) (name : string) : Outcome (list Z) :=
  if Z.of_nat (length planes_to_parse) =? 0 then
    Gives (OrderedSet (ensure_list default))
  else
    match collect_planes planes_to_parse n_planes name [] with
    | Fails p => Fails p
    | Gives plane_indexes =>
        Gives (OrderedSet
                 (filter (fun idx => 0 <= idx < n_planes) plane_indexes))
    end.

(** The indexes that an item of a request stands for. *)
Definition expand (n_planes : Z) (p : Plane) : list Z :=
  match p with
  | PlaneIndex i => [i]
  | PlaneText s => parse_range s 0 n_planes
  end.

Definition valid_plane (p : Plane) : Prop :=
  match p with
  | PlaneIndex _ => True
  | PlaneText s => is_range s = true
  end.

(** [get_channel_indexes]; [n_channels] is [image.n_channels]. *)
Definition get_channel_indexes (n_channels : Z) (planes : list Plane)
    : Outcome (list Z) :=
  let default := seqZ 0 n_channels in
  parse_planes planes n_channels (Many default) "channels".

(** [get_timepoint_indexes]; [duration] is [image.duration]. *)
Definition get_timepoint_indexes (duration : Z) (planes : list Plane)
    : Outcome (list Z) :=
  let default := [0] in
  parse_planes planes duration (Many default) "timepoints".
End Planes.

(** An intensity bound of a request: a number or one of the names of the
    API. *)
Inductive Intensity :=
  | IntensityValue (v : Z)
  | IntensityName (s : string).

Section Intensities.
(** [image.significant_bits] *)
Context (significant_bits : Z).
(** [image.channel_stats(c)[bound_kind]] *)
Context (channel_stats : Z -> string -> Z).

(** The inner function [parse_intensity].  For a number inside the range it
    returns [intensity], the variable of the loop that calls it, which holds
    the bound it was given. *)
Definition parse_intensity (allow_none : bool) (c : Z) (bound_value : Intensity)
    (bound_default : Z) (bound_kind : string) : Z :=
  let max_allowed_intensity := 2 ^ significant_bits - 1 in
  match bound_value with
  | IntensityValue v =>
      if v <? 0 then 0
      else if max_allowed_intensity <? v then max_allowed_intensity
      else v
  | IntensityName s =>
      if allow_none && bool_decide (s = "NONE") then bound_default
      else if bool_decide (s = "AUTO_IMAGE") then
        if significant_bits <=? 8 then bound_default
        else channel_stats c bound_kind
      else if bool_decide (s = "STRETCH_IMAGE") then channel_stats c bound_kind
      else bound_default
  end.

(** One of the two loops: the entries that face a channel are parsed in
    place, the others stay as they are. *)
Definition parse_bounds (allow_none : bool) (out_channels : list Z)
    (intensities : list Intensity) (bound_default : Z) (bound_kind : string)
    : list Intensity :=
  zip_with (fun channel intensity =>
              IntensityValue (parse_intensity allow_none channel intensity
                                bound_default bound_kind))
    out_channels intensities
  ++ drop (length out_channels) intensities.

(** [[x] * n] and [l * n] for the lists of no and of one element *)
Definition spread (n : nat) (default : Intensity) (l : list Intensity)
    : list Intensity :=
  match l with
  | [] => replicate n default
  | [x] => replicate n x
  | _ => l
  end.

(** [parse_intensity_bounds] *)
Definition parse_intensity_bounds (out_channels : list Z)
    (min_intensities max_intensities : list Intensity) (allow_none : bool)
    : list Intensity * list Intensity :=
  let max_allowed_intensity := 2 ^ significant_bits - 1 in
  let n_out_channels := length out_channels in
  let min_intensities := spread n_out_channels (IntensityValue 0) min_intensities in
  let max_intensities :=
    spread n_out_channels (IntensityValue max_allowed_intensity) max_intensities in
  (parse_bounds allow_none out_channels min_intensities 0 "minimum",
   parse_bounds allow_none out_channels max_intensities max_allowed_intensity
     "maximum").
End Intensities.

End ImageParameter.

(** ** The histograms per channel ([pims/api/histograms.py], lines 202-234) *)

Module ChannelRoutes.
Import Histograms ImageParameter.
Local Open Scope Z_scope.

(** What can end a query: an exception of the API, a problem met while the
    planes are read, or the [IndexError] of a list. *)
Inductive RouteError :=
  | Api (e : Exception)
  | InParameters (p : Problem)
  | IndexError.

Inductive Answer (A : Type) :=
  | Success (a : A)
  | Failure (e : RouteError).
Arguments Success {A} a.
Arguments Failure {A} e.

(** What the query reads of the spatial representation, beside what
    [SpatialImage] holds: the channels with their colour, and the histogram
    and the bounds stored for each channel. *)
Record ChannelImage := {
  base : SpatialImage;
  n_channels : Z;
  (** [channels[c].hex_color], one entry per channel *)
  hex_colors : list (option string);
  channel_histogram : Z -> list Z;
  channel_bounds : Z -> Z * Z
}.

(** [l[i]] on a list: a negative index counts from the end. *)
Definition py_index {A} (l : list A) (i : Z) : option A :=
  if i <? 0 then
    if i + len l <? 0 then None else l !! Z.to_nat (i + len l)
  else l !! Z.to_nat i.

(** The model [ChannelHistogram]: the fields of the dictionary of
    [histogram_formatter] beside the channel and its colour. *)
Record ChannelHistogram := {
  channel : Z;
  color : option string;
  formatted : Formatted
}.

Record Collection (A : Type) := {
  items : list A;
  size : Z
}.
Arguments items {A} c.
Arguments size {A} c.

(** [response_list] of [pims/api/utils/response.py] *)
Definition response_list {A} (list_ : list A) : Collection A :=
  {| items := list_; size := len list_ |}.

(** The [for channel in channels] loop.  The arguments of
    [ChannelHistogram(...)] are evaluated in the order in which they are
    written: the colour is read before the histogram is formatted. *)
Fixpoint channel_histograms (in_image : ChannelImage) (n_bins : Z)
    (full_range : bool) (channels : list Z) (histograms : list ChannelHistogram)
    : Answer (list ChannelHistogram) :=
  match channels with
  | [] => Success histograms
  | channel :: rest =>
      match py_index (hex_colors in_image) channel with
      | None => Failure IndexError
      | Some color =>
          match histogram_formatter (channel_histogram in_image channel)
                  (channel_bounds in_image channel) n_bins full_range with
          | Raise e => Failure (Api e)
          | Ok f =>
              channel_histograms in_image n_bins full_range rest
                (histograms ++
                 [{| channel := channel; color := color; formatted := f |}])
          end
      end
  end.

Section Route.
Context (is_range : string -> bool).
Context (parse_range : string -> Z -> Z -> list Z).

(** [show_channels_histogram], from the query parameters on.  The declared
    type of [channels] is an optional list of integers. *)
Definition show_channels_histogram (in_image : ChannelImage) (n_bins : Z)
    (full_range : bool) (channels : option (list Z))
    : Answer (Collection ChannelHistogram) :=
  match HistogramConfig_init n_bins full_range with
  | Raise e => Failure (Api e)
  | Ok hist_config =>
      match check_representation_existence (base in_image) with
      | Raise e => Failure (Api e)
      | Ok _ =>
          let channels :=
            ensure_list (match channels with
                         | Some l => Many (PlaneIndex <$> l)
                         | None => Unset
                         end) in
          match get_channel_indexes is_range parse_range
                  (n_channels in_image) channels with
          | Fails p => Failure (InParameters p)
          | Gives channels =>
              match effective_n_bins (base in_image) hist_config with
              | Raise e => Failure (Api e)
              | Ok n_bins =>
                  match channel_histograms in_image n_bins
                          (cfg_full_range hist_config) channels [] with
                  | Failure e => Failure e
                  | Success histograms => Success (response_list histograms)
                  end
              end
          end
      end
  end.
End Route.

End ChannelRoutes.

(** ** The format of a response ([pims/api/utils/mimetype.py]) *)

Module Mimetype.

(** The members of [OutputExtension]; their values are [""], [".jpg"],
    [".png"] and [".webp"]. *)
Inductive OutputExtension := NONE | JPEG | PNG | WEBP.

#[global] Instance OutputExtension_eq_dec : EqDecision OutputExtension.
Proof. solve_decision. Defined.

(** An ordered dictionary with strings as keys: the items in the order of
    insertion. *)
Definition OrderedDict (V : Type) : Type := list (string * V).

(** [d.get(key)] *)
Fixpoint dict_get {V} (d : OrderedDict V) (key : string) : option V :=
  match d with
  | [] => None
  | (k, v) :: rest => if decide (k = key) then Some v else dict_get rest key
  end.

(** [d[key] = value]: a key that is already there keeps its place. *)
Fixpoint dict_set {V} (d : OrderedDict V) (key : string) (value : V)
    : OrderedDict V :=
  match d with
  | [] => [(key, value)]
  | (k, v) :: rest =>
      if decide (k = key) then (k, value) :: rest
      else (k, v) :: dict_set rest key value
  end.

(** [d.update(other)] *)
Definition dict_update {V} (d other : OrderedDict V) : OrderedDict V :=
  foldl (fun d kv => dict_set d kv.1 kv.2) d other.

Definition keys {V} (d : OrderedDict V) : list string := fst <$> d.

Definition mimetype_from_extension : OrderedDict string :=
  [(".jpg", "image/jpeg"); (".png", "image/png"); (".webp", "image/webp")].

(** The value of a member of the enumeration *)
Definition value (e : OutputExtension) : string :=
  match e with
  | NONE => ""
  | JPEG => ".jpg"
  | PNG => ".png"
  | WEBP => ".webp"
  end.

Definition PNG_MIMETYPES : OrderedDict OutputExtension :=
  [("image/png", PNG); ("image/apng", PNG)].
Definition WEBP_MIMETYPES : OrderedDict OutputExtension :=
  [("image/webp", WEBP)].
Definition JPEG_MIMETYPES : OrderedDict OutputExtension :=
  [("image/jpg", JPEG); ("image/jpeg", JPEG)].

(** [build_mimetype_dict] *)
Definition build_mimetype_dict {V} (mimetype_dicts : list (OrderedDict V))
    : OrderedDict V :=
  foldl dict_update [] mimetype_dicts.

Definition VISUALISATION_MIMETYPES : OrderedDict OutputExtension :=
  build_mimetype_dict [WEBP_MIMETYPES; JPEG_MIMETYPES; PNG_MIMETYPES].
Definition PROCESSING_MIMETYPES : OrderedDict OutputExtension :=
  build_mimetype_dict [PNG_MIMETYPES; JPEG_MIMETYPES; WEBP_MIMETYPES].

Inductive Problem :=
  | NoAcceptableResponseMimetypeProblem (accept_header : string)
      (supported_mimetypes : list string).

Section Negotiation.
(** An [AcceptableType], and what the regular expressions decide:
    [parse_accept_header], which gives the acceptable types of a header by
    decreasing weight, and [AcceptableType.matches]. *)
Context {AcceptableType : Type}.
Context (parse_accept_header : string -> list AcceptableType).
Context (matches : AcceptableType -> string -> bool).

(** The inner loop of [get_best_mimetype] *)
Fixpoint acceptable (acceptable_types : list AcceptableType)
    (available_type : string) : bool :=
  match acceptable_types with
  | [] => false
  | acceptable_type :: rest =>
      if matches acceptable_type available_type then true
      else acceptable rest available_type
  end.

(** The outer loop of [get_best_mimetype] *)
Fixpoint best_of (acceptable_types : list AcceptableType)
    (available_types : list string) : option string :=
  match available_types with
  | [] => None
  | available_type :: rest =>
      if acceptable acceptable_types available_type then Some available_type
      else best_of acceptable_types rest
  end.

(** [get_best_mimetype] *)
Definition get_best_mimetype (header : string) (available_types : list string)
    : option string :=
  let acceptable_types := parse_accept_header header in
  best_of acceptable_types available_types.

(** [get_output_format]; [truthy] is the truth value of a value of the
    dictionary. *)
Definition get_output_format {V} (truthy : V -> bool)
    (extension : OutputExtension) (accept_header : string)
    (supported : OrderedDict V) : Problem + V * string :=
  let response_mimetype :=
    if negb (bool_decide (value extension = ""))
       && bool_decide (is_Some (dict_get mimetype_from_extension (value extension)))
    then dict_get mimetype_from_extension (value extension)
    else get_best_mimetype accept_header (keys supported) in
  (* [supported.get(None)] is [None] *)
  let output_format :=
    match response_mimetype with
    | Some m => match dict_get supported m with
                | Some f => Some (f, m)
                | None => None
                end
    | None => None
    end in
  match output_format with
  | Some (f, m) =>
      if truthy f then inr (f, m)
      else inl (NoAcceptableResponseMimetypeProblem "" (keys supported))
  | None => inl (NoAcceptableResponseMimetypeProblem "" (keys supported))
  end.
End Negotiation.

(** The truth value of a member of [OutputExtension], a string. *)
Definition extension_truthy (e : OutputExtension) : bool :=
  negb (bool_decide (value e = "")).

End Mimetype.

(** ** The listener that mirrors an import in Cytomine
    ([pims/importer/logger.py]) *)

Module CytomineLog.
Import Importer.

(** The states of an uploaded file that the listener sets; the constants
    are those of the class [UploadedFile] of the Cytomine client. *)
Inductive Status :=
  | UPLOADED | EXTRACTING_DATA | ERROR_EXTRACTION | DETECTING_FORMAT
  | ERROR_FORMAT | ERROR_DEPLOYMENT | ERROR_CONVERSION | DEPLOYED.

(** The attributes of an [UploadedFile] that the handlers read or write. *)
Record UploadedFile := {
  uf_path : Path;
  status : Status;
  (** the path below the root, as [file_moved] writes it *)
  filename : Path;
  contentType : string
}.

(** An [UploadedFile] is an object: the dictionary holds references, and
    the same object can be reached under several paths.  [heap] gives the
    object at each address, [path_uf_mapping] the address under each path,
    and [sent] what [update()] has sent to the server, oldest first. *)
Record CytomineListener := {
  heap : gmap nat UploadedFile;
  path_uf_mapping : gmap Path nat;
  root_path : Path;
  sent : list (nat * UploadedFile)
}.

Definition FILE_ROOT_PATH : Path := ["data"; "pims"].

(** [path.relative_to(root)] *)
Definition relative_to (root path : Path) : Res Path :=
  if under root path then Ok (drop (length root) path) else Raise ValueError.

(** [CytomineListener.__init__]; [root] and [uf] are what
    [UploadedFile().fetch] gives for the two identifiers, each time a new
    object. *)
Definition init (root_id uploaded_file_id : Z) (root uf : UploadedFile)
    : CytomineListener :=
  let mapping : gmap Path nat := <[uf_path root := 0%nat]> ∅ in
  if bool_decide (uploaded_file_id <> root_id) then
    {| heap := <[1%nat := uf]> (<[0%nat := root]> ∅);
       path_uf_mapping := <[uf_path uf := 1%nat]> mapping;
       root_path := uf_path root; sent := [] |}
  else
    {| heap := <[0%nat := root]> ∅; path_uf_mapping := mapping;
       root_path := uf_path root; sent := [] |}.

(** [uf = self.path_uf_mapping[str(path)]]: the address of the object, or
    a [KeyError]. *)
Definition lookup_uf (path : Path) (l : CytomineListener)
    : Res (nat * UploadedFile) :=
  match path_uf_mapping l !! path with
  | None => Raise KeyError
  | Some a =>
      match heap l !! a with
      | Some uf => Ok (a, uf)
      | None => Raise KeyError
      end
  end.

(** An attribute of the object at [a] is assigned and [uf.update()] sends
    the object. *)
Definition write (a : nat) (uf : UploadedFile) (l : CytomineListener)
    : CytomineListener :=
  {| heap := <[a := uf]> (heap l); path_uf_mapping := path_uf_mapping l;
     root_path := root_path l; sent := sent l ++ [(a, uf)] |}.

Definition with_status (s : Status) (uf : UploadedFile) : UploadedFile :=
  {| uf_path := uf_path uf; status := s; filename := filename uf;
     contentType := contentType uf |}.

(** The handlers that set a status: [start_import], [file_not_moved],
    [file_not_found], [start_format_detection], [no_matching_format],
    [generic_file_error], [integrity_error] and [conversion_error]. *)
Definition set_status (s : Status) (path : Path) (l : CytomineListener)
    : Res unit * CytomineListener :=
  match lookup_uf path l with
  | Raise e => (Raise e, l)
  | Ok (a, uf) => (Ok tt, write a (with_status s uf) l)
  end.

Definition start_import := set_status EXTRACTING_DATA.
Definition file_not_moved := set_status ERROR_EXTRACTION.
Definition file_not_found := set_status ERROR_EXTRACTION.
Definition start_format_detection := set_status DETECTING_FORMAT.
Definition no_matching_format := set_status ERROR_FORMAT.
Definition generic_file_error := set_status ERROR_DEPLOYMENT.
Definition integrity_error := set_status ERROR_CONVERSION.
Definition conversion_error := set_status ERROR_CONVERSION.

(** [file_moved]: the file name is written, the object is sent, and the
    object is then known under the new path as well. *)
Definition file_moved (old_path new_path : Path) (l : CytomineListener)
    : Res unit * CytomineListener :=
  match lookup_uf old_path l with
  | Raise e => (Raise e, l)
  | Ok (a, uf) =>
      match relative_to FILE_ROOT_PATH new_path with
      | Raise e => (Raise e, l)
      | Ok rel =>
          let uf := {| uf_path := uf_path uf; status := status uf;
                       filename := rel; contentType := contentType uf |} in
          let l := write a uf l in
          (Ok tt,
           {| heap := heap l;
              path_uf_mapping := <[new_path := a]> (path_uf_mapping l);
              root_path := root_path l; sent := sent l |})
      end
  end.

(** [matching_format_found] *)
Definition matching_format_found (path : Path) (format : Format)
    (l : CytomineListener) : Res unit * CytomineListener :=
  match lookup_uf path l with
  | Raise e => (Raise e, l)
  | Ok (a, uf) =>
      (Ok tt,
       write a {| uf_path := uf_path uf; status := status uf;
                  filename := filename uf;
                  contentType := get_identifier format |} l)
  end.

(** [integrity_success], which does what [ImportListener] does: nothing. *)
Definition integrity_success (path : Path) (l : CytomineListener)
    : Res unit * CytomineListener := (Ok tt, l).

(** A call of one of the handlers above.  [created_role_file] and
    [import_success], which build new objects on the server, are not among
    them. *)
Inductive Call :=
  | StartImport (path : Path)
  | FileMoved (old_path new_path : Path)
  | FileNotMoved (path : Path)
  | FileNotFound (path : Path)
  | StartFormatDetection (path : Path)
  | NoMatchingFormat (path : Path)
  | MatchingFormatFound (path : Path) (format : Format)
  | GenericFileError (path : Path)
  | IntegrityError (path : Path)
  | IntegritySuccess (path : Path)
  | ConversionError (path : Path).

Definition call (c : Call) : CytomineListener -> Res unit * CytomineListener :=
  match c with
  | StartImport p => start_import p
  | FileMoved o n => file_moved o n
  | FileNotMoved p => file_not_moved p
  | FileNotFound p => file_not_found p
  | StartFormatDetection p => start_format_detection p
  | NoMatchingFormat p => no_matching_format p
  | MatchingFormatFound p f => matching_format_found p f
  | GenericFileError p => generic_file_error p
  | IntegrityError p => integrity_error p
  | IntegritySuccess p => integrity_success p
  | ConversionError p => conversion_error p
  end.

(** The path that a call looks up, when it looks one up. *)
Definition looked_up (c : Call) : option Path :=
  match c with
  | StartImport p | FileNotMoved p | FileNotFound p | StartFormatDetection p
  | NoMatchingFormat p | MatchingFormatFound p _ | GenericFileError p
  | IntegrityError p | ConversionError p => Some p
  | FileMoved o _ => Some o
  | IntegritySuccess _ => None
  end.

(** Calls in a row, up to the first that raises. *)
Fixpoint calls (cs : list Call) (l : CytomineListener)
    : Res unit * CytomineListener :=
  match cs with
  | [] => (Ok tt, l)
  | c :: rest =>
      match call c l with
      | (Ok _, l') => calls rest l'
      | (Raise e, l') => (Raise e, l')
      end
  end.

(** Every path of the dictionary leads to an object. *)
Definition well_formed (l : CytomineListener) : Prop :=
  forall p a, path_uf_mapping l !! p = Some a -> is_Some (heap l !! a).

(** What a call keeps of the listener [l] it is made on, [r] being what it
    returns and leaves: the known paths stay known and lead to objects, the
    objects are the same, the root path is the same, what was sent stays
    sent, and a call that raises, raises [KeyError] or [ValueError] and has
    changed nothing. *)
Definition keeps (l : CytomineListener) (r : Res unit * CytomineListener)
    : Prop :=
  well_formed r.2 /\
  (forall p, is_Some (path_uf_mapping l !! p) ->
             is_Some (path_uf_mapping r.2 !! p)) /\
  (forall a, is_Some (heap l !! a) <-> is_Some (heap r.2 !! a)) /\
  root_path r.2 = root_path l /\
  (exists new, sent r.2 = sent l ++ new) /\
  (forall e, r.1 = Raise e -> (e = KeyError \/ e = ValueError) /\ r.2 = l).

End CytomineLog.

(** ** The request of a legacy import ([pims/api/operations.py], lines
    62-78) *)

Module Operations.
Local Open Scope Z_scope.

(** [BadRequestException(detail=...)] *)
Inductive Problem :=
  | BadRequest (detail : string).

(** [s.split(",")] *)
Fixpoint split_comma (s : string) : list string :=
  match s with
  | EmptyString => [EmptyString]
  | String c rest =>
      if bool_decide (String c EmptyString = ",") then
        EmptyString :: split_comma rest
      else
        match split_comma rest with
        | head :: tail => String c head :: tail
        | [] => [String c EmptyString]
        end
  end.

(** Whether a string holds a comma. *)
Fixpoint has_comma (s : string) : bool :=
  match s with
  | EmptyString => false
  | String c rest => bool_decide (String c EmptyString = ",") || has_comma rest
  end.

Section Parameters.
(** [int(p)] on a string: the number, or nothing where Python raises
    [ValueError] *)
Context (py_int : string -> option Z).

(** [[int(p) for p in projects]] *)
Fixpoint ints (projects : list string) : option (list Z) :=
  match projects with
  | [] => Some []
  | p :: rest =>
      match py_int p with
      | None => None
      | Some n =>
          match ints rest with
          | None => None
          | Some ns => Some (n :: ns)
          end
      end
  end.

(** The first statements of [legacy_import]: what is kept of the query
    parameters [core], [cytomine], [storage], [idStorage], [projects] and
    [idProject], as [(core, id_storage, id_projects)]. *)
Definition legacy_import_parameters (core cytomine : option string)
    (storage id_storage : option Z) (projects id_project : option string)
    : Problem + string * Z * list Z :=
  let core := match cytomine with Some c => Some c | None => core end in
  match core with
  | None | Some "" => inl (BadRequest "core or cytomine parameter missing.")
  | Some core =>
      let id_storage :=
        match id_storage with Some i => Some i | None => storage end in
      match id_storage with
      | None | Some 0 => inl (BadRequest "idStorage or storage parameter missing.")
      | Some id_storage =>
          let projects_to_parse :=
            match id_project with Some p => Some p | None => projects end in
          match projects_to_parse with
          | None | Some "" => inr (core, id_storage, [])
          | Some projects_to_parse =>
              match ints (split_comma projects_to_parse) with
              | Some id_projects => inr (core, id_storage, id_projects)
              | None => inl (BadRequest "Invalid projects or idProject parameter.")
              end
          end
      end
  end.
End Parameters.

End Operations.

(** ** Facts about the histogram queries *)

Module HistogramFacts.
Import Histograms.
Local Open Scope Z_scope.

Lemma is_power_of_2_pos (n : Z) : is_power_of_2 n = true -> 0 < n.
Proof.
  unfold is_power_of_2. intros H.
  apply andb_true_iff in H as [Hl Hn].
  apply Z.eqb_eq in Hl. apply negb_true_iff, Z.eqb_neq in Hn.
  destruct (Z.lt_ge_cases n 0) as [Hneg|Hge]; [|lia].
  assert (Z.land n (n - 1) < 0) by (apply Z.land_neg; lia).
  lia.
Qed.

Lemma is_power_of_2_pow (k : Z) : 0 <= k -> is_power_of_2 (2 ^ k) = true.
Proof.
  intros Hk. unfold is_power_of_2.
  assert (0 < 2 ^ k) by (apply Z.pow_pos_nonneg; lia).
  apply andb_true_iff; split.
  - apply Z.eqb_eq.
    replace (2 ^ k - 1) with (Z.ones k) by (rewrite Z.ones_equiv; lia).
    rewrite Z.land_ones by lia. apply Z.mod_same. lia.
  - apply negb_true_iff, Z.eqb_neq. lia.
Qed.

Lemma is_power_of_2_log2 (n : Z) : is_power_of_2 n = true -> n = 2 ^ Z.log2 n.
Proof.
  intros H. pose proof (is_power_of_2_pos n H) as Hpos.
  unfold is_power_of_2 in H. apply andb_true_iff in H as [Hl _].
  apply Z.eqb_eq in Hl.
  destruct (Z.log2_spec n Hpos) as [Hlo Hhi].
  destruct (Z.eq_dec n (2 ^ Z.log2 n)) as [|Hne]; [done|exfalso].
  assert (Hlog : Z.log2 (n - 1) = Z.log2 n).
  { apply Z.log2_unique; [apply Z.log2_nonneg|lia]. }
  assert (Hb1 : Z.testbit n (Z.log2 n) = true) by (apply Z.bit_log2; lia).
  assert (Hb2 : Z.testbit (n - 1) (Z.log2 n) = true).
  { rewrite <- Hlog. apply Z.bit_log2.
    pose proof (Z.pow_pos_nonneg 2 (Z.log2 n) ltac:(lia) (Z.log2_nonneg n)). lia. }
  assert (Hb : Z.testbit (Z.land n (n - 1)) (Z.log2 n) = true)
    by (rewrite Z.land_spec, Hb1, Hb2; done).
  rewrite Hl, Z.bits_0 in Hb. discriminate.
Qed.

(** X1. The bit test [n & (n - 1) == 0 and n != 0] accepts exactly the
    powers of two [2 ^ k] with [k >= 0]: zero and every negative number
    are refused. *)
Lemma is_power_of_2_spec (n : Z) :
  is_power_of_2 n = true <-> exists k, 0 <= k /\ n = 2 ^ k.
Proof.
  split.
  - intros H. exists (Z.log2 n). split; [apply Z.log2_nonneg|].
    by apply is_power_of_2_log2.
  - intros (k & Hk & ->). by apply is_power_of_2_pow.
Qed.

(** *** Rows of a reshape *)

Lemma length_chunks (k sz : nat) (l : list Z) : length (chunks k sz l) = k.
Proof. revert l. induction k as [|k IH]; intros l; simpl; [done|]. by rewrite IH. Qed.

Lemma lookup_chunks (k sz : nat) (l : list Z) (i : nat) :
  (i < k)%nat -> chunks k sz l !! i = Some (take sz (drop (i * sz) l)).
Proof.
  revert l i. induction k as [|k IH]; intros l i Hi; [lia|].
  destruct i as [|i]; simpl; [done|].
  rewrite IH by lia. by rewrite drop_drop.
Qed.

Lemma sum_Z_app (l1 l2 : list Z) : sum_Z (l1 ++ l2) = sum_Z l1 + sum_Z l2.
Proof. unfold sum_Z. induction l1 as [|x l1 IH]; simpl; lia. Qed.

Lemma sum_chunks (k sz : nat) (l : list Z) :
  length l = (k * sz)%nat -> sum_Z (sum_Z <$> chunks k sz l) = sum_Z l.
Proof.
  revert l. induction k as [|k IH]; intros l Hl; simpl.
  - destruct l; [done|simpl in Hl; lia].
  - rewrite IH by (rewrite length_drop; lia).
    rewrite <- sum_Z_app. by rewrite take_drop.
Qed.

(** *** Sums in 64 bits *)

Lemma wrap64_exact (z : Z) : - 2 ^ 63 <= z < 2 ^ 63 -> wrap64 z = z.
Proof. unfold wrap64. intros H. rewrite Z.mod_small by lia. lia. Qed.

Lemma wrap64_range (z : Z) : - 2 ^ 63 <= wrap64 z < 2 ^ 63.
Proof.
  unfold wrap64. pose proof (Z.mod_pos_bound (z + 2 ^ 63) (2 ^ 64)). lia.
Qed.

Lemma wrap64_mod (z : Z) : wrap64 z mod 2 ^ 64 = z mod 2 ^ 64.
Proof.
  unfold wrap64. rewrite Zminus_mod_idemp_l. f_equal. lia.
Qed.

Lemma wrap64_congr (a b : Z) : a mod 2 ^ 64 = b mod 2 ^ 64 -> wrap64 a = wrap64 b.
Proof.
  intros H. unfold wrap64. f_equal.
  rewrite (Zplus_mod a), (Zplus_mod b), H. done.
Qed.

Lemma sum_wrapped (rows : list (list Z)) :
  sum_Z (np_sum <$> rows) mod 2 ^ 64 = sum_Z (sum_Z <$> rows) mod 2 ^ 64.
Proof.
  induction rows as [|r rows IH]; [done|].
  cbn [fmap list_fmap]. unfold sum_Z at 1 3. cbn [foldr]. fold (sum_Z (np_sum <$> rows)).
  fold (sum_Z (sum_Z <$> rows)).
  rewrite Zplus_mod, IH. unfold np_sum. rewrite wrap64_mod, <- Zplus_mod. done.
Qed.

Lemma sum_Z_nonneg (l : list Z) : Forall (fun x => 0 <= x) l -> 0 <= sum_Z l.
Proof. unfold sum_Z. induction 1; simpl; lia. Qed.

Lemma sum_Z_take_drop (l : list Z) (k : nat) :
  Forall (fun x => 0 <= x) l ->
  0 <= sum_Z (take k l) <= sum_Z l /\ 0 <= sum_Z (drop k l) <= sum_Z l.
Proof.
  intros H.
  pose proof (sum_Z_nonneg _ (Forall_take _ k _ H)).
  pose proof (sum_Z_nonneg _ (Forall_drop _ k _ H)).
  assert (sum_Z l = sum_Z (take k l) + sum_Z (drop k l))
    by (rewrite <- sum_Z_app; by rewrite take_drop).
  lia.
Qed.

(** The rows of counts that are not negative and whose total fits in 64
    bits are summed without any loss. *)
Lemma np_sum_chunks_exact (k sz : nat) (l : list Z) :
  Forall (fun x => 0 <= x) l -> sum_Z l < 2 ^ 63 ->
  np_sum <$> chunks k sz l = sum_Z <$> chunks k sz l.
Proof.
  revert l. induction k as [|k IH]; intros l Hl Hs; [done|].
  cbn [chunks fmap list_fmap].
  destruct (sum_Z_take_drop l sz Hl) as [H1 H2]. f_equal.
  - unfold np_sum. apply wrap64_exact. lia.
  - apply IH; [by apply Forall_drop|lia].
Qed.

(** *** Slices *)

Lemma py_slice_in_range (l : list Z) (a b : Z) :
  0 <= a <= b -> b < len l -> truncated_to (py_slice l a (b + 1)) l a b.
Proof.
  unfold truncated_to, py_slice, slice_index, len. intros Hab Hb.
  destruct (Z.ltb_spec a 0); [lia|]. destruct (Z.ltb_spec (b + 1) 0); [lia|].
  rewrite !Z.min_l by lia.
  replace (b + 1 - a) with (b - a + 1) by lia.
  rewrite length_take, length_drop. split; [lia|].
  intros i Hi. rewrite lookup_take_lt by lia. by rewrite lookup_drop.
Qed.

(** *** First and last non-zero bin *)

Lemma first_nonzero_Some (l : list Z) (i : nat) :
  first_nonzero l = Some i ->
  (exists x, l !! i = Some x /\ x <> 0) /\ forall j, (j < i)%nat -> l !! j = Some 0.
Proof.
  revert i. induction l as [|x l IH]; intros i; simpl; [done|].
  destruct (Z.eqb_spec x 0) as [->|Hx].
  - destruct (first_nonzero l) as [i'|]; simpl; [|done].
    intros [= <-]. destruct (IH i' eq_refl) as [Hex Hlt]. split; [done|].
    intros [|j] Hj; simpl; [done|]. apply Hlt. lia.
  - intros [= <-]. split; [by exists x|]. intros j Hj. lia.
Qed.

Lemma first_nonzero_None (l : list Z) :
  first_nonzero l = None -> forall x, x ∈ l -> x = 0.
Proof.
  induction l as [|y l IH]; simpl; intros H x Hx; [by apply elem_of_nil in Hx|].
  destruct (Z.eqb_spec y 0) as [->|Hy]; [|done].
  destruct (first_nonzero l); [done|].
  apply elem_of_cons in Hx as [->|Hx]; [done|]. by apply IH.
Qed.

Lemma first_nonzero_lt (l : list Z) (i : nat) :
  first_nonzero l = Some i -> (i < length l)%nat.
Proof.
  intros H. destruct (first_nonzero_Some l i H) as [(x & Hx & _) _].
  by apply lookup_lt_Some in Hx.
Qed.

Lemma first_nonzero_is_Some (l : list Z) :
  (exists x, x ∈ l /\ x <> 0) -> is_Some (first_nonzero l).
Proof.
  intros (x & Hx & Hne). destruct (first_nonzero l) eqn:E; [done|].
  exfalso. apply Hne. by eapply first_nonzero_None.
Qed.

Lemma argmin_nonzero_spec (l : list Z) :
  (exists x, x ∈ l /\ x <> 0) -> first_nonzero_at l (argmin_nonzero l).
Proof.
  intros H. destruct (first_nonzero_is_Some l H) as [i Hi].
  unfold first_nonzero_at, argmin_nonzero. rewrite Hi. simpl.
  rewrite Nat2Z.id. destruct (first_nonzero_Some l i Hi). split; [lia|done].
Qed.

Lemma argmax_nonzero_spec (l : list Z) :
  (exists x, x ∈ l /\ x <> 0) -> last_nonzero_at l (argmax_nonzero l).
Proof.
  intros (x & Hx & Hne).
  assert (Hr : exists x, x ∈ reverse l /\ x <> 0).
  { exists x. split; [|done]. by apply elem_of_reverse. }
  destruct (first_nonzero_is_Some _ Hr) as [i Hi].
  pose proof (first_nonzero_lt _ _ Hi) as Hlt. rewrite length_reverse in Hlt.
  destruct (first_nonzero_Some _ _ Hi) as [(y & Hy & Hyne) Hz].
  unfold last_nonzero_at, argmax_nonzero, len. rewrite Hi. simpl.
  replace (Z.to_nat (Z.of_nat (length l) - 1 - Z.of_nat i))
    with (length l - S i)%nat by lia.
  split; [lia|]. split.
  - exists y. split; [|done].
    rewrite reverse_lookup in Hy by lia. done.
  - intros j Hj.
    specialize (Hz (length l - S j)%nat ltac:(lia)).
    rewrite reverse_lookup in Hz by lia.
    replace (length l - S (length l - S j))%nat with j in Hz by lia. done.
Qed.

Lemma argmin_argmax_in_range (l : list Z) :
  l <> [] -> 0 <= argmin_nonzero l <= argmax_nonzero l /\ argmax_nonzero l < len l.
Proof.
  intros Hl. assert (0 < length l)%nat by (destruct l; [done|simpl; lia]).
  unfold argmin_nonzero, argmax_nonzero, len.
  destruct (first_nonzero l) as [i|] eqn:Ei; simpl.
  - destruct (first_nonzero_Some _ _ Ei) as [(x & Hx & Hne) _].
    assert (Hr : exists x, x ∈ reverse l /\ x <> 0).
    { exists x. split; [|done].
      apply elem_of_reverse. by eapply list_elem_of_lookup_2. }
    destruct (first_nonzero_is_Some _ Hr) as [k Hk]. rewrite Hk. simpl.
    pose proof (first_nonzero_lt _ _ Hk) as Hlt. rewrite length_reverse in Hlt.
    destruct (first_nonzero_Some _ _ Hk) as [(y & Hy & Hyne) _].
    rewrite reverse_lookup in Hy by lia.
    destruct (first_nonzero_Some _ _ Ei) as [_ Hz].
    destruct (decide (length l - S k < i)%nat) as [Hlt'|]; [|lia].
    specialize (Hz _ Hlt'). rewrite Hy in Hz. congruence.
  - destruct (first_nonzero (reverse l)) as [k|] eqn:Ek; simpl; [|lia].
    destruct (first_nonzero_Some _ _ Ek) as [(y & Hy & Hyne) _].
    exfalso. apply Hyne. eapply first_nonzero_None; [exact Ei|].
    apply list_elem_of_lookup_2 in Hy.
    apply elem_of_reverse. exact Hy.
Qed.

Lemma binning_even (hist : list Z) (n : Z) :
  0 < n -> len hist mod n = 0 ->
  _histogram_binning hist n =
    Ok (np_sum <$> chunks (Z.to_nat n) (Z.to_nat (len hist / n)) hist).
Proof.
  intros Hn Hmod. unfold _histogram_binning, py_mod, reshape_rows.
  destruct (Z.eqb_spec n 0); [lia|]. rewrite Hmod. simpl.
  destruct (Z.ltb_spec n 0); [lia|]. done.
Qed.

(** C2. A bin count below the raw length that does not divide it is
    rejected with the "cannot make bins" bad request, whatever the bounds
    and the [full_range] flag; a histogram comes back only when the bin
    count divides the raw length. *)
Theorem uneven_bin_count_rejected
    (hist : list Z) (bounds : Z * Z) (n : Z) (full_range : bool) :
  n < len hist ->
  (forall r, py_mod (len hist) n = Ok r -> r <> 0 ->
     _histogram_binning hist n =
       Raise (BadRequestException (CannotMakeBins n (len hist))) /\
     histogram_formatter hist bounds n full_range =
       Raise (BadRequestException (CannotMakeBins n (len hist)))) /\
  (forall out, histogram_formatter hist bounds n full_range = Ok out ->
     py_mod (len hist) n = Ok 0).
Proof.
  intros Hlt. split.
  - intros r Hr Hne.
    assert (Hb : _histogram_binning hist n =
                 Raise (BadRequestException (CannotMakeBins n (len hist)))).
    { unfold _histogram_binning. rewrite Hr.
      destruct (Z.eqb_spec r 0); [done|]. done. }
    split; [done|]. unfold histogram_formatter.
    destruct (Z.eqb_spec n (len hist)); [lia|]. by rewrite Hb.
  - intros out. unfold histogram_formatter.
    destruct (Z.eqb_spec n (len hist)); [lia|].
    unfold _histogram_binning.
    destruct (py_mod (len hist) n) as [r|e] eqn:Hr; [|done].
    destruct (Z.eqb_spec r 0) as [->|]; [done|]. done.
Qed.

Lemma uneven_bin_count_rejected_witness :
  histogram_formatter [1; 2; 3; 4; 5; 6] (0, 5) 4 false =
    Raise (BadRequestException (CannotMakeBins 4 6)).
Proof.
  refine (proj2 (proj1
    (uneven_bin_count_rejected [1; 2; 3; 4; 5; 6] (0, 5) 4 false _) 2 _ _)).
  - reflexivity.
  - reflexivity.
  - discriminate.
Defined.

(** C3, as the code has it.  With a power-of-two bin count [n] not above
    the raw length: when [n] is below the length and divides it, the
    formatter sums [len / n] consecutive raw bins into each of [n] bins, in
    64-bit signed arithmetic, and reports the first and last non-zero bin of
    the downsampled histogram; the sums are the exact ones, and the total is
    kept, when no raw count is negative and the raw total is below
    [2 ^ 63], and in any case the total is kept modulo [2 ^ 64].  When [n]
    is the length the stored bounds come back as they are.  In both cases
    [full_range = true] returns the whole array and [full_range = false] the
    bins from [first_bin] to [last_bin] included (for the stored bounds:
    when they are bin indices in order). *)
Theorem histogram_formatter_correct
    (hist : list Z) (bounds : Z * Z) (n : Z) (full_range : bool) :
  is_power_of_2 n = true -> n <= len hist ->
  (n < len hist -> len hist mod n = 0 ->
     exists binned out,
       let row (k : nat) :=
         take (Z.to_nat (len hist / n)) (drop (k * Z.to_nat (len hist / n)) hist) in
       _histogram_binning hist n = Ok binned /\
       histogram_formatter hist bounds n full_range = Ok out /\
       len binned = n /\
       (forall k : nat, (k < Z.to_nat n)%nat ->
          binned !! k = Some (wrap64 (sum_Z (row k)))) /\
       wrap64 (sum_Z binned) = wrap64 (sum_Z hist) /\
       (Forall (fun x => 0 <= x) hist -> sum_Z hist < 2 ^ 63 ->
          (forall k : nat, (k < Z.to_nat n)%nat ->
             binned !! k = Some (sum_Z (row k))) /\
          sum_Z binned = sum_Z hist) /\
       first_bin out = argmin_nonzero binned /\
       last_bin out = argmax_nonzero binned /\
       ((exists x, x ∈ binned /\ x <> 0) ->
          first_nonzero_at binned (first_bin out) /\
          last_nonzero_at binned (last_bin out)) /\
       n_bins out = n /\
       (full_range = true -> histogram out = binned) /\
       (full_range = false ->
          truncated_to (histogram out) binned (first_bin out) (last_bin out))) /\
  (n = len hist ->
     exists out,
       histogram_formatter hist bounds n full_range = Ok out /\
       first_bin out = bounds.1 /\ last_bin out = bounds.2 /\
       n_bins out = n /\
       (full_range = true -> histogram out = hist) /\
       (full_range = false -> 0 <= bounds.1 <= bounds.2 ->
          bounds.2 < len hist ->
          truncated_to (histogram out) hist bounds.1 bounds.2)).
Proof.
  intros Hpow Hle. pose proof (is_power_of_2_pos n Hpow) as Hpos. split.
  - intros Hlt Hmod.
    set (q := Z.to_nat (len hist / n)).
    set (binned := np_sum <$> chunks (Z.to_nat n) q hist).
    assert (Hlen : length binned = Z.to_nat n)
      by (unfold binned; by rewrite length_fmap, length_chunks).
    assert (Hne : binned <> []).
    { intros E. rewrite E in Hlen. simpl in Hlen. lia. }
    assert (Hsize : length hist = (Z.to_nat n * q)%nat).
    { assert (len hist = n * (len hist / n)) by (apply Z.div_exact; lia).
      assert (0 <= len hist / n) by (apply Z.div_pos; unfold len; lia).
      unfold q, len in *. nia. }
    pose proof (argmin_argmax_in_range binned Hne) as [Hr1 Hr2].
    destruct bounds as [mini maxi].
    set (h := if negb full_range
              then py_slice binned (argmin_nonzero binned) (argmax_nonzero binned + 1)
              else binned).
    exists binned,
      {| histogram := h; first_bin := argmin_nonzero binned;
         last_bin := argmax_nonzero binned; minimum := mini; maximum := maxi;
         n_bins := n |}.
    cbn zeta. fold q.
    assert (Hbin : _histogram_binning hist n = Ok binned)
      by (by apply binning_even).
    split; [done|]. split.
    { unfold histogram_formatter. destruct (Z.eqb_spec n (len hist)); [lia|].
      by rewrite Hbin. }
    split; [unfold len; lia|]. split.
    { intros k Hk. unfold binned. rewrite list_lookup_fmap.
      by rewrite lookup_chunks. }
    split.
    { apply wrap64_congr. unfold binned. rewrite sum_wrapped.
      by rewrite sum_chunks. }
    split.
    { intros Hnn Htot.
      assert (E : binned = sum_Z <$> chunks (Z.to_nat n) q hist)
        by (by apply np_sum_chunks_exact).
      split.
      - intros k Hk. rewrite E, list_lookup_fmap. by rewrite lookup_chunks.
      - rewrite E. by apply sum_chunks. }
    simpl. split; [done|]. split; [done|]. split.
    { intros Hex. split; [by apply argmin_nonzero_spec|by apply argmax_nonzero_spec]. }
    split; [done|]. unfold h. split; intros ->; simpl; [done|].
    by apply py_slice_in_range.
  - intros ->.
    destruct bounds as [mini maxi]. simpl.
    set (h := if negb full_range then py_slice hist mini (maxi + 1) else hist).
    exists {| histogram := h; first_bin := mini; last_bin := maxi;
              minimum := mini; maximum := maxi; n_bins := len hist |}.
    split.
    { unfold histogram_formatter. by rewrite Z.eqb_refl. }
    simpl. split; [done|]. split; [done|]. split; [done|].
    unfold h. split; intros ->; simpl; [done|].
    intros. by apply py_slice_in_range.
Qed.

Lemma histogram_formatter_correct_witness :
  exists out,
    histogram_formatter [0; 0; 3; 1; 0; 2; 0; 0] (2, 5) 4 false = Ok out /\
    histogram out = [4; 2] /\ first_bin out = 1 /\ last_bin out = 2.
Proof.
  destruct (proj1 (histogram_formatter_correct
                     [0; 0; 3; 1; 0; 2; 0; 0] (2, 5) 4 false
                     eq_refl ltac:(discriminate)) eq_refl eq_refl)
    as (binned & out & _ & Hout & _).
  exists out. split; [exact Hout|].
  vm_compute in Hout. injection Hout as <-. repeat split.
Defined.

(** The claim as worded fails on counts whose sum does not fit in 64 bits:
    the two first raw bins hold [2 ^ 62] each, their bin comes back as
    [- 2 ^ 63] and the total is not the original one. *)
Lemma wrapping_sum_counterexample :
  let hist := [2 ^ 62; 2 ^ 62; 1; 0] in
  is_power_of_2 2 = true /\ 2 < len hist /\ len hist mod 2 = 0 /\
  exists out,
    histogram_formatter hist (0, 2) 2 true = Ok out /\
    histogram out = [- 2 ^ 63; 1] /\
    histogram out !! 0%nat <> Some (sum_Z (take 2 hist)) /\
    sum_Z (histogram out) <> sum_Z hist.
Proof.
  cbn zeta. split; [reflexivity|]. split; [reflexivity|]. split; [reflexivity|].
  eexists. split; [vm_compute; reflexivity|]. cbn [histogram].
  split; [reflexivity|]. split; vm_compute; discriminate.
Qed.

Lemma len_value_range_small (im : SpatialImage) :
  (significant_bits im <= 62)%N ->
  len_value_range im = Ok (2 ^ Z.of_N (significant_bits im)).
Proof.
  intros Hb. unfold len_value_range, max_value, maxsize.
  assert (0 < 2 ^ Z.of_N (significant_bits im))
    by (apply Z.pow_pos_nonneg; lia).
  assert (2 ^ Z.of_N (significant_bits im) <= 2 ^ 62)
    by (apply Z.pow_le_mono_r; lia).
  replace (Z.max 0 (2 ^ Z.of_N (significant_bits im) - 1 + 1 - 0))
    with (2 ^ Z.of_N (significant_bits im)) by lia.
  destruct (Z.ltb_spec (2 ^ 63 - 1) (2 ^ Z.of_N (significant_bits im))); [lia|done].
Qed.

Lemma len_value_range_wide (im : SpatialImage) :
  (63 <= significant_bits im)%N -> len_value_range im = Raise OverflowError.
Proof.
  intros Hb. unfold len_value_range, max_value, maxsize.
  assert (2 ^ 63 <= 2 ^ Z.of_N (significant_bits im))
    by (apply Z.pow_le_mono_r; lia).
  replace (Z.max 0 (2 ^ Z.of_N (significant_bits im) - 1 + 1 - 0))
    with (2 ^ Z.of_N (significant_bits im)) by lia.
  destruct (Z.ltb_spec (2 ^ 63 - 1) (2 ^ Z.of_N (significant_bits im))); [done|lia].
Qed.




End HistogramFacts.

(** ** Facts about the normalized pyramid *)

Module PyramidFacts.
Import Pyramid.
Local Open Scope N_scope.

Section Halving.
Variables (bw m t : N).

Lemma halving_mono (n n' : nat) (w h : N) (p : list PyramidTier) :
  halving n bw w h m t = Some p -> (n <= n')%nat ->
  halving n' bw w h m t = Some p.
Proof.
  revert n' w h p. induction n as [|n IH]; intros n' w h p; simpl; [done|].
  intros H Hle. destruct n' as [|n']; [lia|]. simpl.
  destruct ((w <? m) && (h <? m)); [done|].
  destruct (halving n bw (w / 2) (h / 2) m t) as [q|] eqn:E; [|done].
  rewrite (IH n' _ _ q E) by lia. done.
Qed.

Lemma halving_total (n : nat) (w h : N) :
  0 < m -> (N.to_nat (N.max w h) < n)%nat ->
  is_Some (halving n bw w h m t).
Proof.
  intros Hm. revert w h. induction n as [|n IH]; intros w h Hn; [lia|].
  simpl. destruct ((w <? m) && (h <? m)) eqn:E; [done|].
  assert (Hpos : 0 < N.max w h).
  { apply andb_false_iff in E as [E|E]; apply N.ltb_ge in E; lia. }
  destruct (IH (w / 2) (h / 2)) as [q Hq]; [|rewrite Hq; done].
  assert (w / 2 <= w) by (apply N.Div0.div_le_upper_bound; lia).
  assert (h / 2 <= h) by (apply N.Div0.div_le_upper_bound; lia).
  assert (N.max (w / 2) (h / 2) < N.max w h); [|lia].
  destruct (N.max_spec w h) as [[? ->]|[? ->]];
    apply N.max_lub_lt; try (apply N.div_lt; lia).
  - destruct (N.eq_dec w 0) as [->|]; [simpl; lia|].
    assert (w / 2 < w) by (apply N.div_lt; lia). lia.
  - destruct (N.eq_dec h 0) as [->|]; [simpl; lia|].
    assert (h / 2 < h) by (apply N.div_lt; lia). lia.
Qed.

Lemma halving_head (n : nat) (w h : N) (p : list PyramidTier) :
  halving n bw w h m t = Some p -> p !! 0%nat = Some (make_tier bw w h t).
Proof.
  destruct n as [|n]; simpl; [done|].
  destruct ((w <? m) && (h <? m)); [by intros [= <-]|].
  destruct (halving n bw (w / 2) (h / 2) m t); [|done]. by intros [= <-].
Qed.

Lemma halving_step (n : nat) (w h : N) (p : list PyramidTier)
    (i : nat) (a b : PyramidTier) :
  halving n bw w h m t = Some p ->
  p !! i = Some a -> p !! S i = Some b ->
  width b = width a / 2 /\ height b = height a / 2 /\ ~ both_below m a.
Proof.
  revert w h p i. induction n as [|n IH]; intros w h p i; simpl; [done|].
  destruct ((w <? m) && (h <? m)) eqn:E.
  { intros [= <-]. by destruct i. }
  destruct (halving n bw (w / 2) (h / 2) m t) as [q|] eqn:Hq; [|done].
  intros [= <-]. destruct i as [|i]; simpl.
  - intros [= <-] Hb. rewrite (halving_head _ _ _ _ Hq) in Hb.
    injection Hb as <-. simpl. split; [done|]. split; [done|].
    unfold both_below. simpl. intros [H1 H2].
    apply N.ltb_lt in H1, H2. rewrite H1, H2 in E. done.
  - intros Ha Hb. eapply IH; [exact Hq|exact Ha|exact Hb].
Qed.

Lemma halving_last (n : nat) (w h : N) (p : list PyramidTier) :
  halving n bw w h m t = Some p ->
  exists l, last p = Some l /\ both_below m l.
Proof.
  revert w h p. induction n as [|n IH]; intros w h p; simpl; [done|].
  destruct ((w <? m) && (h <? m)) eqn:E.
  - intros [= <-]. eexists. split; [done|].
    apply andb_true_iff in E as [H1 H2]. apply N.ltb_lt in H1, H2.
    by split.
  - destruct (halving n bw (w / 2) (h / 2) m t) as [q|] eqn:Hq; [|done].
    intros [= <-]. destruct (IH _ _ _ Hq) as (l & Hl & Hb).
    exists l. split; [|done]. destruct q; [done|]. done.
Qed.

Lemma halving_tiles (n : nat) (w h : N) (p : list PyramidTier) :
  halving n bw w h m t = Some p ->
  Forall (fun a => tile_width a = t /\ tile_height a = t) p.
Proof.
  revert w h p. induction n as [|n IH]; intros w h p; simpl; [done|].
  destruct ((w <? m) && (h <? m)).
  - intros [= <-]. by repeat constructor.
  - destruct (halving n bw (w / 2) (h / 2) m t) as [q|] eqn:Hq; [|done].
    intros [= <-]. constructor; [done|]. by eapply IH.
Qed.

Lemma halving_single (n : nat) (w h : N) (p : list PyramidTier) :
  halving n bw w h m t = Some p ->
  (length p = 1%nat <-> w < m /\ h < m).
Proof.
  destruct n as [|n]; simpl; [done|].
  destruct ((w <? m) && (h <? m)) eqn:E.
  - intros [= <-]. apply andb_true_iff in E as [H1 H2].
    apply N.ltb_lt in H1, H2. done.
  - destruct (halving n bw (w / 2) (h / 2) m t) as [q|] eqn:Hq; [|done].
    intros [= <-]. simpl. split.
    + intros Hl. destruct q; [|simpl in Hl; lia].
      destruct n as [|n]; simpl in Hq; [done|].
      destruct ((w / 2 <? m) && (h / 2 <? m)); [done|].
      by destruct (halving n bw (w / 2 / 2) (h / 2 / 2) m t).
    + intros [H1 H2]. apply N.ltb_lt in H1, H2. rewrite H1, H2 in E. done.
Qed.
End Halving.

(** With a minimum of zero no side is ever below it: the loop does not
    stop. *)
Lemma synthesize_normalized_zero_min (fuel : nat) (w h t : N) :
  synthesize_normalized fuel w h 0 t = None.
Proof.
  unfold synthesize_normalized.
  destruct (w <? 0) eqn:E1; [apply N.ltb_lt in E1; lia|].
  destruct (h <? 0) eqn:E2; [apply N.ltb_lt in E2; lia|]. cbn [orb].
  clear E1 E2. generalize w at 1. revert w h.
  induction fuel as [|n IH]; intros w h bw; simpl; [done|].
  destruct (w <? 0) eqn:E; [apply N.ltb_lt in E; lia|]. simpl.
  by rewrite IH.
Qed.

Lemma edge_case (w h m : N) :
  (w <? m) || (h <? m) = true <-> w < m \/ h < m.
Proof. rewrite orb_true_iff, !N.ltb_lt. done. Qed.

(** C9.  The synthesis is a function of its four arguments: whatever the
    fuel, two runs that stop give the same tiers, and with a minimum of at
    least one every run with enough fuel stops.  The first tier is the base;
    each next one halves (floor) both sides of the one before it, which was
    not yet below the minimum on both sides; on a base with both sides at
    the minimum or above the last tier is the first one below the minimum
    on both sides; every tier has the tile size asked for; and there is
    exactly one tier exactly when a side of the base is already below the
    minimum. *)
Theorem synthesize_normalized_tiers (w h m t : N) :
  (forall fuel fuel' p q,
     synthesize_normalized fuel w h m t = Some p ->
     synthesize_normalized fuel' w h m t = Some q -> p = q) /\
  (0 < m -> forall fuel, (N.to_nat (N.max w h) < fuel)%nat ->
     is_Some (synthesize_normalized fuel w h m t)) /\
  (forall fuel p, synthesize_normalized fuel w h m t = Some p ->
     p !! 0%nat = Some (make_tier w w h t) /\
     (forall (i : nat) a b, p !! i = Some a -> p !! S i = Some b ->
        width b = width a / 2 /\ height b = height a / 2 /\ ~ both_below m a) /\
     (m <= w -> m <= h -> exists l, last p = Some l /\ both_below m l) /\
     Forall (fun a => tile_width a = t /\ tile_height a = t) p /\
     (length p = 1%nat <-> w < m \/ h < m)) /\
  (w < m \/ h < m ->
     forall fuel, synthesize_normalized fuel w h m t = Some [make_tier w w h t]).
Proof.
  unfold synthesize_normalized.
  destruct ((w <? m) || (h <? m)) eqn:E.
  - apply edge_case in E as Hedge. split; [congruence|].
    split; [by eauto|]. split; [|done].
    intros fuel p [= <-]. split; [done|]. split; [by intros [|i]|].
    split; [lia|]. split; [by repeat constructor|done].
  - assert (Hboth : m <= w /\ m <= h).
    { apply orb_false_iff in E as [E1 E2]. apply N.ltb_ge in E1, E2. done. }
    split.
    { intros fuel fuel' p q Hp Hq.
      pose proof (halving_mono _ _ _ _ (fuel + fuel') _ _ _ Hp ltac:(lia)) as H1.
      pose proof (halving_mono _ _ _ _ (fuel + fuel') _ _ _ Hq ltac:(lia)) as H2.
      congruence. }
    split; [intros Hm fuel Hf; by apply halving_total|].
    split; [|lia].
    intros fuel p Hp.
    split; [by eapply halving_head|].
    split; [intros i a b; by eapply halving_step|].
    split; [intros _ _; by eapply halving_last|].
    split; [by eapply halving_tiles|].
    rewrite (halving_single _ _ _ _ _ _ _ Hp). lia.
Qed.

Lemma synthesize_normalized_tiers_witness :
  exists p, synthesize_normalized 1001 1000 600 256 256 = Some p /\
            p !! 0%nat = Some (make_tier 1000 1000 600 256) /\
            (length p = 1%nat <-> 1000 < 256 \/ 600 < 256) /\
            synthesize_normalized 0 100 1000 256 256 =
              Some [make_tier 100 100 1000 256].
Proof.
  destruct (synthesize_normalized_tiers 1000 600 256 256)
    as (_ & Hstop & Hshape & _).
  destruct (Hstop eq_refl 1001%nat ltac:(vm_compute; lia)) as [p Hp].
  destruct (Hshape _ _ Hp) as (H0 & _ & _ & _ & H1).
  exists p. split; [exact Hp|]. split; [exact H0|]. split; [exact H1|].
  apply (proj2 (proj2 (proj2 (synthesize_normalized_tiers 100 1000 256 256)))).
  left. reflexivity.
Defined.

End PyramidFacts.

(** ** Facts about the import pipeline *)

Module ImporterFacts.
Import Importer.

(** *** Reasoning about computations *)

Lemma bind_ok {A B} (c : M A) (k : A -> M B) (w w' : World) (b : B) :
  (c ≫= k) w = (Ok b, w') ->
  exists a w1, c w = (Ok a, w1) /\ k a w1 = (Ok b, w').
Proof.
  unfold mbind, M_bind. destruct (c w) as [[a|e] w1]; [|done].
  intros H. by exists a, w1.
Qed.

Lemma bind_raise {A B} (c : M A) (k : A -> M B) (w w' : World) (e : Exception) :
  c w = (Raise e, w') -> (c ≫= k) w = (Raise e, w').
Proof. unfold mbind, M_bind. by intros ->. Qed.

Lemma bind_step {A B} (c : M A) (k : A -> M B) (w w1 : World) (a : A) :
  c w = (Ok a, w1) -> (c ≫= k) w = k a w1.
Proof. unfold mbind, M_bind. by intros ->. Qed.

Lemma lift_inv {A} (f : Pipeline -> Res A * Pipeline) (w w' : World) (r : Res A) :
  lift f w = (r, w') -> exists p, f w.1 = (r, p) /\ w' = (p, w.2).
Proof.
  unfold lift. destruct (f w.1) as [r' p]. intros [= <- <-]. by exists p.
Qed.

Lemma attr_inv {A} (field : FileImporter -> A) (w w' : World) (r : Res A) :
  attr field w = (r, w') -> r = Ok (field (self w.1)) /\ w' = w.
Proof.
  unfold attr. intros H. apply lift_inv in H as (p & [= <- <-] & ->). by destruct w.
Qed.

Lemma files_inv (w w' : World) (r : Res FS) :
  files w = (r, w') -> r = Ok (fs w.1) /\ w' = w.
Proof.
  unfold files. intros H. apply lift_inv in H as (p & [= <- <-] & ->). by destruct w.
Qed.

Lemma assign_inv (set : FileImporter -> FileImporter) (w w' : World) (r : Res unit) :
  assign set w = (r, w') ->
  r = Ok tt /\
  w' = ({| self := set (self w.1); fs := fs w.1; emitted := emitted w.1 |}, w.2).
Proof.
  unfold assign. intros H. apply lift_inv in H as (p & H & ->).
  simpl in H. by injection H as <- <-.
Qed.

Lemma syscall_ok (op : FS -> Res FS) (w w' : World) (u : unit) :
  syscall op w = (Ok u, w') ->
  exists fs', op (fs w.1) = Ok fs' /\
    w' = ({| self := self w.1; fs := fs'; emitted := emitted w.1 |}, w.2).
Proof.
  unfold syscall. intros H. apply lift_inv in H as (p & H & ->).
  destruct (op (fs w.1)) as [fs'|e]; simplify_eq/=. by exists fs'.
Qed.

Lemma extern_inv {A} (op : FS -> Res A * FS) (w w' : World) (r : Res A) :
  extern op w = (r, w') ->
  exists fs', op (fs w.1) = (r, fs') /\
    w' = ({| self := self w.1; fs := fs'; emitted := emitted w.1 |}, w.2).
Proof.
  unfold extern. intros H. apply lift_inv in H as (p & H & ->).
  destruct (op (fs w.1)) as [r' fs']. simplify_eq/=. by exists fs'.
Qed.

Lemma of_res_inv {A} (x : Res A) (w w' : World) (r : Res A) :
  of_res x w = (r, w') -> r = x /\ w' = w.
Proof. by intros [= <- <-]. Qed.

Lemma ret_inv {A} (x : A) (w w' : World) (r : Res A) :
  mret (M := M) x w = (r, w') -> r = Ok x /\ w' = w.
Proof. by intros [= <- <-]. Qed.

Lemma raise_inv {A} (e : Exception) (w w' : World) (r : Res A) :
  raise e w = (r, w') -> r = Raise e /\ w' = w.
Proof. by intros [= <- <-]. Qed.

Lemma attr_ok {A} (field : FileImporter -> A) (w w' : World) (a : A) :
  attr field w = (Ok a, w') -> a = field (self w.1) /\ w' = w.
Proof. intros H. apply attr_inv in H as [E ->]. split; [congruence|done]. Qed.

Lemma files_ok (w w' : World) (a : FS) :
  files w = (Ok a, w') -> a = fs w.1 /\ w' = w.
Proof. intros H. apply files_inv in H as [E ->]. split; [congruence|done]. Qed.

Lemma ret_ok {A} (x : A) (w w' : World) (a : A) :
  mret (M := M) x w = (Ok a, w') -> a = x /\ w' = w.
Proof. intros H. apply ret_inv in H as [E ->]. split; [congruence|done]. Qed.

Lemma assert_ok (cond : bool) (w w' : World) (u : unit) :
  assert cond w = (Ok u, w') -> cond = true /\ w' = w.
Proof. destruct cond; simpl; [by intros [= <-]|done]. Qed.

Lemma as_path_ok (o : option Path) (w w' : World) (p : Path) :
  as_path o w = (Ok p, w') -> o = Some p /\ w' = w.
Proof. destruct o; simpl; [by intros [= <- <-]|done]. Qed.

(** A handler that ends by raising never turns a failure into a result. *)
Lemma try_except_ok {A} (body : M A) (caught : Exception -> bool)
    (handler : Exception -> M A) (w w' : World) (a : A) :
  (forall e w1, exists e' w2, handler e w1 = (Raise e', w2)) ->
  try_except body caught handler w = (Ok a, w') -> body w = (Ok a, w').
Proof.
  intros Hh. unfold try_except. destruct (body w) as [[x|e] w1]; [done|].
  destruct (caught e); [|done]. destruct (Hh e w1) as (e' & w2 & ->). done.
Qed.

#[local] Arguments ImageCheck.check_integrity : simpl never.

Section Notify.
Context (env : Env) (loggers : list Listener).

(** Whatever the observers do, [notify] changes nothing of the pipeline
    but the record of emitted events. *)
Lemma notify_pipeline method args kwargs (w w' : World) (r : Res unit) :
  notify loggers method args kwargs w = (r, w') ->
  w'.1 = {| self := self w.1; fs := fs w.1;
            emitted := emitted w.1 ++ [evt method args kwargs] |}.
Proof.
  unfold notify.
  destruct (notify_loop 0 loggers (evt method args kwargs) w.2) as [r' log].
  by intros [= <- <-].
Qed.

Lemma notify_then_raise {A} method args kwargs (e : Exception) (w : World) :
  exists e' w', (notify loggers method args kwargs ;; raise (A := A) e) w
                = (Raise e', w').
Proof.
  unfold mbind, M_bind.
  destruct (notify loggers method args kwargs w) as [[[]|e1] w1]; simpl; eauto.
Qed.
End Notify.


Section Guards.
Context (loggers : list Listener).

Lemma attr_notify_then_raise {A B} (field : FileImporter -> B)
    method (args : B -> list Arg) (kwargs : B -> list (string * Arg))
    (e : Exception) (w : World) :
  exists e' w',
    (x ← attr field; notify loggers method (args x) (kwargs x) ;; raise (A := A) e) w
    = (Raise e', w').
Proof.
  unfold mbind at 1, M_bind at 1. destruct w as [p o]. simpl.
  apply notify_then_raise.
Qed.

Lemma mkdir_ok (d : Path) (w w' : World) (u : unit) :
  mkdir loggers d w = (Ok u, w') ->
  exists fs', os_mkdir d (fs w.1) = Ok fs' /\
    w' = ({| self := self w.1; fs := fs'; emitted := emitted w.1 |}, w.2).
Proof.
  unfold mkdir. intros H. apply try_except_ok in H.
  - by apply syscall_ok in H.
  - intros e w1. apply notify_then_raise.
Qed.

Lemma move_ok (origin dest : Path) (prefer_copy : bool) (w w' : World) (u : unit) :
  move loggers origin dest prefer_copy w = (Ok u, w') ->
  exists fs',
    (if prefer_copy then shutil_copy origin dest (fs w.1)
     else shutil_move origin dest (fs w.1)) = Ok fs' /\
    w' = ({| self := self w.1; fs := fs'; emitted := emitted w.1 |}, w.2).
Proof.
  unfold move. intros H. apply try_except_ok in H.
  - destruct prefer_copy; by apply syscall_ok in H.
  - intros e w1. apply notify_then_raise.
Qed.

Lemma mksymlink_ok (path : Path) (target : option Path) (w w' : World) (u : unit) :
  mksymlink loggers path target w = (Ok u, w') ->
  exists t fs', target = Some t /\ os_symlink path t (fs w.1) = Ok fs' /\
    w' = ({| self := self w.1; fs := fs'; emitted := emitted w.1 |}, w.2).
Proof.
  unfold mksymlink. intros H. apply try_except_ok in H.
  - destruct target as [t|]; [|done]. apply syscall_ok in H as (fs' & ? & ?).
    by exists t, fs'.
  - intros e w1. apply notify_then_raise.
Qed.
End Guards.

#[local] Instance Ok_inj {A} : Inj (=) (=) (@Ok A).
Proof. by intros x y [= ->]. Qed.

Lemma os_symlink_ok (path target : Path) (fs fs' : FS) :
  os_symlink path target fs = Ok fs' ->
  fs !! path = None /\ fs' = <[path := Symlink target]> fs.
Proof.
  unfold os_symlink.
  destruct (directory_error SYMLOOP_MAX fs (parent path)); [done|].
  destruct (node_at fs path) eqn:E; [done|].
  intros [= <-]. split; [|done]. by destruct path.
Qed.

Lemma reads_through_link (fs : FS) (sp op : Path) :
  fs !! sp = Some (Symlink op) ->
  forall c, reads fs sp c <-> reads fs op c.
Proof.
  intros Hl c. split.
  - intros H. inversion H; simplify_eq. done.
  - intros H. by eapply reads_link.
Qed.

(** Taking a successful run apart, one statement at a time. *)
Ltac unfold_self H :=
  unfold self_pending_file, self_pending_name, self_upload_dir,
    self_upload_path, self_original_path, self_spatial_path, self_spatial,
    self_histogram, self_processed_dir in H.

Ltac world_simpl :=
  cbn [fst snd self fs emitted
       set_upload_dir set_upload_path set_original_path set_original
       set_spatial_path set_spatial set_histogram_path set_histogram
       set_processed_dir set_extracted_dir
       pending_file pending_name upload_dir upload_path original_path original
       spatial_path spatial histogram_path histogram processed_dir
       extracted_dir] in *.

Ltac ok_run H :=
  unfold_self H;
  lazymatch type of H with
  | (_ ≫= _) ?w = (Ok _, _) =>
      let a := fresh "a" in let w1 := fresh "w" in let H1 := fresh "H" in
      apply bind_ok in H as (a & w1 & H1 & H);
      cbn beta iota in H; ok_run H1; world_simpl; ok_run H
  | (if ?c then _ else _) _ = (Ok _, _) =>
      let E := fresh "Hif" in destruct c eqn:E; ok_run H
  | (let '(_, _) := ?x in _) _ = (Ok _, _) =>
      destruct x; ok_run H
  | match ?x with Some _ => _ | None => _ end _ = (Ok _, _) =>
      let E := fresh "Hm" in destruct x eqn:E; ok_run H
  | match ?x with Collection _ => _ | Single _ => _ end _ = (Ok _, _) =>
      destruct x; ok_run H
  | raise _ _ = (Ok _, _) => discriminate H
  | try_except _ _ _ _ = (Ok _, _) =>
      apply try_except_ok in H;
      [ok_run H
      |intros ? ?;
       first [apply notify_then_raise
             |unfold self_spatial_path, self_upload_path;
              apply attr_notify_then_raise]]
  | notify _ _ _ _ ?w1 = (Ok _, ?w2) =>
      let E := fresh "E" in
      pose proof (notify_pipeline _ _ _ _ _ _ _ H) as E;
      let p := fresh "p" in let o := fresh "o" in
      destruct w2 as [p o]; cbn [fst snd self fs emitted] in E; subst p; clear H
  | attr _ _ = (Ok _, _) => apply attr_ok in H as [-> ->]
  | files _ = (Ok _, _) => apply files_ok in H as [-> ->]
  | assign _ _ = (Ok _, _) => apply assign_inv in H as [_ ->]
  | as_path _ _ = (Ok _, _) =>
      let E := fresh "E" in apply as_path_ok in H as [E ->];
      first [apply (inj Some) in E; subst | subst | idtac]
  | assert _ _ = (Ok _, _) =>
      let E := fresh "Hassert" in apply assert_ok in H as [E ->]
  | of_res _ _ = (Ok _, _) =>
      let E := fresh "E" in apply of_res_inv in H as [E ->]; symmetry in E
  | mret _ _ = (Ok ?a, _) =>
      let E := fresh "E" in apply ret_ok in H as [E ->]; try subst a
  | mkdir _ _ _ = (Ok _, _) =>
      let fs' := fresh "fs'" in let E := fresh "Hmkdir" in
      apply mkdir_ok in H as (fs' & E & ->)
  | move _ _ _ _ _ = (Ok _, _) =>
      let fs' := fresh "fs'" in let E := fresh "Hmove" in
      apply move_ok in H as (fs' & E & ->)
  | mksymlink _ _ _ _ = (Ok _, _) =>
      let fs' := fresh "fs'" in let E := fresh "Hlink" in
      let t := fresh "t" in let Et := fresh "Et" in
      apply mksymlink_ok in H as (t & fs' & Et & E & ->)
  | extern _ _ = (Ok _, _) =>
      let fs' := fresh "fs'" in let E := fresh "Hext" in
      apply extern_inv in H as (fs' & E & ->)
  | syscall _ _ = (Ok _, _) =>
      let fs' := fresh "fs'" in let E := fresh "Hsys" in
      apply syscall_ok in H as (fs' & E & ->)
  | _ => idtac
  end.

Ltac unfold_expected :=
  unfold conversion_trace, original_path_of, spatial_path_of, histogram_path_of,
    upload_path_of, processed_dir_of, upload_name_of, upload_dir_of in *.

Ltac same_lists :=
  world_simpl; unfold_expected; world_simpl; rewrite <- ?app_assoc;
  try reflexivity.

(** *** The blocks of a successful import *)

Section Blocks.
Context (env : Env) (loggers : list Listener).

Lemma move_in_ok (prefer_copy : bool) (w w' : World) (u : unit) :
  move_in env loggers prefer_copy w = (Ok u, w') ->
  let pf := pending_file (self w.1) in
  let up := upload_path_of env (self w.1) in
  exists fs',
    w'.1 =
      {| self := set_upload_path (Some up)
                   (set_upload_dir (Some (upload_dir_of env)) (self w.1));
         fs := fs';
         emitted := emitted w.1 ++
           [evt START_DATA_EXTRACTION [APath (Some pf)] [];
            evt MOVED_PENDING_FILE [APath (Some pf); APath (Some up)] [];
            evt END_DATA_EXTRACTION [APath (Some up)] []] |}.
Proof.
  destruct w as [[s fs0 em] o]. destruct s. unfold move_in. intros H.
  ok_run H; eexists; same_lists.
Qed.

Lemma detect_format_ok (w w' : World) (format : Format) (archive : option Archive) :
  detect_format env loggers w = (Ok (format, archive), w') ->
  exists up,
    upload_path (self w.1) = Some up /\
    w'.1 =
      {| self := self w.1; fs := fs w.1;
         emitted := emitted w.1 ++
           [evt START_FORMAT_DETECTION [APath (Some up)] [];
            evt END_FORMAT_DETECTION [APath (Some up); AFormat format] []] |} /\
    (archive = None -> FormatFactory_match env (fs w.1) up = Some format).
Proof.
  destruct w as [[s fs0 em] o]. destruct s. unfold detect_format. intros H.
  ok_run H. world_simpl.
  match goal with E : (_, _) = (_, _) |- _ => injection E as -> -> end.
  eexists. split; [done|]. split; [same_lists|].
  match goal with |- context [FormatFactory_match env fs0 ?p] =>
    destruct (FormatFactory_match env fs0 p) as [f0|] end; [by intros _|].
  intros Ha. by rewrite Ha in Hm.
Qed.

Lemma create_original_role_plain_ok (format : Format) (prefer_copy : bool)
    (w w' : World) (identified : Identified) :
  create_original_role env loggers format None prefer_copy w
    = (Ok identified, w') ->
  exists ud up fs',
    upload_dir (self w.1) = Some ud /\
    upload_path (self w.1) = Some up /\
    identified = Single format /\
    let pd := ud ++ [PROCESSED_DIR] in
    let op := pd ++ [ORIGINAL_STEM +:+ "." +:+ get_identifier format] in
    w'.1 =
      {| self := set_original_path (Some op)
                   (set_processed_dir (Some pd) (self w.1));
         fs := fs'; emitted := emitted w.1 |}.
Proof.
  destruct w as [[s fs0 em] o]. destruct s. unfold create_original_role.
  intros H. ok_run H. world_simpl. subst. by eexists _, _, _.
Qed.

Lemma create_original_role_plain_files (format : Format) (prefer_copy : bool)
    (w w' : World) (identified : Identified) :
  create_original_role env loggers format None prefer_copy w
    = (Ok identified, w') ->
  exists ud up fs1,
    upload_dir (self w.1) = Some ud /\
    upload_path (self w.1) = Some up /\
    let pd := ud ++ [PROCESSED_DIR] in
    let op := pd ++ [ORIGINAL_STEM +:+ "." +:+ get_identifier format] in
    os_mkdir pd (fs w.1) = Ok fs1 /\
    fs w'.1 = <[op := Symlink up]> fs1.
Proof.
  destruct w as [[s fs0 em] o]. destruct s. unfold create_original_role.
  intros H. ok_run H. world_simpl. subst.
  apply os_symlink_ok in Hlink as [_ ->]. by eexists _, _, _.
Qed.

Lemma check_original_integrity_ok (format : Format) (w w' : World) (im : Image) :
  check_original_integrity env loggers format w = (Ok im, w') ->
  exists op,
    original_path (self w.1) = Some op /\
    im = Image_init env op format /\
    ImageCheck.check_integrity (image_getattr env (fs w.1) im) false true = [] /\
    w'.1 =
      {| self := set_original (Some im) (self w.1); fs := fs w.1;
         emitted := emitted w.1 ++
           [evt START_INTEGRITY_CHECK [APath (Some op)] [];
            evt END_INTEGRITY_CHECK [AImage (Some im)] []] |}.
Proof.
  destruct w as [[s fs0 em] o]. destruct s.
  unfold check_original_integrity, check_image. intros H.
  ok_run H. world_simpl. subst. eexists. split; [reflexivity|].
  split; [reflexivity|]. split; [|same_lists].
  apply bool_decide_eq_false in Hif.
  destruct (ImageCheck.check_integrity _ _ _); [reflexivity|].
  cbn [length] in Hif. lia.
Qed.

Lemma deploy_spatial_conversion_ok (format : Format) (w w' : World)
    (im : option Image) :
  need_conversion format = true ->
  deploy_spatial env loggers format w = (Ok im, w') ->
  exists ext pd fs' spatial_format,
    conversion_identifier format = Ok ext /\
    processed_dir (self w.1) = Some pd /\
    let sp := pd ++ [SPATIAL_STEM +:+ "." +:+ ext] in
    let spatial := Image_init env sp spatial_format in
    format_convert env format sp (fs w.1) = (Ok true, fs') /\
    path_exists fs' sp = true /\
    SpatialReadableFormatFactory_match env fs' sp = Some spatial_format /\
    ImageCheck.check_integrity (image_getattr env fs' spatial) false true = [] /\
    im = Some spatial /\
    w'.1 =
      {| self := set_spatial (Some spatial)
                   (set_spatial_path (Some sp) (self w.1));
         fs := fs';
         emitted := emitted w.1 ++
           [evt START_SPATIAL_DEPLOY [APath (original_path (self w.1))] [];
            evt START_CONVERSION [APath (Some sp); APath (upload_path (self w.1))] [];
            evt END_CONVERSION [APath (Some sp)] [];
            evt START_FORMAT_DETECTION [APath (Some sp)] [];
            evt END_FORMAT_DETECTION [APath (Some sp); AFormat spatial_format] [];
            evt START_INTEGRITY_CHECK [APath (Some sp)] [];
            evt END_INTEGRITY_CHECK [AImage (Some spatial)] [];
            evt END_SPATIAL_DEPLOY [AImage (Some spatial)] []] |}.
Proof.
  intros Hn. destruct w as [[s fs0 em] o]. destruct s.
  unfold deploy_spatial, check_image. rewrite Hn. intros H.
  ok_run H. world_simpl.
  apply orb_false_iff in Hif as [Hr Hex]. apply negb_false_iff in Hr, Hex.
  subst. exists a2, a3, fs', f. cbn zeta.
  split; [assumption|]. split; [reflexivity|]. split; [assumption|].
  split; [assumption|]. split; [assumption|]. split.
  { apply bool_decide_eq_false in Hif0.
    destruct (ImageCheck.check_integrity _ _ _); [reflexivity|].
    cbn [length] in Hif0. lia. }
  split; [reflexivity|]. same_lists.
Qed.

Lemma deploy_spatial_alias_ok (format : Format) (w w' : World)
    (im : option Image) :
  need_conversion format = false ->
  deploy_spatial env loggers format w = (Ok im, w') ->
  exists pd op,
    processed_dir (self w.1) = Some pd /\
    original_path (self w.1) = Some op /\
    let sp := pd ++ [SPATIAL_STEM +:+ "." +:+ get_identifier format] in
    let spatial := Image_init env sp format in
    fs w.1 !! sp = None /\
    im = Some spatial /\
    w'.1 =
      {| self := set_spatial (Some spatial)
                   (set_spatial_path (Some sp) (self w.1));
         fs := <[sp := Symlink op]> (fs w.1);
         emitted := emitted w.1 ++
           [evt START_SPATIAL_DEPLOY [APath (Some op)] [];
            evt END_SPATIAL_DEPLOY [AImage (Some spatial)] []] |}.
Proof.
  intros Hn. destruct w as [[s fs0 em] o]. destruct s.
  unfold deploy_spatial. rewrite Hn. intros H.
  ok_run H. world_simpl. subst.
  apply os_symlink_ok in Hlink as [Hnone ->].
  eexists _, _. cbn zeta. split; [reflexivity|]. split; [reflexivity|].
  split; [assumption|]. split; [reflexivity|]. same_lists.
Qed.

Lemma deploy_histogram_ok (image : option Image) (w w' : World)
    (h : option Path) :
  deploy_histogram env loggers image w = (Ok h, w') ->
  exists pd blob,
    processed_dir (self w.1) = Some pd /\
    let hp := pd ++ [HISTOGRAM_STEM] in
    histogram_engine env (fs w.1) image hp = Ok blob /\
    w'.1 =
      {| self := set_histogram (Some hp)
                   (set_histogram_path (Some hp) (self w.1));
         fs := <[hp := File blob]> (fs w.1);
         emitted := emitted w.1 ++
           [evt START_HISTOGRAM_DEPLOY [APath (Some hp); AImage image] [];
            evt END_HISTOGRAM_DEPLOY [APath (Some hp); AImage image] []] |}.
Proof.
  destruct w as [[s fs0 em] o]. destruct s.
  unfold deploy_histogram, build_histogram_file. intros H.
  ok_run H. world_simpl. subst.
  match goal with E : Ok _ = Ok _ |- _ => apply (inj Ok) in E; subst end.
  eexists _, _. cbn zeta. split; [reflexivity|]. split; [eassumption|].
  same_lists.
Qed.
End Blocks.

(** *** What the observers can change *)

Lemma sim_lift {A} (f : Pipeline -> Res A * Pipeline) :
  same_outcome (lift f) (lift f).
Proof. intros p o1 o2. unfold lift. simpl. by destruct (f p). Qed.

Lemma sim_ret {A} (x : A) : same_outcome (mret x) (mret x).
Proof. by intros p o1 o2. Qed.

Lemma sim_raise {A} (e : Exception) : same_outcome (raise (A := A) e) (raise e).
Proof. by intros p o1 o2. Qed.

Lemma sim_of_res {A} (x : Res A) : same_outcome (of_res x) (of_res x).
Proof. by intros p o1 o2. Qed.

Lemma sim_as_path (o : option Path) : same_outcome (as_path o) (as_path o).
Proof. destruct o; [apply sim_ret|apply sim_raise]. Qed.

Lemma sim_assert (b : bool) : same_outcome (assert b) (assert b).
Proof. destruct b; [apply sim_ret|apply sim_raise]. Qed.

Lemma sim_bind {A B} (c1 c2 : M A) (k1 k2 : A -> M B) :
  same_outcome c1 c2 -> (forall a, same_outcome (k1 a) (k2 a)) ->
  same_outcome (c1 ≫= k1) (c2 ≫= k2).
Proof.
  intros Hc Hk p o1 o2. destruct (Hc p o1 o2) as [Hr Hp].
  unfold mbind, M_bind.
  destruct (c1 (p, o1)) as [[a|e] [p1 o1']], (c2 (p, o2)) as [[a'|e'] [p2 o2']];
    simpl in *; simplify_eq; [apply Hk|done].
Qed.

Lemma sim_try {A} (b1 b2 : M A) (caught : Exception -> bool)
    (h1 h2 : Exception -> M A) :
  same_outcome b1 b2 -> (forall e, same_outcome (h1 e) (h2 e)) ->
  same_outcome (try_except b1 caught h1) (try_except b2 caught h2).
Proof.
  intros Hb Hh p o1 o2. destruct (Hb p o1 o2) as [Hr Hp].
  unfold try_except.
  destruct (b1 (p, o1)) as [[a|e] [p1 o1']], (b2 (p, o2)) as [[a'|e'] [p2 o2']];
    simpl in *; simplify_eq; [done|].
  destruct (caught e'); [apply Hh|done].
Qed.

Lemma notify_loop_tolerant (ls : list Listener) (i : nat) (ev : Event)
    (log : ObserverLog) :
  Forall well_behaved ls -> exists log', notify_loop i ls ev log = (Ok tt, log').
Proof.
  intros Hwb. revert i log. induction Hwb as [|l ls Hl _ IH]; intros i log; simpl.
  - by eexists.
  - specialize (Hl (delivered log) ev).
    destruct (handle l (delivered log) ev) as [| |e]; try apply IH.
    destruct e; try discriminate Hl. apply IH.
Qed.

Lemma notify_tolerant (loggers : list Listener) method args kwargs (w : World) :
  Forall well_behaved loggers ->
  exists log,
    notify loggers method args kwargs w =
      (Ok tt, ({| self := self w.1; fs := fs w.1;
                  emitted := emitted w.1 ++ [evt method args kwargs] |}, log)).
Proof.
  intros Hwb. unfold notify.
  destruct (notify_loop_tolerant loggers 0 (evt method args kwargs) w.2 Hwb)
    as [log ->].
  by exists log.
Qed.

Lemma sim_notify (l1 l2 : list Listener) method args kwargs :
  Forall well_behaved l1 -> Forall well_behaved l2 ->
  same_outcome (notify l1 method args kwargs) (notify l2 method args kwargs).
Proof.
  intros H1 H2 p o1 o2.
  destruct (notify_tolerant l1 method args kwargs (p, o1) H1) as [log1 ->].
  destruct (notify_tolerant l2 method args kwargs (p, o2) H2) as [log2 ->].
  done.
Qed.

Ltac sim_step :=
  unfold self_pending_file, self_pending_name, self_upload_dir,
    self_upload_path, self_original_path, self_spatial_path, self_spatial,
    self_histogram, self_processed_dir, attr, assign, files, syscall, extern;
  lazymatch goal with
  | |- same_outcome (_ ≫= _) (_ ≫= _) => apply sim_bind; [|intros ?]
  | |- same_outcome (try_except _ _ _) (try_except _ _ _) =>
      apply sim_try; [|intros ?]
  | |- same_outcome (notify _ _ _ _) (notify _ _ _ _) =>
      apply sim_notify; assumption
  | |- same_outcome (lift _) (lift _) => apply sim_lift
  | |- same_outcome (mret _) (mret _) => apply sim_ret
  | |- same_outcome (raise _) (raise _) => apply sim_raise
  | |- same_outcome (of_res _) (of_res _) => apply sim_of_res
  | |- same_outcome (as_path _) (as_path _) => apply sim_as_path
  | |- same_outcome (assert _) (assert _) => apply sim_assert
  | |- same_outcome (if ?c then _ else _) _ => destruct c
  | |- same_outcome (let '(_, _) := ?x in _) _ => destruct x
  | |- same_outcome (match ?x with Some _ => _ | None => _ end) _ => destruct x
  | |- same_outcome (match ?x with Collection _ => _ | Single _ => _ end) _ =>
      destruct x
  end.

Section SameOutcome.
Context (env : Env) (l1 l2 : list Listener).
Context (Hwb1 : Forall well_behaved l1) (Hwb2 : Forall well_behaved l2).

Lemma sim_mkdir (d : Path) : same_outcome (mkdir l1 d) (mkdir l2 d).
Proof using Hwb1 Hwb2. unfold mkdir. repeat sim_step. Qed.

Lemma sim_move (origin dest : Path) (pc : bool) :
  same_outcome (move l1 origin dest pc) (move l2 origin dest pc).
Proof using Hwb1 Hwb2. unfold move. repeat sim_step. Qed.

Lemma sim_mksymlink (path : Path) (target : option Path) :
  same_outcome (mksymlink l1 path target) (mksymlink l2 path target).
Proof using Hwb1 Hwb2. unfold mksymlink. repeat sim_step. Qed.

Lemma sim_check_image (im : Image) :
  same_outcome (check_image env im) (check_image env im).
Proof. unfold check_image. repeat sim_step. Qed.

Lemma sim_deploy_spatial (format : Format) :
  same_outcome (deploy_spatial env l1 format) (deploy_spatial env l2 format).
Proof using Hwb1 Hwb2.
  unfold deploy_spatial.
  repeat first [apply sim_mksymlink | apply sim_check_image | sim_step].
Qed.

Lemma sim_deploy_histogram (image : option Image) :
  same_outcome (deploy_histogram env l1 image) (deploy_histogram env l2 image).
Proof using Hwb1 Hwb2.
  unfold deploy_histogram, build_histogram_file. repeat sim_step.
Qed.

Lemma sim_register_children cyto (task : string) (pc : bool)
    (children : list Path) (tasks : list Signature) :
  same_outcome (register_children l1 cyto task pc children tasks)
               (register_children l2 cyto task pc children tasks).
Proof using Hwb1 Hwb2.
  revert tasks. induction children as [|child rest IH]; intros tasks; simpl.
  - apply sim_ret.
  - repeat first [apply IH | sim_step].
Qed.

Lemma sim_import_collection (collection : Path) (pc : bool) :
  head (omap cytomine l1) = head (omap cytomine l2) ->
  same_outcome (import_collection env l1 collection pc)
               (import_collection env l2 collection pc).
Proof using Hwb1 Hwb2.
  intros Hc. unfold import_collection. rewrite Hc.
  repeat first [apply sim_register_children | sim_step].
Qed.

Lemma sim_move_in (pc : bool) :
  same_outcome (move_in env l1 pc) (move_in env l2 pc).
Proof using Hwb1 Hwb2.
  unfold move_in.
  repeat first [apply sim_mkdir | apply sim_move | apply sim_mksymlink | sim_step].
Qed.

Lemma sim_detect_format :
  same_outcome (detect_format env l1) (detect_format env l2).
Proof using Hwb1 Hwb2. unfold detect_format. repeat sim_step. Qed.

Lemma sim_create_original_role (format : Format) (archive : option Archive)
    (pc : bool) :
  head (omap cytomine l1) = head (omap cytomine l2) ->
  same_outcome (create_original_role env l1 format archive pc)
               (create_original_role env l2 format archive pc).
Proof using Hwb1 Hwb2.
  intros Hc. unfold create_original_role.
  repeat first [apply sim_mkdir | apply sim_move | apply sim_mksymlink
               | apply (sim_import_collection _ _ Hc) | sim_step].
Qed.

Lemma sim_check_original_integrity (format : Format) :
  same_outcome (check_original_integrity env l1 format)
               (check_original_integrity env l2 format).
Proof using Hwb1 Hwb2.
  unfold check_original_integrity.
  repeat first [apply sim_check_image | sim_step].
Qed.

Lemma sim_deploy (format : Format) (original : Image) :
  same_outcome (deploy env l1 format original) (deploy env l2 format original).
Proof using Hwb1 Hwb2.
  unfold deploy.
  repeat first [apply sim_deploy_spatial | apply sim_deploy_histogram | sim_step].
Qed.

Lemma sim_identify (pc : bool) :
  head (omap cytomine l1) = head (omap cytomine l2) ->
  same_outcome (identify env l1 pc) (identify env l2 pc).
Proof using Hwb1 Hwb2.
  intros Hc. unfold identify.
  repeat first [apply sim_move_in | apply sim_detect_format
               | apply (sim_create_original_role _ _ _ Hc) | sim_step].
Qed.

Lemma sim_run (pc : bool) :
  head (omap cytomine l1) = head (omap cytomine l2) ->
  same_outcome (run env l1 pc) (run env l2 pc).
Proof using Hwb1 Hwb2.
  intros Hc. unfold run, run_body.
  repeat first [apply (sim_identify _ Hc) | apply sim_check_original_integrity
               | apply sim_deploy | sim_step].
Qed.
End SameOutcome.

(** *** One dispatch *)

Lemma notify_loop_spec (ls : list Listener) (i : nat) (ev : Event)
    (log log' : ObserverLog) (r : Res unit) :
  notify_loop i ls ev log = (r, log') ->
  exists ds ws,
    delivered log' = delivered log ++ ds /\
    warnings log' = warnings log ++ ws /\
    to <$> ds = seq i (length ds) /\
    Forall (fun d => what d = ev) ds /\
    (forall k d, ds !! k = Some d ->
       exists l, ls !! k = Some l /\
                 outcome d = handle l (delivered log ++ take k ds) ev) /\
    (forall k d, ds !! k = Some d -> outcome d = NoHandler ->
       ((i + k)%nat, kind ev) ∈ ws) /\
    match r with
    | Ok _ =>
        length ds = length ls /\
        Forall (fun d => tolerated (outcome d) = true) ds
    | Raise e =>
        exists ds0 d, ds = ds0 ++ [d] /\ outcome d = Raises e /\
          tolerated (Raises e) = false /\ (length ds <= length ls)%nat /\
          Forall (fun d => tolerated (outcome d) = true) ds0
    end.
Proof.
  revert i log. induction ls as [|l ls IH]; intros i log; simpl.
  { intros [= <- <-]. exists [], []. rewrite !app_nil_r.
    repeat split; try done; constructor. }
  set (o := handle l (delivered log) ev).
  set (d := {| to := i; what := ev; outcome := o |}).
  assert (Hgo : forall ws0,
    notify_loop (S i) ls ev
      {| delivered := delivered log ++ [d]; warnings := warnings log ++ ws0 |}
      = (r, log') ->
    tolerated o = true -> (o = NoHandler -> (i, kind ev) ∈ ws0) ->
    exists ds ws,
      delivered log' = delivered log ++ ds /\
      warnings log' = warnings log ++ ws /\
      to <$> ds = seq i (length ds) /\
      Forall (fun d => what d = ev) ds /\
      (forall k d0, ds !! k = Some d0 ->
         exists l0, (l :: ls) !! k = Some l0 /\
                    outcome d0 = handle l0 (delivered log ++ take k ds) ev) /\
      (forall k d0, ds !! k = Some d0 -> outcome d0 = NoHandler ->
         ((i + k)%nat, kind ev) ∈ ws) /\
      match r with
      | Ok _ =>
          length ds = length (l :: ls) /\
          Forall (fun d => tolerated (outcome d) = true) ds
      | Raise e =>
          exists ds0 d0, ds = ds0 ++ [d0] /\ outcome d0 = Raises e /\
            tolerated (Raises e) = false /\ (length ds <= length (l :: ls))%nat /\
            Forall (fun d => tolerated (outcome d) = true) ds0
      end).
  { intros ws0 H Htol Hwarn.
    apply IH in H as (ds & ws & Hd & Hw & Hto & Hev & Hout & Hno & Hr).
    simpl in Hd, Hw. exists (d :: ds), (ws0 ++ ws).
    split; [by rewrite Hd, <- app_assoc|]. split; [by rewrite Hw, <- app_assoc|].
    split; [rewrite fmap_cons, Hto; reflexivity|]. split; [by constructor|]. split.
    { intros [|k] d0; simpl.
      - intros [= <-]. exists l. split; [done|]. by rewrite app_nil_r.
      - intros Hk. destruct (Hout k d0 Hk) as (l0 & Hl0 & Ho).
        exists l0. split; [done|]. rewrite Ho. simpl. by rewrite <- app_assoc. }
    split.
    { intros [|k] d0; simpl.
      - intros [= <-] Ho. rewrite Nat.add_0_r. apply elem_of_app. left. by apply Hwarn.
      - intros Hk Ho. apply elem_of_app. right.
        replace (i + S k)%nat with (S i + k)%nat by lia. by eapply Hno. }
    destruct r as [u|e].
    - destruct Hr as [Hlen Hall]. split; [simpl; by rewrite Hlen|].
      by constructor.
    - destruct Hr as (ds0 & d0 & -> & Ho & Hnt & Hlen & Hall).
      exists (d :: ds0), d0. repeat split; try done.
      + simpl. lia.
      + by constructor. }
  destruct o as [| |e] eqn:Eo.
  - intros H. apply (Hgo [(i, kind ev)]); [done|done|]. intros _. by apply list_elem_of_singleton.
  - intros H. apply (Hgo []); [by rewrite app_nil_r|done|done].
  - assert (He : e = AttributeError \/ tolerated (Raises e) = false)
      by (destruct e; auto).
    destruct He as [->|Hne].
    + intros H. apply (Hgo [(i, kind ev)]); [done|done|done].
    + intros H.
      assert (Hr : r = Raise e /\
                   log' = {| delivered := delivered log ++ [d];
                             warnings := warnings log |}).
      { destruct e; try done; by injection H as <- <-. }
      destruct Hr as [-> ->]. exists [d], []. simpl. rewrite app_nil_r.
      split; [done|]. split; [done|]. split; [done|].
      split; [by repeat constructor|]. split.
      { intros [|k] d0; simpl; [|done]. intros [= <-]. exists l.
        split; [done|]. by rewrite app_nil_r. }
      split.
      { intros [|k] d0; simpl; [|done]. by intros [= <-]. }
      exists [], d. repeat split; try done. simpl. lia.
Qed.

(** C4, as the code has it.  A dispatch hands the event to the observers in
    registration order, from the first one up to the first whose handler
    raises something other than an [AttributeError], and to all of them when
    there is none; an observer without a handler is skipped with a warning
    and the dispatch goes on.  An error of another kind ends the dispatch
    and is raised into the pipeline.  When no handler of any observer
    raises such an error, every dispatch returns, and the result of [run],
    the files and the emitted events are those of any other such list of
    observers with the same first [CytomineListener]. *)
Theorem dispatch_and_outcome (env : Env) (loggers : list Listener) :
  (forall method args kwargs (w : World),
     let ev := evt method args kwargs in
     let r := (notify loggers method args kwargs w).1 in
     let w' := (notify loggers method args kwargs w).2 in
     w'.1 = {| self := self w.1; fs := fs w.1; emitted := emitted w.1 ++ [ev] |} /\
     exists ds ws,
       delivered w'.2 = delivered w.2 ++ ds /\
       warnings w'.2 = warnings w.2 ++ ws /\
       to <$> ds = seq 0 (length ds) /\
       Forall (fun d => what d = ev) ds /\
       (forall k d, ds !! k = Some d ->
          exists l, loggers !! k = Some l /\
                    outcome d = handle l (delivered w.2 ++ take k ds) ev) /\
       (forall k d, ds !! k = Some d -> outcome d = NoHandler ->
          (k, method) ∈ ws) /\
       match r with
       | Ok _ =>
           length ds = length loggers /\
           Forall (fun d => tolerated (outcome d) = true) ds
       | Raise e =>
           exists ds0 d, ds = ds0 ++ [d] /\ outcome d = Raises e /\
             tolerated (Raises e) = false /\
             (length ds <= length loggers)%nat /\
             Forall (fun d => tolerated (outcome d) = true) ds0
       end) /\
  (Forall well_behaved loggers ->
     (forall method args kwargs (w : World),
        (notify loggers method args kwargs w).1 = Ok tt) /\
     forall (others : list Listener) (prefer_copy : bool),
       Forall well_behaved others ->
       head (omap cytomine loggers) = head (omap cytomine others) ->
       same_outcome (run env loggers prefer_copy) (run env others prefer_copy)).
Proof.
  split.
  - intros method args kwargs w ev r w'.
    destruct (notify loggers method args kwargs w) as [r0 w0] eqn:E.
    subst r w'. simpl. split; [by eapply notify_pipeline|].
    unfold notify in E. fold ev in E.
    destruct (notify_loop 0 loggers ev w.2) as [r1 log] eqn:El.
    injection E as <- <-. simpl.
    destruct (notify_loop_spec _ _ _ _ _ _ El)
      as (ds & ws & Hd & Hw & Hto & Hev & Hout & Hno & Hr).
    exists ds, ws. repeat split; done.
  - intros Hwb. split.
    + intros method args kwargs w.
      by destruct (notify_tolerant loggers method args kwargs w Hwb) as [log ->].
    + intros others prefer_copy Hwb' Hc. by apply sim_run.
Qed.

Lemma dispatch_and_outcome_witness :
  (run Demo.env [Demo.stdout; Demo.mute] false (Demo.world "raw")).1 =
  (run Demo.env [] false (Demo.world "raw")).1.
Proof.
  assert (Hwb : Forall well_behaved [Demo.stdout; Demo.mute]).
  { repeat constructor. }
  exact (proj1 (proj2 (proj2 (dispatch_and_outcome Demo.env _) Hwb)
                  [] false (List.Forall_nil _) eq_refl _ _ _)).
Defined.

(** The claim as worded fails on an observer whose handler raises: the
    second observer is never called, and the import that succeeds with a
    returning observer fails with the observer's own error. *)
Lemma failing_observer_counterexample :
  let w := Demo.world "raw" in
  to <$> delivered
           (notify [Demo.unregistered; Demo.stdout]
              START_DATA_EXTRACTION [] [] w).2.2 = [0%nat] /\
  (run Demo.env [Demo.stdout] false w).1 =
    Ok [["data"; "pims"; "upload0001"; "slide"]] /\
  (run Demo.env [Demo.unregistered] false w).1 = Raise KeyError.
Proof. vm_compute. repeat split. Qed.

(** *** The events of a computation *)

Lemma emits_weaken {A} (P Q : ImportEventType -> Prop) (c : M A) :
  (forall k, P k -> Q k) -> emits P c -> emits Q c.
Proof.
  intros HPQ Hc w w' r H. destruct (Hc w w' r H) as (evs & E & Hall).
  exists evs. split; [done|]. eapply Forall_impl; [exact Hall|]. simpl. eauto.
Qed.

Lemma emits_lift {A} (P : ImportEventType -> Prop)
    (f : Pipeline -> Res A * Pipeline) :
  (forall p, emitted (f p).2 = emitted p) -> emits P (lift f).
Proof.
  intros Hf w w' r H. apply lift_inv in H as (p & H & ->).
  exists []. rewrite app_nil_r. simpl. split; [|constructor].
  by rewrite <- (Hf w.1), H.
Qed.

Lemma emits_attr {A} (P : ImportEventType -> Prop) (field : FileImporter -> A) : emits P (attr field).
Proof. by apply emits_lift. Qed.

Lemma emits_assign (P : ImportEventType -> Prop) (set : FileImporter -> FileImporter) : emits P (assign set).
Proof. by apply emits_lift. Qed.

Lemma emits_files (P : ImportEventType -> Prop) : emits P files.
Proof. by apply emits_lift. Qed.

Lemma emits_syscall (P : ImportEventType -> Prop) (op : FS -> Res FS) : emits P (syscall op).
Proof. apply emits_lift. intros p. by destruct (op (fs p)). Qed.

Lemma emits_extern {A} (P : ImportEventType -> Prop) (op : FS -> Res A * FS) : emits P (extern op).
Proof. apply emits_lift. intros p. by destruct (op (fs p)). Qed.

Lemma emits_nothing {A} (P : ImportEventType -> Prop) (c : M A) :
  (forall w, (c w).2 = w) -> emits P c.
Proof.
  intros Hc w w' r H. exists []. rewrite app_nil_r. split; [|constructor].
  by rewrite <- (Hc w), H.
Qed.

Lemma emits_ret {A} (P : ImportEventType -> Prop) (x : A) : emits P (mret x).
Proof. by apply emits_nothing. Qed.

Lemma emits_raise {A} (P : ImportEventType -> Prop) (e : Exception) : emits P (raise (A := A) e).
Proof. by apply emits_nothing. Qed.

Lemma emits_of_res {A} (P : ImportEventType -> Prop) (x : Res A) : emits P (of_res x).
Proof. by apply emits_nothing. Qed.

Lemma emits_as_path (P : ImportEventType -> Prop) (o : option Path) : emits P (as_path o).
Proof. destruct o; [apply emits_ret|apply emits_raise]. Qed.

Lemma emits_assert (P : ImportEventType -> Prop) (b : bool) : emits P (assert b).
Proof. destruct b; [apply emits_ret|apply emits_raise]. Qed.

Lemma emits_notify (P : ImportEventType -> Prop) (loggers : list Listener) method args kwargs :
  P method -> emits P (notify loggers method args kwargs).
Proof.
  intros HP w w' r H. apply notify_pipeline in H. rewrite H. simpl.
  eexists. split; [done|]. by repeat constructor.
Qed.

Lemma emits_bind {A B} (P : ImportEventType -> Prop) (c : M A) (k : A -> M B) :
  emits P c -> (forall a, emits P (k a)) -> emits P (c ≫= k).
Proof.
  intros Hc Hk w w' r. unfold mbind, M_bind.
  destruct (c w) as [[a|e] w1] eqn:E.
  - intros H. destruct (Hc _ _ _ E) as (evs1 & E1 & H1).
    destruct (Hk a _ _ _ H) as (evs2 & E2 & H2).
    exists (evs1 ++ evs2). split; [by rewrite E2, E1, app_assoc|].
    by apply Forall_app.
  - intros [= <- <-]. by apply (Hc _ _ _ E).
Qed.

Lemma emits_try {A} (P : ImportEventType -> Prop) (body : M A) (caught : Exception -> bool)
    (handler : Exception -> M A) :
  emits P body -> (forall e, emits P (handler e)) ->
  emits P (try_except body caught handler).
Proof.
  intros Hb Hh w w' r. unfold try_except.
  destruct (body w) as [[a|e] w1] eqn:E.
  - intros [= <- <-]. by apply (Hb _ _ _ E).
  - destruct (caught e).
    + intros H. destruct (Hb _ _ _ E) as (evs1 & E1 & H1).
      destruct (Hh e _ _ _ H) as (evs2 & E2 & H2).
      exists (evs1 ++ evs2). split; [by rewrite E2, E1, app_assoc|].
      by apply Forall_app.
    + intros [= <- <-]. by apply (Hb _ _ _ E).
Qed.

Ltac emits_step :=
  unfold self_pending_file, self_pending_name, self_upload_dir,
    self_upload_path, self_original_path, self_spatial_path, self_spatial,
    self_histogram, self_processed_dir;
  lazymatch goal with
  | |- emits _ (_ ≫= _) => apply emits_bind; [|intros ?]
  | |- emits _ (try_except _ _ _) => apply emits_try; [|intros ?]
  | |- emits _ (notify _ _ _ _) => apply emits_notify; done
  | |- emits _ (attr _) => apply emits_attr
  | |- emits _ (assign _) => apply emits_assign
  | |- emits _ files => apply emits_files
  | |- emits _ (syscall _) => apply emits_syscall
  | |- emits _ (extern _) => apply emits_extern
  | |- emits _ (mret _) => apply emits_ret
  | |- emits _ (raise _) => apply emits_raise
  | |- emits _ (of_res _) => apply emits_of_res
  | |- emits _ (as_path _) => apply emits_as_path
  | |- emits _ (assert _) => apply emits_assert
  | |- emits _ (if ?c then _ else _) => destruct c
  | |- emits _ (let '(_, _) := ?x in _) => destruct x
  | |- emits _ (match ?x with Some _ => _ | None => _ end) => destruct x
  | |- emits _ (match ?x with Collection _ => _ | Single _ => _ end) =>
      destruct x
  end.

(** Outside the conversion branch of [deploy_spatial] nothing emits
    [START_CONVERSION]. *)
Section NoConversionEvent.
Context (env : Env) (loggers : list Listener).
Let P (k : ImportEventType) : Prop := k <> START_CONVERSION.

Lemma emits_mkdir (d : Path) : emits P (mkdir loggers d).
Proof. unfold mkdir. repeat emits_step. Qed.

Lemma emits_move (origin dest : Path) (pc : bool) :
  emits P (move loggers origin dest pc).
Proof. unfold move. repeat emits_step. Qed.

Lemma emits_mksymlink (path : Path) (target : option Path) :
  emits P (mksymlink loggers path target).
Proof. unfold mksymlink. repeat emits_step. Qed.

Lemma emits_check_image (im : Image) : emits P (check_image env im).
Proof. unfold check_image. repeat emits_step. Qed.

Lemma emits_deploy_spatial (format : Format) :
  need_conversion format = false -> emits P (deploy_spatial env loggers format).
Proof.
  intros Hn. unfold deploy_spatial. rewrite Hn.
  repeat first [apply emits_mksymlink | emits_step].
Qed.

Lemma emits_deploy_histogram (image : option Image) :
  emits P (deploy_histogram env loggers image).
Proof. unfold deploy_histogram, build_histogram_file. repeat emits_step. Qed.

Lemma emits_register_children cyto (task : string) (pc : bool)
    (children : list Path) (tasks : list Signature) :
  emits P (register_children loggers cyto task pc children tasks).
Proof.
  revert tasks. induction children as [|child rest IH]; intros tasks; simpl.
  - apply emits_ret.
  - repeat first [apply IH | emits_step].
Qed.

Lemma emits_import_collection (collection : Path) (pc : bool) :
  emits P (import_collection env loggers collection pc).
Proof.
  unfold import_collection.
  repeat first [apply emits_register_children | emits_step].
Qed.

Lemma emits_identify (pc : bool) : emits P (identify env loggers pc).
Proof.
  unfold identify, move_in, detect_format, create_original_role.
  repeat first [apply emits_mkdir | apply emits_move | apply emits_mksymlink
               | apply emits_import_collection | emits_step].
Qed.

Lemma emits_check_original_integrity (format : Format) :
  emits P (check_original_integrity env loggers format).
Proof.
  unfold check_original_integrity.
  repeat first [apply emits_check_image | emits_step].
Qed.

Lemma emits_deploy (format : Format) (original : Image) :
  need_conversion format = false ->
  emits P (deploy env loggers format original).
Proof.
  intros Hn. unfold deploy.
  repeat first [apply (emits_deploy_spatial _ Hn)
               | apply emits_deploy_histogram | emits_step].
Qed.
End NoConversionEvent.

(** *** Whole imports *)

Lemma run_ok (env : Env) (loggers : list Listener) (prefer_copy : bool)
    (w w' : World) (r : list Path) :
  run env loggers prefer_copy w = (Ok r, w') ->
  run_body env loggers prefer_copy w = (Ok r, w').
Proof.
  unfold run. intros H. apply try_except_ok in H; [done|].
  intros e w1. unfold self_upload_path. apply attr_notify_then_raise.
Qed.

Ltac into_worlds :=
  repeat match goal with
  | E : (?w).1 = _ |- _ =>
      is_var w;
      let p := fresh "p" in let o := fresh "o" in
      destruct w as [p o]; cbn [fst snd] in *; subst p
  end;
  world_simpl.

Ltac into_world H w :=
  let p := fresh "p" in let o := fresh "o" in
  destruct w as [p o]; cbn [fst snd] in H; subst p.

Lemma spatial_is_not_original (pd : Path) (ext id : string) :
  pd ++ [SPATIAL_STEM +:+ "." +:+ ext] <> pd ++ [ORIGINAL_STEM +:+ "." +:+ id].
Proof. intros H. apply app_inv_head in H. discriminate H. Qed.

Lemma histogram_is_not_spatial (pd : Path) (ext : string) :
  pd ++ [HISTOGRAM_STEM] <> pd ++ [SPATIAL_STEM +:+ "." +:+ ext].
Proof. intros H. apply app_inv_head in H. discriminate H. Qed.

(** C5. An import that succeeds on a format matched on the upload itself
    and needing conversion emits exactly the events of
    [conversion_trace], in that order; the order asked for is a subsequence
    of it, with [END_FORMAT_DETECTION] carrying the detected format.  The
    spatial role is at another path than the original role, and the
    pipeline makes no link there: the original role is a link to the
    upload, made before the conversion, what is found at the spatial path
    is what the converter has left, and after the conversion only the
    histogram is written.  With a converter that writes a regular file, as
    the spec has it, the spatial role is that file in the end and the
    original role still the link to the upload. *)
Theorem conversion_import_events (env : Env) (loggers : list Listener)
    (prefer_copy : bool) (w0 w1 w2 w' : World) (format : Format)
    (r : list Path) :
  move_in env loggers prefer_copy w0 = (Ok tt, w1) ->
  detect_format env loggers w1 = (Ok (format, None), w2) ->
  need_conversion format = true ->
  run env loggers prefer_copy w0 = (Ok r, w') ->
  exists ext spatial_format hist_image,
    let trace :=
      conversion_trace env (self w0.1) format spatial_format ext hist_image in
    let up := upload_path_of env (self w0.1) in
    let op := original_path_of env format in
    let sp := spatial_path_of env ext in
    conversion_identifier format = Ok ext /\
    emitted w'.1 = emitted w0.1 ++ trace /\
    conversion_order `sublist_of` (kind <$> trace) /\
    trace !! 4%nat =
      Some (evt END_FORMAT_DETECTION [APath (Some up); AFormat format] []) /\
    original_path (self w'.1) = Some op /\
    spatial_path (self w'.1) = Some sp /\
    sp <> op /\
    r = [up] /\
    (exists fs_original fs_converted blob,
       fs_original !! op = Some (Symlink up) /\
       format_convert env format sp fs_original = (Ok true, fs_converted) /\
       path_exists fs_converted sp = true /\
       fs w'.1 = <[histogram_path_of env := File blob]> fs_converted) /\
    (converter_makes_file env ->
       exists content,
         fs w'.1 !! sp = Some (File content) /\
         fs w'.1 !! op = Some (Symlink up) /\
         reads (fs w'.1) sp content /\
         forall c, reads (fs w'.1) op c <-> reads (fs w'.1) up c).
Proof.
  intros Hmi Hdet Hn Hrun. apply run_ok in Hrun.
  unfold run_body, identify in Hrun.
  apply bind_ok in Hrun as (idf & wi & Hid & Hrun).
  apply bind_ok in Hid as (u & wa & Hmv & Hid).
  rewrite Hmi in Hmv. injection Hmv as <- <-.
  apply bind_ok in Hid as ([f a] & wb & Hdf & Hid).
  rewrite Hdet in Hdf. injection Hdf as <- <- <-.
  cbn beta iota in Hid.
  destruct w0 as [[s0 fs0 em0] o0]. destruct s0.
  apply move_in_ok in Hmi as (fs1 & E1). into_world E1 w1.
  apply detect_format_ok in Hdet as (up & Eup & E2 & _). into_world E2 w2.
  pose proof (create_original_role_plain_files _ _ _ _ _ _ _ Hid)
    as (ud0 & up0 & fsd & Eud0 & Eup0 & _ & Hfs3).
  cbn [fst snd self upload_dir upload_path] in Eud0, Eup0.
  apply create_original_role_plain_ok in Hid as (ud & up' & fs3 & Eud & _ & -> & E3).
  into_world E3 wi. world_simpl.
  apply (inj Some) in Eup, Eud, Eud0, Eup0. subst up ud ud0 up0.
  apply bind_ok in Hrun as (orig & wc & Hco & Hrun).
  apply check_original_integrity_ok in Hco as (op & Eop & -> & _ & E4).
  into_world E4 wc. world_simpl. apply (inj Some) in Eop. subst op.
  unfold deploy in Hrun. ok_run Hrun.
  match goal with H : deploy_spatial _ _ _ _ = _ |- _ =>
    apply (deploy_spatial_conversion_ok _ _ _ _ _ _ Hn) in H
      as (ext & pd & fs5 & sfmt & Hext & Epd & Hconv & Hex & _ & _ & _ & E5)
  end.
  into_worlds. apply (inj Some) in Epd. subst pd.
  match goal with H : deploy_histogram _ _ ?i _ = _ |- _ =>
    apply deploy_histogram_ok in H as (pd & blob & Epd & _ & E6);
    exists ext, sfmt, i
  end.
  into_worlds. apply (inj Some) in Epd. subst pd.
  match goal with E : Some _ = Some ?a |- _ => apply (inj Some) in E; subst a end.
  cbn zeta. split; [assumption|]. split; [same_lists|]. split.
  { unfold conversion_trace, conversion_order. cbn [fmap list_fmap kind evt].
    repeat first [apply sublist_nil | apply sublist_skip | apply sublist_cons]. }
  split; [reflexivity|]. split; [same_lists|]. split; [same_lists|].
  split; [apply spatial_is_not_original|]. split; [reflexivity|].
  unfold_expected. world_simpl.
  match type of Hconv with
  | format_convert _ _ ?p (<[?q := Symlink ?u]> _) = _ =>
      set (sp := p) in *; set (op := q) in *; set (up := u) in *
  end.
  match goal with |- context [<[?p := File blob]> fs5] => set (hp := p) in * end.
  assert (Hso : sp <> op) by apply spatial_is_not_original.
  assert (Hhs : hp <> sp) by apply histogram_is_not_spatial.
  assert (Hho : hp <> op).
  { intros H. apply app_inv_head in H. discriminate H. }
  split.
  { exists (<[op := Symlink up]> fsd), fs5, blob.
    split; [apply lookup_insert_eq|].
    split; [exact Hconv|]. split; [exact Hex|reflexivity]. }
  intros Hfile. destruct (Hfile _ _ _ _ Hconv Hex) as [content ->].
  exists content.
  assert (Hsp : <[hp := File blob]>
                  (<[sp := File content]> (<[op := Symlink up]> fsd)) !! sp
                = Some (File content)).
  { rewrite lookup_insert_ne by done. apply lookup_insert_eq. }
  assert (Hop : <[hp := File blob]>
                  (<[sp := File content]> (<[op := Symlink up]> fsd)) !! op
                = Some (Symlink up)).
  { rewrite lookup_insert_ne by done. rewrite lookup_insert_ne by done.
    apply lookup_insert_eq. }
  split; [exact Hsp|]. split; [exact Hop|]. split; [by apply reads_file|].
  by apply reads_through_link.
Qed.

End ImporterFacts.

(** ** Whole imports: further facts *)

Module ImportRuns.
Import Importer ImporterFacts.
#[local] Arguments ImageCheck.check_integrity : simpl never.

Lemma demo_converter_makes_file (broken : list string) :
  converter_makes_file (Demo.env_with true broken).
Proof. intros format target fs fs' [= <-] _. by exists "tiff". Qed.

Lemma conversion_import_events_witness :
  let l := [Demo.stdout] in
  let w0 := Demo.world "raw" in
  let w' := (run Demo.env l false w0).2 in
  let format := Demo.raw_at ["data"; "pims"; "upload0001"; "slide"] in
  exists ext spatial_format hist_image content,
    conversion_identifier format = Ok ext /\
    emitted w'.1 =
      emitted w0.1 ++
      conversion_trace Demo.env (self w0.1) format spatial_format ext hist_image /\
    fs w'.1 !! spatial_path_of Demo.env ext = Some (File content) /\
    fs w'.1 !! original_path_of Demo.env format =
      Some (Symlink (upload_path_of Demo.env (self w0.1))).
Proof.
  intros l w0 w' format.
  destruct (conversion_import_events Demo.env l false w0
              (move_in Demo.env l false w0).2
              (detect_format Demo.env l (move_in Demo.env l false w0).2).2
              w' format [["data"; "pims"; "upload0001"; "slide"]]
              ltac:(vm_compute; reflexivity) ltac:(vm_compute; reflexivity)
              eq_refl ltac:(vm_compute; reflexivity))
    as (ext & spatial_format & hist_image & H).
  cbn zeta in H.
  destruct H as (Hext & Hem & _ & _ & _ & _ & _ & _ & _ & Hfile).
  destruct (Hfile (demo_converter_makes_file [])) as (content & Hsp & Hop & _).
  exists ext, spatial_format, hist_image, content.
  split; [exact Hext|]. split; [exact Hem|]. split; [exact Hsp|exact Hop].
Defined.

(** C8. When the identified format needs no conversion, no
    [START_CONVERSION] event is emitted, however the import ends; and when
    it succeeds the spatial role is a link to the original role, made in
    the processed directory, so that opening one reads the bytes of the
    other. *)
Theorem no_conversion_alias (env : Env) (loggers : list Listener)
    (prefer_copy : bool) (w0 w1 : World) (format : Format) :
  identify env loggers prefer_copy w0 = (Ok (Single format), w1) ->
  need_conversion format = false ->
  (forall r w', run env loggers prefer_copy w0 = (r, w') ->
     exists evs, emitted w'.1 = emitted w0.1 ++ evs /\
                 Forall (fun ev => kind ev <> START_CONVERSION) evs) /\
  (forall r w', run env loggers prefer_copy w0 = (Ok r, w') ->
     exists pd op sp,
       processed_dir (self w'.1) = Some pd /\
       original_path (self w'.1) = Some op /\
       spatial_path (self w'.1) = Some sp /\
       sp = pd ++ [SPATIAL_STEM +:+ "." +:+ get_identifier format] /\
       fs w'.1 !! sp = Some (Symlink op) /\
       forall c, reads (fs w'.1) sp c <-> reads (fs w'.1) op c).
Proof.
  intros Hid Hn.
  assert (Hbody : run_body env loggers prefer_copy w0 =
                  (check_original_integrity env loggers format
                     ≫= deploy env loggers format) w1).
  { unfold run_body. by rewrite (bind_step _ _ _ _ _ Hid). }
  split.
  - intros r w'. unfold run, try_except. rewrite Hbody.
    destruct (emits_identify env loggers prefer_copy _ _ _ Hid)
      as (evs1 & E1 & H1).
    assert (Hrest : emits (fun k => k <> START_CONVERSION)
              (check_original_integrity env loggers format
                 ≫= deploy env loggers format)).
    { apply emits_bind; [apply emits_check_original_integrity|].
      intros original. by apply emits_deploy. }
    destruct ((check_original_integrity env loggers format
                 ≫= deploy env loggers format) w1) as [[x|e] wb] eqn:Hb.
    + intros [= <- <-]. destruct (Hrest _ _ _ Hb) as (evs2 & E2 & H2).
      exists (evs1 ++ evs2). split; [by rewrite E2, E1, app_assoc|].
      by apply Forall_app.
    + simpl. intros Hh. destruct (Hrest _ _ _ Hb) as (evs2 & E2 & H2).
      assert (Hhandler : emits (fun k => k <> START_CONVERSION)
                (upload_path ← self_upload_path;
                 notify loggers FILE_ERROR [APath upload_path]
                   [("exeception", AException e)] ;;
                 raise (A := list Path) e)) by (repeat emits_step).
      destruct (Hhandler _ _ _ Hh) as (evs3 & E3 & H3).
      exists (evs1 ++ evs2 ++ evs3).
      split; [by rewrite E3, E2, E1, <- !app_assoc|].
      apply Forall_app. split; [done|]. by apply Forall_app.
  - intros r w' Hrun. apply run_ok in Hrun. rewrite Hbody in Hrun.
    destruct w1 as [[s1 fs1 em1] o1]. destruct s1.
    apply bind_ok in Hrun as (orig & wc & Hco & Hrun).
    apply check_original_integrity_ok in Hco as (op & Eop & -> & _ & E4).
    into_worlds. subst.
    unfold deploy in Hrun. ok_run Hrun.
    match goal with H : deploy_spatial _ _ _ _ = _ |- _ =>
      apply (deploy_spatial_alias_ok _ _ _ _ _ _ Hn) in H
        as (pd & op' & Epd & Eop' & Hnone & _ & E5)
    end.
    into_worlds. subst.
    match goal with H : deploy_histogram _ _ _ _ = _ |- _ =>
      apply deploy_histogram_ok in H as (pd' & blob & Epd' & _ & E6)
    end.
    into_worlds. apply (inj Some) in Epd', Eop'. subst.
    eexists _, _, _. split; [reflexivity|]. split; [reflexivity|].
    split; [reflexivity|]. split; [reflexivity|].
    match goal with |- ?m !! ?k = Some ?v /\ _ =>
      assert (Hl : m !! k = Some v) end.
    { rewrite lookup_insert_ne by apply histogram_is_not_spatial.
      apply lookup_insert_eq. }
    split; [exact Hl|]. by apply reads_through_link.
Qed.


Lemma no_conversion_alias_witness :
  let l := [Demo.stdout] in
  let w0 := Demo.world "tiff" in
  let format := Demo.tiff_at ["data"; "pims"; "upload0001"; "slide"] in
  (forall r w', run Demo.env l false w0 = (r, w') ->
     exists evs, emitted w'.1 = emitted w0.1 ++ evs /\
                 Forall (fun ev => kind ev <> START_CONVERSION) evs) /\
  (forall r w', run Demo.env l false w0 = (Ok r, w') ->
     exists pd op sp,
       processed_dir (self w'.1) = Some pd /\
       original_path (self w'.1) = Some op /\
       spatial_path (self w'.1) = Some sp /\
       sp = pd ++ [SPATIAL_STEM +:+ "." +:+ get_identifier format] /\
       fs w'.1 !! sp = Some (Symlink op) /\
       forall c, reads (fs w'.1) sp c <-> reads (fs w'.1) op c).
Proof.
  intros l w0 format.
  apply (no_conversion_alias Demo.env l false w0
           (identify Demo.env l false w0).2 format).
  - vm_compute. reflexivity.
  - reflexivity.
Defined.

(** *** A conversion that leaves no file *)

Section Conversion.
Context (env : Env) (loggers : list Listener).
Context (Hwb : Forall well_behaved loggers).

Lemma deploy_spatial_quietly (format : Format) (p : Pipeline) (o : ObserverLog) :
  (deploy_spatial env loggers format (p, o)).1 =
    (deploy_spatial env [] format (p, o)).1 /\
  (deploy_spatial env loggers format (p, o)).2.1 =
    (deploy_spatial env [] format (p, o)).2.1.
Proof using Hwb. by apply sim_deploy_spatial. Qed.

Lemma failed_conversion (format : Format) (w : World) (ext : string)
    (pd : Path) (r : bool) (fs' : FS) :
  need_conversion format = true ->
  conversion_identifier format = Ok ext ->
  processed_dir (self w.1) = Some pd ->
  let sp := pd ++ [SPATIAL_STEM +:+ "." +:+ ext] in
  format_convert env format sp (fs w.1) = (Ok r, fs') ->
  r = false \/ path_exists fs' sp = false ->
  (deploy_spatial env loggers format w).1 = Raise FormatConversionProblem /\
  (deploy_spatial env loggers format w).2.1 =
    {| self := set_spatial_path (Some sp) (self w.1);
       fs := fs';
       emitted := emitted w.1 ++
         [evt START_SPATIAL_DEPLOY [APath (original_path (self w.1))] [];
          evt START_CONVERSION
            [APath (Some sp); APath (upload_path (self w.1))] [];
          evt ERROR_CONVERSION [APath (Some sp)] [];
          evt ERROR_CONVERSION [APath (Some sp)]
            [("exception", AException FormatConversionProblem)]] |}.
Proof using Hwb.
  intros Hn Hext Hpd sp Hconv Hbad.
  destruct w as [[s fs0 em] o]. destruct s. world_simpl. subst.
  match goal with |- context [deploy_spatial env loggers format (?p, ?o)] =>
    destruct (deploy_spatial_quietly format p o) as [-> ->] end.
  unfold deploy_spatial. rewrite Hn, Hext.
  unfold mbind, M_bind, try_except, self_original_path, self_processed_dir,
    self_upload_path, self_spatial_path, attr, assign, files, extern, lift,
    of_res, as_path, notify, raise, mret, M_ret.
  cbn -[app String.append path_exists].
  fold sp. rewrite Hconv. cbn -[app String.append path_exists].
  assert (Hc : negb r || negb (path_exists fs' sp) = true).
  { destruct Hbad as [-> | ->]; [done|]. by rewrite orb_true_r. }
  rewrite Hc. cbn -[app String.append path_exists].
  split; [reflexivity|]. f_equal. by rewrite <- !app_assoc.
Qed.
End Conversion.

Lemma run_raises (env : Env) (loggers : list Listener) (prefer_copy : bool)
    (w w' : World) (e : Exception) :
  Forall well_behaved loggers ->
  run_body env loggers prefer_copy w = (Raise e, w') ->
  (run env loggers prefer_copy w).1 = Raise e.
Proof.
  intros Hwb Hb. unfold run, try_except. rewrite Hb. simpl.
  unfold self_upload_path, attr, lift, mbind, M_bind. simpl.
  match goal with |- context [notify loggers ?m ?a ?k ?w] =>
    destruct (notify_tolerant loggers m a k w Hwb) as [log ->] end.
  reflexivity.
Qed.

Lemma failed_conversion_never_returns (env : Env) (loggers : list Listener)
    (format : Format) (w : World) (ext : string) (pd : Path) (r : bool)
    (fs' : FS) :
  need_conversion format = true ->
  conversion_identifier format = Ok ext ->
  processed_dir (self w.1) = Some pd ->
  let sp := pd ++ [SPATIAL_STEM +:+ "." +:+ ext] in
  format_convert env format sp (fs w.1) = (Ok r, fs') ->
  r = false \/ path_exists fs' sp = false ->
  forall im w', deploy_spatial env loggers format w <> (Ok im, w').
Proof.
  intros Hn Hext Hpd sp Hconv Hbad im w' H.
  apply (deploy_spatial_conversion_ok _ _ _ _ _ _ Hn) in H
    as (ext' & pd' & fs'' & sf & Hext' & Hpd' & Hconv' & Hex' & _).
  rewrite Hext in Hext'. injection Hext' as <-.
  rewrite Hpd in Hpd'. injection Hpd' as <-.
  cbn zeta in Hconv', Hex'. fold sp in Hconv', Hex'.
  rewrite Hconv in Hconv'. injection Hconv' as -> <-.
  destruct Hbad as [Hr|Hr]; [discriminate Hr|]. rewrite Hr in Hex'.
  discriminate Hex'.
Qed.

(** C7, as the code has it.  When the converter of a format that needs
    conversion returns, and either says it failed or leaves no file at the
    spatial path, then [deploy_spatial] never returns and neither does the
    import, whatever the observers do.  When no observer handler raises an
    error of its own, [deploy_spatial] raises [FormatConversionProblem]
    after the same events and with the same attributes in both cases, and
    the import raises [FormatConversionProblem]. *)
Theorem absent_target_is_conversion_failure (env : Env)
    (loggers : list Listener) (format : Format) (w : World) (ext : string)
    (pd : Path) (r : bool) (fs' : FS) :
  need_conversion format = true ->
  conversion_identifier format = Ok ext ->
  processed_dir (self w.1) = Some pd ->
  let sp := pd ++ [SPATIAL_STEM +:+ "." +:+ ext] in
  format_convert env format sp (fs w.1) = (Ok r, fs') ->
  r = false \/ path_exists fs' sp = false ->
  (forall im w', deploy_spatial env loggers format w <> (Ok im, w')) /\
  (forall (prefer_copy : bool) (w0 w1 : World) (original : Image),
     identify env loggers prefer_copy w0 = (Ok (Single format), w1) ->
     check_original_integrity env loggers format w1 = (Ok original, w) ->
     forall res w', run env loggers prefer_copy w0 <> (Ok res, w')) /\
  (Forall well_behaved loggers ->
     (deploy_spatial env loggers format w).1 = Raise FormatConversionProblem /\
     (deploy_spatial env loggers format w).2.1 =
       {| self := set_spatial_path (Some sp) (self w.1);
          fs := fs';
          emitted := emitted w.1 ++
            [evt START_SPATIAL_DEPLOY [APath (original_path (self w.1))] [];
             evt START_CONVERSION
               [APath (Some sp); APath (upload_path (self w.1))] [];
             evt ERROR_CONVERSION [APath (Some sp)] [];
             evt ERROR_CONVERSION [APath (Some sp)]
               [("exception", AException FormatConversionProblem)]] |} /\
     forall (prefer_copy : bool) (w0 w1 : World) (original : Image),
       identify env loggers prefer_copy w0 = (Ok (Single format), w1) ->
       check_original_integrity env loggers format w1 = (Ok original, w) ->
       is_spatial format = true ->
       (run env loggers prefer_copy w0).1 = Raise FormatConversionProblem).
Proof.
  intros Hn Hext Hpd sp Hconv Hbad.
  pose proof (failed_conversion_never_returns env loggers format w ext pd r fs'
                Hn Hext Hpd Hconv Hbad) as Hnever.
  split; [exact Hnever|]. split.
  { intros prefer_copy w0 w1 original Hid Hco res w' Hrun.
    apply run_ok in Hrun. unfold run_body in Hrun.
    rewrite (bind_step _ _ _ _ _ Hid) in Hrun.
    rewrite (bind_step _ _ _ _ _ Hco) in Hrun.
    unfold deploy in Hrun. apply bind_ok in Hrun as (im & wd & Hd & _).
    destruct (is_spatial format); [by eapply Hnever|discriminate Hd]. }
  intros Hwb.
  destruct (failed_conversion env loggers Hwb format w ext pd r fs'
              Hn Hext Hpd Hconv Hbad) as [Hr Hw].
  split; [exact Hr|]. split; [exact Hw|].
  intros prefer_copy w0 w1 original Hid Hco Hsp.
  destruct (deploy_spatial env loggers format w) as [res wd] eqn:Hd.
  simpl in Hr. subst res.
  apply (run_raises env loggers prefer_copy w0 wd _ Hwb).
  unfold run_body. rewrite (bind_step _ _ _ _ _ Hid).
  rewrite (bind_step _ _ _ _ _ Hco). unfold deploy. rewrite Hsp.
  by apply bind_raise.
Qed.

Lemma absent_target_is_conversion_failure_witness :
  (run (Demo.env_with false []) [Demo.stdout] false (Demo.world "raw")).1 =
    Raise FormatConversionProblem.
Proof.
  pose (E := Demo.env_with false []). pose (l := [Demo.stdout]).
  pose (w0 := Demo.world "raw").
  pose (w1 := (identify E l false w0).2).
  pose (format := Demo.raw_at ["data"; "pims"; "upload0001"; "slide"]).
  pose (w := (check_original_integrity E l format w1).2).
  assert (Hwb : Forall well_behaved l) by (repeat constructor).
  refine (proj2 (proj2 (proj2 (proj2 (absent_target_is_conversion_failure E l
            format w "PYRTIFF" ["data"; "pims"; "upload0001"; "processed"] true
            (fs w.1) eq_refl eq_refl _ _ _)) Hwb))
            false w0 w1
            (Image_init E ["data"; "pims"; "upload0001"; "processed"; "original.RAW"]
               format) _ _ eq_refl).
  - vm_compute. reflexivity.
  - reflexivity.
  - right. vm_compute. reflexivity.
  - vm_compute. reflexivity.
  - vm_compute. reflexivity.
Defined.

(** The claim as worded fails on an observer whose handler for
    [ERROR_CONVERSION] raises, as [conversion_error] of [CytomineListener]
    does on the spatial path, which it has never been told of: the converter
    says it has succeeded and leaves no file, and the import ends with the
    observer's [KeyError], not with [FormatConversionProblem]. *)
Lemma raising_conversion_observer_counterexample :
  let E := Demo.env_with false [] in
  let format := Demo.raw_at ["data"; "pims"; "upload0001"; "slide"] in
  let sp := ["data"; "pims"; "upload0001"; "processed"; "spatial.PYRTIFF"] in
  let l := [Demo.unregistered_on ERROR_CONVERSION] in
  need_conversion format = true /\
  (forall fs, format_convert E format sp fs = (Ok true, fs)) /\
  path_exists (fs (run E l false (Demo.world "raw")).2.1) sp = false /\
  (run E l false (Demo.world "raw")).1 = Raise KeyError /\
  (run E [Demo.stdout] false (Demo.world "raw")).1 = Raise FormatConversionProblem.
Proof.
  cbn zeta. split; [reflexivity|]. split; [reflexivity|].
  split; [vm_compute; reflexivity|]. split; vm_compute; reflexivity.
Qed.

(** *** The integrity check *)

Lemma check_attributes_all (getattr : string -> Res unit) (attrs : list string)
    (errors : list (string * Exception)) :
  ImageCheck.check_attributes getattr false attrs errors =
    errors ++ omap (ImageCheck.failure getattr) attrs.
Proof.
  revert errors. induction attrs as [|a attrs IH]; intros errors; simpl.
  - by rewrite app_nil_r.
  - unfold ImageCheck.failure at 1. destruct (getattr a) as [u|e]; [apply IH|].
    rewrite IH. by rewrite <- app_assoc.
Qed.

Lemma check_attributes_first (getattr : string -> Res unit) (attrs : list string)
    (errors : list (string * Exception)) :
  ImageCheck.check_attributes getattr true attrs errors =
    errors ++ take 1 (omap (ImageCheck.failure getattr) attrs).
Proof.
  induction attrs as [|a attrs IH]; simpl.
  - by rewrite app_nil_r.
  - unfold ImageCheck.failure at 1.
    destruct (getattr a) as [u|e]; [exact IH|reflexivity].
Qed.

Section Integrity.
Context (env : Env) (loggers : list Listener).
Context (Hwb : Forall well_behaved loggers).

Lemma original_gate (format : Format) (w : World) (op : Path) :
  original_path (self w.1) = Some op ->
  let im := Image_init env op format in
  let errors :=
    ImageCheck.check_integrity (image_getattr env (fs w.1) im) false true in
  (check_original_integrity env loggers format w).1 =
    match errors with
    | [] => Ok im
    | _ => Raise (ImageParsingProblem op)
    end.
Proof using Hwb.
  intros Hop im errors. destruct w as [[s fs0 em] o]. destruct s.
  world_simpl. subst.
  match goal with |- (?c (?p, ?o)).1 = _ =>
    rewrite (proj1 (sim_check_original_integrity env loggers [] Hwb
                      (List.Forall_nil _) format p o o)) end.
  unfold check_original_integrity, check_image.
  unfold mbind, M_bind, self_original_path, attr, assign, files, lift,
    as_path, notify, raise, mret, M_ret.
  cbn -[app String.append]. fold im. fold errors.
  by destruct errors.
Qed.

Lemma spatial_gate (format spatial_format : Format) (w : World)
    (ext : string) (pd : Path) (fs' : FS) :
  need_conversion format = true ->
  conversion_identifier format = Ok ext ->
  processed_dir (self w.1) = Some pd ->
  let sp := pd ++ [SPATIAL_STEM +:+ "." +:+ ext] in
  format_convert env format sp (fs w.1) = (Ok true, fs') ->
  path_exists fs' sp = true ->
  SpatialReadableFormatFactory_match env fs' sp = Some spatial_format ->
  let im := Image_init env sp spatial_format in
  let errors :=
    ImageCheck.check_integrity (image_getattr env fs' im) false true in
  (deploy_spatial env loggers format w).1 =
    match errors with
    | [] => if has_spatial_role env im then Ok (Some im)
            else Raise AssertionError
    | _ => Raise (ImageParsingProblem sp)
    end.
Proof using Hwb.
  intros Hn Hext Hpd sp Hconv Hex Hm im errors.
  destruct w as [[s fs0 em] o]. destruct s. world_simpl. subst.
  match goal with |- (?c (?p, ?o)).1 = _ =>
    rewrite (proj1 (sim_deploy_spatial env loggers [] Hwb
                      (List.Forall_nil _) format p o o)) end.
  unfold deploy_spatial, check_image. rewrite Hn, Hext.
  unfold mbind, M_bind, try_except, self_original_path, self_processed_dir,
    self_upload_path, self_spatial_path, self_spatial, attr, assign, files,
    extern, lift, of_res, as_path, notify, raise, mret, M_ret.
  cbn -[app String.append path_exists].
  fold sp. rewrite Hconv. cbn -[app String.append path_exists].
  rewrite Hex. cbn -[app String.append path_exists].
  rewrite Hm. cbn -[app String.append path_exists].
  fold im. fold errors. destruct errors; [|reflexivity].
  rewrite bool_decide_eq_false_2 by (cbn [length]; lia).
  cbn -[app String.append path_exists].
  unfold assert. by destruct (has_spatial_role env im).
Qed.
End Integrity.

(** C6, as the code has it.  Without [lazy_mode] the check records, in the
    order of the attributes, one pair for each attribute whose reading
    raises and for no other; with [lazy_mode] it returns at the first such
    attribute; without [metadata] it reads nothing.  Whatever the observers
    do, the pipeline goes past a check only when the list is empty: on the
    original and, after a conversion, on the spatial representation.  When
    no observer handler raises an error of its own, the pipeline raises
    [ImageParsingProblem] exactly when the list is not empty, at both
    places. *)
Theorem integrity_check (env : Env) (loggers : list Listener) :
  (forall getattr : string -> Res unit,
     ImageCheck.check_integrity getattr false true =
       omap (ImageCheck.failure getattr) ImageCheck.attributes /\
     ImageCheck.check_integrity getattr true true =
       take 1 (omap (ImageCheck.failure getattr) ImageCheck.attributes) /\
     forall lazy_mode, ImageCheck.check_integrity getattr lazy_mode false = []) /\
  (forall (format : Format) (w w' : World) (im : Image),
     check_original_integrity env loggers format w = (Ok im, w') ->
     ImageCheck.check_integrity (image_getattr env (fs w.1) im) false true = []) /\
  (forall (format : Format) (w w' : World) (im : option Image),
     need_conversion format = true ->
     deploy_spatial env loggers format w = (Ok im, w') ->
     exists spatial,
       im = Some spatial /\
       ImageCheck.check_integrity (image_getattr env (fs w'.1) spatial) false true
         = []) /\
  (Forall well_behaved loggers ->
     (forall (format : Format) (w : World) (op : Path),
        original_path (self w.1) = Some op ->
        let errors :=
          ImageCheck.check_integrity
            (image_getattr env (fs w.1) (Image_init env op format)) false true in
        ((check_original_integrity env loggers format w).1
           = Raise (ImageParsingProblem op) <-> errors <> []) /\
        ((check_original_integrity env loggers format w).1
           = Ok (Image_init env op format) <-> errors = [])) /\
     (forall (format spatial_format : Format) (w : World) (ext : string)
             (pd : Path) (fs' : FS),
        need_conversion format = true ->
        conversion_identifier format = Ok ext ->
        processed_dir (self w.1) = Some pd ->
        let sp := pd ++ [SPATIAL_STEM +:+ "." +:+ ext] in
        format_convert env format sp (fs w.1) = (Ok true, fs') ->
        path_exists fs' sp = true ->
        SpatialReadableFormatFactory_match env fs' sp = Some spatial_format ->
        let errors :=
          ImageCheck.check_integrity
            (image_getattr env fs' (Image_init env sp spatial_format))
            false true in
        (deploy_spatial env loggers format w).1
          = Raise (ImageParsingProblem sp) <-> errors <> [])).
Proof.
  split.
  { intros getattr. unfold ImageCheck.check_integrity. split; [|split; [|done]].
    + by rewrite check_attributes_all.
    + by rewrite check_attributes_first. }
  split.
  { intros format w w' im H.
    apply check_original_integrity_ok in H as (op & _ & -> & Herr & _).
    rewrite <- Herr. done. }
  split.
  { intros format w w' im Hn H.
    apply (deploy_spatial_conversion_ok _ _ _ _ _ _ Hn) in H
      as (ext & pd & fs' & sf & _ & _ & _ & _ & _ & Herr & -> & ->).
    eexists. split; [reflexivity|]. exact Herr. }
  intros Hwb. split.
  + intros format w op Hop errors.
    rewrite (original_gate env loggers Hwb format w op Hop).
    fold errors. destruct errors; split; split; done.
  + intros format spatial_format w ext pd fs' Hn Hext Hpd sp Hconv Hex Hm errors.
    rewrite (spatial_gate env loggers Hwb format spatial_format w ext pd fs'
               Hn Hext Hpd Hconv Hex Hm).
    fold sp. fold errors. destruct errors; [|split; done].
    split; [|done]. by destruct (has_spatial_role _ _).
Qed.

Lemma integrity_check_witness :
  let E := Demo.env_with true ["depth"; "pyramid"] in
  let l := [Demo.stdout] in
  let w := (identify E l false (Demo.world "tiff")).2 in
  let op := ["data"; "pims"; "upload0001"; "processed"; "original.PYRTIFF"] in
  let format := Demo.tiff_at ["data"; "pims"; "upload0001"; "slide"] in
  (check_original_integrity E l format w).1 = Raise (ImageParsingProblem op).
Proof.
  intros E l w op format.
  assert (Hwb : Forall well_behaved l) by (repeat constructor).
  apply (proj1 (proj1 (proj2 (proj2 (proj2 (integrity_check E l))) Hwb) format w op
                  ltac:(vm_compute; reflexivity))).
  vm_compute. discriminate.
Defined.

(** The claim as worded fails on an observer whose handler for
    [ERROR_INTEGRITY_CHECK] raises, as [integrity_error] of
    [CytomineListener] does on the path of the original role, which it has
    never been told of: two attributes cannot be read, the list of errors is
    not empty, and the import ends with the observer's [KeyError], not with
    [ImageParsingProblem]. *)
Lemma raising_integrity_observer_counterexample :
  let E := Demo.env_with true ["depth"; "pyramid"] in
  let l := [Demo.unregistered_on ERROR_INTEGRITY_CHECK] in
  let w := (identify E l false (Demo.world "tiff")).2 in
  let op := ["data"; "pims"; "upload0001"; "processed"; "original.PYRTIFF"] in
  let format := Demo.tiff_at ["data"; "pims"; "upload0001"; "slide"] in
  ImageCheck.check_integrity
    (image_getattr E (fs w.1) (Image_init E op format)) false true =
    [("depth", ValueError); ("pyramid", ValueError)] /\
  (check_original_integrity E l format w).1 = Raise KeyError /\
  (run E l false (Demo.world "tiff")).1 = Raise KeyError /\
  (run E [Demo.stdout] false (Demo.world "tiff")).1 =
    Raise (ImageParsingProblem op).
Proof.
  cbn zeta. split; [vm_compute; reflexivity|].
  split; [vm_compute; reflexivity|]. split; vm_compute; reflexivity.
Qed.

(** *** Collections *)

Lemma import_collection_result (env : Env) (loggers : list Listener)
    (collection : Path) (prefer_copy : bool) (w w' : World) (r : list Path) :
  import_collection env loggers collection prefer_copy w = (Ok r, w') -> r = [].
Proof. unfold import_collection. intros H. by ok_run H. Qed.

(** C1, on the code.  A collection of two children, both registered and
    both handed to the worker pool, comes back from [run] as the empty
    list. *)
Theorem collection_import_returns_no_child :
  let w' := (run Demo.env [Demo.stdout] false (Demo.world "zip")).2 in
  (run Demo.env [Demo.stdout] false (Demo.world "zip")).1 = Ok [] /\
  length (filter (fun ev => kind ev = REGISTER_FILE) (emitted w'.1)) = 2%nat /\
  length (get_extracted_children Demo.env (fs w'.1)
            ["data"; "pims"; "upload0001"; "processed"; "original.ZIP"]) = 2%nat.
Proof. vm_compute. repeat split. Qed.

(** What [run] returns when it returns: nothing for a collection, whatever
    its children, and the place of the upload for a single image. *)
Lemma run_result (env : Env) (loggers : list Listener) (prefer_copy : bool)
    (w0 w1 w' : World) (identified : Identified) (r : list Path) :
  identify env loggers prefer_copy w0 = (Ok identified, w1) ->
  run env loggers prefer_copy w0 = (Ok r, w') ->
  match identified with
  | Collection _ => r = []
  | Single _ => exists up, upload_path (self w'.1) = Some up /\ r = [up]
  end.
Proof.
  intros Hid Hrun. apply run_ok in Hrun. unfold run_body in Hrun.
  rewrite (bind_step _ _ _ _ _ Hid) in Hrun.
  destruct identified as [c|format].
  - apply ret_ok in Hrun as [-> _].
    unfold identify in Hid. ok_run Hid.
    match goal with H : create_original_role _ _ _ _ _ _ = _ |- _ =>
      unfold create_original_role in H; ok_run H end.
    all: try match goal with H : Collection _ = Single _ |- _ => discriminate H end.
    match goal with H : import_collection _ _ _ _ _ = _ |- _ =>
      apply import_collection_result in H end.
    congruence.
  - ok_run Hrun. unfold deploy in Hrun. ok_run Hrun.
    eexists. split; [|reflexivity]. into_worlds. done.
Qed.

End ImportRuns.

(** ** The histogram queries at their edges *)

Module HistogramEdges.
Import Histograms HistogramFacts.
Local Open Scope Z_scope.

Lemma pow2_divides (a b : Z) : 0 <= a <= b -> 2 ^ b mod 2 ^ a = 0.
Proof.
  intros H. replace b with (b - a + a) by lia.
  rewrite Z.pow_add_r by lia. apply Z.mod_mul.
  pose proof (Z.pow_pos_nonneg 2 a ltac:(lia) ltac:(lia)). lia.
Qed.

Lemma same_total_refl (hist : list Z) : same_total hist hist.
Proof. by split. Qed.

Lemma binned_length (hist : list Z) (n : Z) (binned : list Z) :
  0 < n -> _histogram_binning hist n = Ok binned ->
  len binned = n /\ same_total binned hist.
Proof.
  intros Hn. unfold _histogram_binning, py_mod, reshape_rows.
  destruct (Z.eqb_spec n 0); [lia|].
  destruct (Z.eqb_spec (len hist mod n) 0) as [Hmod|]; [|done]. simpl.
  destruct (Z.ltb_spec n 0); [lia|]. intros [= <-].
  assert (Hsize : length hist = (Z.to_nat n * Z.to_nat (len hist / n))%nat).
  { assert (len hist = n * (len hist / n)) by (apply Z.div_exact; lia).
    assert (0 <= len hist / n) by (apply Z.div_pos; unfold len; lia).
    unfold len in *. nia. }
  split; [|split].
  - unfold len. rewrite length_fmap, length_chunks. lia.
  - apply wrap64_congr. rewrite sum_wrapped. by rewrite sum_chunks.
  - intros Hnn Htot. rewrite np_sum_chunks_exact by done. by apply sum_chunks.
Qed.

Lemma formatter_n_bins (hist : list Z) (bounds : Z * Z) (n : Z)
    (full_range : bool) (out : Formatted) :
  histogram_formatter hist bounds n full_range = Ok out -> n_bins out = n.
Proof.
  destruct bounds as [mini maxi]. unfold histogram_formatter.
  destruct (n =? len hist); [by intros [= <-]|].
  destruct (_histogram_binning hist n); [by intros [= <-]|done].
Qed.

(** X2. What [histogram_formatter] can do.  With a bin count equal to the
    length it always answers.  Whenever it answers, [n_bins] is the bin
    count asked for, [minimum] and [maximum] are the stored bounds whatever
    the binning, and the array has exactly [n_bins] bins when the full range
    is asked for and never more otherwise; the full range holds the total of
    the raw histogram as far as sums in 64 bits keep it ([same_total]).
    When it fails, it is with
    [ZeroDivisionError] for a bin count of zero, with the "cannot make bins"
    bad request for a bin count that does not divide the length, or with
    the [ValueError] of [reshape] for a negative bin count that divides
    it. *)
Theorem histogram_formatter_outcomes (hist : list Z) (bounds : Z * Z)
    (n : Z) (full_range : bool) :
  (n = len hist -> exists out, histogram_formatter hist bounds n full_range = Ok out) /\
  (forall out, histogram_formatter hist bounds n full_range = Ok out ->
     n_bins out = n /\ minimum out = bounds.1 /\ maximum out = bounds.2 /\
     0 <= n /\
     len (histogram out) <= n /\
     (full_range = true -> len (histogram out) = n /\
                           same_total (histogram out) hist)) /\
  (forall e, histogram_formatter hist bounds n full_range = Raise e ->
     n <> len hist /\
     ((n = 0 /\ e = ZeroDivisionError) \/
      (n <> 0 /\ len hist mod n <> 0 /\
       e = BadRequestException (CannotMakeBins n (len hist))) \/
      (n < 0 /\ len hist mod n = 0 /\ e = ValueError))).
Proof.
  assert (Hslice : forall (l : list Z) a b, len (py_slice l a b) <= len l).
  { intros l a b. unfold py_slice, len. rewrite length_take, length_drop. lia. }
  destruct bounds as [mini maxi]. unfold histogram_formatter.
  destruct (Z.eqb_spec n (len hist)) as [->|Hne].
  - split; [intros _; eauto|]. split; [|done].
    intros out [= <-]. cbn. split; [done|]. split; [done|]. split; [done|].
    split; [unfold len; lia|]. destruct full_range; cbn.
    + split; [lia|]. split; [done|apply same_total_refl].
    + split; [apply Hslice|done].
  - split; [done|].
    destruct (_histogram_binning hist n) as [binned|e0] eqn:Hb.
    + split; [|done]. intros out [= <-]. cbn.
      assert (Hpos : 0 < n).
      { revert Hb. unfold _histogram_binning, py_mod, reshape_rows.
        destruct (Z.eqb_spec n 0); [done|].
        destruct (negb (len hist mod n =? 0)); [done|]. cbn.
        destruct (Z.ltb_spec n 0); [done|]. lia. }
      destruct (binned_length hist n binned Hpos Hb) as [Hl Hs].
      split; [done|]. split; [done|]. split; [done|]. split; [lia|].
      destruct full_range; cbn.
      * split; [lia|]. done.
      * split; [|done]. rewrite <- Hl. apply Hslice.
    + split; [done|]. intros e [= <-]. split; [done|].
      revert Hb. unfold _histogram_binning, py_mod, reshape_rows.
      destruct (Z.eqb_spec n 0) as [->|Hn0]; [intros [= <-]; by left|].
      destruct (Z.eqb_spec (len hist mod n) 0) as [Hmod|Hmod]; cbn.
      * destruct (Z.ltb_spec n 0); [|done]. intros [= <-]. right. right. done.
      * intros [= <-]. right. left. done.
Qed.

(** A histogram of [2 ^ b] bins can be brought to any power of two that
    is clamped to its length. *)
Lemma power_of_two_fits (hist : list Z) (bounds : Z * Z) (n b : Z)
    (full_range : bool) :
  0 <= b -> len hist = 2 ^ b -> is_power_of_2 n = true ->
  exists out,
    histogram_formatter hist bounds (parse_n_bins n (2 ^ b)) full_range = Ok out /\
    n_bins out = Z.min n (2 ^ b) /\
    minimum out = bounds.1 /\ maximum out = bounds.2 /\
    (full_range = true ->
       len (histogram out) = n_bins out /\ same_total (histogram out) hist).
Proof.
  intros Hb Hlen Hpow.
  assert (Hp : 0 < 2 ^ b) by (apply Z.pow_pos_nonneg; lia).
  apply is_power_of_2_log2 in Hpow as Hn. set (k := Z.log2 n) in *.
  assert (Hk : 0 <= k) by apply Z.log2_nonneg.
  unfold parse_n_bins.
  set (eff := if n <=? 2 ^ b then n else 2 ^ b).
  assert (Heff : eff = Z.min n (2 ^ b)).
  { unfold eff. destruct (Z.leb_spec n (2 ^ b)); lia. }
  assert (Hmod : len hist mod eff = 0).
  { rewrite Hlen, Heff. destruct (Z.le_gt_cases n (2 ^ b)) as [Hle|Hgt].
    - rewrite Z.min_l by lia. rewrite Hn. apply pow2_divides.
      split; [done|]. apply (Z.pow_le_mono_r_iff 2); lia.
    - rewrite Z.min_r by lia. apply Z.mod_same. lia. }
  assert (Hepos : 0 < eff).
  { rewrite Heff. pose proof (is_power_of_2_pos n Hpow). lia. }
  destruct bounds as [mini maxi].
  unfold histogram_formatter.
  destruct (Z.eqb_spec eff (len hist)) as [He|He].
  - eexists. split; [reflexivity|]. cbn. split; [congruence|].
    split; [done|]. split; [done|]. intros ->. cbn.
    split; [congruence|apply same_total_refl].
  - rewrite (binning_even _ _ Hepos Hmod).
    eexists. split; [reflexivity|]. cbn. split; [congruence|].
    split; [done|]. split; [done|]. intros ->. cbn.
    destruct (binned_length _ _ _ Hepos (binning_even _ _ Hepos Hmod))
      as [Hl Hs].
    split; [congruence|done].
Qed.

(** X3. On an image whose stored histogram has one bin per value of its
    range, [2 ^ significant_bits], and which has at most 62 significant
    bits, the per-image histogram query answers for every bin count that is
    a power of two: the clamped bin count always divides the length, so the
    "cannot make bins" error cannot occur.  The answer has [min n_bins
    (2 ^ significant_bits)] bins in its full range, which hold the total of
    the stored histogram as far as sums in 64 bits keep it.  From 63
    significant bits on the query raises [OverflowError]. *)
Theorem power_of_two_bins_always_fit (im : SpatialImage) (n : Z)
    (full_range : bool) :
  img_exists im = true ->
  len (image_histogram im) = 2 ^ Z.of_N (significant_bits im) ->
  is_power_of_2 n = true ->
  ((significant_bits im <= 62)%N ->
     exists out,
       show_image_histogram im n full_range = Ok out /\
       n_bins out = Z.min n (2 ^ Z.of_N (significant_bits im)) /\
       minimum out = (image_bounds im).1 /\ maximum out = (image_bounds im).2 /\
       (full_range = true ->
          len (histogram out) = n_bins out /\
          same_total (histogram out) (image_histogram im))) /\
  ((63 <= significant_bits im)%N ->
     show_image_histogram im n full_range = Raise OverflowError).
Proof.
  intros Hex Hlen Hpow.
  set (b := Z.of_N (significant_bits im)) in *.
  assert (Hb : 0 <= b) by (unfold b; lia).
  assert (Hp : 0 < 2 ^ b) by (apply Z.pow_pos_nonneg; lia).
  unfold show_image_histogram, HistogramConfig_init,
    check_representation_existence. rewrite Hpow, Hex. cbn.
  unfold effective_n_bins. split.
  - intros Hbits. rewrite (len_value_range_small im Hbits). cbn. fold b.
    by apply power_of_two_fits.
  - intros Hbits. by rewrite (len_value_range_wide im Hbits).
Qed.

Lemma power_of_two_bins_always_fit_witness :
  let im := {| img_exists := true; significant_bits := 3;
               image_histogram := [0; 4; 0; 1; 2; 0; 0; 0];
               image_bounds := (1, 4) |} in
  exists out, show_image_histogram im 2 true = Ok out /\ histogram out = [5; 2].
Proof.
  intros im.
  destruct (proj1 (power_of_two_bins_always_fit im 2 true eq_refl eq_refl eq_refl)
              ltac:(vm_compute; discriminate))
    as (out & Hout & _).
  exists out. split; [exact Hout|].
  assert (E : Ok out = show_image_histogram im 2 true) by (symmetry; exact Hout).
  vm_compute in E. injection E as ->. reflexivity.
Defined.

End HistogramEdges.

(** ** Facts about the request parameters *)

Module ParameterFacts.
Import ImageParameter.
Local Open Scope Z_scope.

(** *** Ordered sets *)

Lemma foldl_fresh_of (l seen : list Z) :
  foldl (fun seen x => if decide (x ∈ seen) then seen else seen ++ [x]) seen l
  = seen ++ fresh_of seen l.
Proof.
  revert seen. induction l as [|x r IH]; intros seen; simpl.
  - by rewrite app_nil_r.
  - destruct (decide (x ∈ seen)); rewrite IH; [done|].
    by rewrite <- app_assoc.
Qed.

Lemma OrderedSet_fresh_of (l : list Z) : OrderedSet l = fresh_of [] l.
Proof. unfold OrderedSet. by rewrite foldl_fresh_of. Qed.

Lemma fresh_of_elem (l seen : list Z) (x : Z) :
  x ∈ fresh_of seen l <-> x ∈ l /\ x ∉ seen.
Proof.
  revert seen. induction l as [|y r IH]; intros seen; simpl.
  - split; [by intros ?%elem_of_nil|by intros [?%elem_of_nil _]].
  - destruct (decide (y ∈ seen)) as [Hy|Hy].
    + rewrite IH, elem_of_cons. split; [by intros [? ?]; auto|].
      intros [[->|?] ?]; [done|auto].
    + rewrite elem_of_cons, IH, elem_of_cons, elem_of_app, list_elem_of_singleton.
      split.
      * intros [->|[? ?]]; [auto|]. split; [auto|]. tauto.
      * intros [[->|?] ?]; [auto|].
        destruct (decide (x = y)) as [->|]; [auto|]. right. split; [done|].
        intros [?|?]; done.
Qed.

Lemma fresh_of_NoDup (l seen : list Z) : NoDup (fresh_of seen l).
Proof.
  revert seen. induction l as [|y r IH]; intros seen; simpl; [constructor|].
  destruct (decide (y ∈ seen)); [apply IH|].
  constructor; [|apply IH]. rewrite fresh_of_elem.
  intros [_ Hn]. apply Hn. apply elem_of_app. right. by apply list_elem_of_singleton.
Qed.

Lemma fresh_of_sublist (l seen : list Z) : fresh_of seen l `sublist_of` l.
Proof.
  revert seen. induction l as [|y r IH]; intros seen; simpl; [done|].
  destruct (decide (y ∈ seen)); [by apply sublist_cons|by apply sublist_skip].
Qed.

Lemma fresh_of_NoDup_id (l seen : list Z) :
  NoDup l -> (forall x, x ∈ l -> x ∉ seen) -> fresh_of seen l = l.
Proof.
  revert seen. induction l as [|y r IH]; intros seen Hnd Hs; simpl; [done|].
  apply NoDup_cons in Hnd as [Hy Hr].
  destruct (decide (y ∈ seen)) as [Hin|_].
  - exfalso. apply (Hs y); [left|done].
  - f_equal. apply IH; [done|]. intros x Hx.
    rewrite elem_of_app, list_elem_of_singleton. intros [Hin| ->]; [|done].
    apply (Hs x); [by right|done].
Qed.

(** [OrderedSet] keeps one copy of every element, in the order in which
    the elements first occur: the result has no repetition, has the elements
    of the list and no other, is a subsequence of the list, grows at its end
    only when an element not yet seen is appended to the list, and is the
    list itself when the list has no repetition. *)
Lemma OrderedSet_first_occurrences (l : list Z) :
  NoDup (OrderedSet l) /\
  (forall x, x ∈ OrderedSet l <-> x ∈ l) /\
  OrderedSet l `sublist_of` l /\
  (forall x, OrderedSet (l ++ [x]) =
             OrderedSet l ++ (if decide (x ∈ l) then [] else [x])) /\
  (NoDup l -> OrderedSet l = l).
Proof.
  assert (Hel : forall x, x ∈ OrderedSet l <-> x ∈ l).
  { intros x. rewrite OrderedSet_fresh_of, fresh_of_elem.
    split; [by intros [? _]|]. intros ?. split; [done|]. by intros ?%elem_of_nil. }
  split; [rewrite OrderedSet_fresh_of; apply fresh_of_NoDup|].
  split; [exact Hel|].
  split; [rewrite OrderedSet_fresh_of; apply fresh_of_sublist|]. split.
  - intros x.
    assert (Hstep : OrderedSet (l ++ [x]) =
              if decide (x ∈ OrderedSet l) then OrderedSet l
              else OrderedSet l ++ [x]).
    { unfold OrderedSet. by rewrite foldl_app. }
    rewrite Hstep.
    destruct (decide (x ∈ OrderedSet l)) as [Hin|Hin];
      destruct (decide (x ∈ l)) as [Hl|Hl].
    + by rewrite app_nil_r.
    + exfalso. apply Hl. by apply Hel.
    + exfalso. apply Hin. by apply Hel.
    + done.
  - intros Hnd. rewrite OrderedSet_fresh_of.
    apply fresh_of_NoDup_id; [done|]. intros x _ ?%elem_of_nil. done.
Qed.

(** Where [x] stands before [y] in the ordered set, the list names [x] at
    a place before which it has not named [y]. *)
Lemma OrderedSet_order (src : list Z) (i j : nat) (x y : Z) :
  OrderedSet src !! i = Some x -> OrderedSet src !! j = Some y -> (i < j)%nat ->
  exists k : nat, src !! k = Some x /\ y ∉ take k src.
Proof.
  revert i j x y. induction src as [|z src IH] using rev_ind; intros i j x y.
  { by intros ?. }
  destruct (OrderedSet_first_occurrences src) as (_ & Hel & _ & Hsnoc & _).
  rewrite (Hsnoc z). intros Hi Hj Hij.
  assert (Hold : forall k : nat, src !! k = Some x -> y ∉ take k src ->
            exists k : nat, (src ++ [z]) !! k = Some x /\ y ∉ take k (src ++ [z])).
  { intros k Hk Hy. exists k. pose proof (lookup_lt_Some _ _ _ Hk).
    split; [by rewrite lookup_app_l|].
    rewrite take_app_le by lia. done. }
  destruct (decide (j < length (OrderedSet src))%nat) as [Hlt|Hge].
  - rewrite lookup_app_l in Hi by lia. rewrite lookup_app_l in Hj by lia.
    destruct (IH _ _ _ _ Hi Hj Hij) as (k & Hk & Hy). by eapply Hold.
  - destruct (decide (z ∈ src)) as [Hz|Hz].
    { rewrite app_nil_r in Hj. apply lookup_lt_Some in Hj. lia. }
    assert (j = length (OrderedSet src)).
    { apply lookup_lt_Some in Hj. rewrite length_app in Hj. simpl in Hj. lia. }
    subst j. rewrite lookup_app_r in Hj by lia. rewrite Nat.sub_diag in Hj.
    injection Hj as <-.
    rewrite lookup_app_l in Hi by lia.
    assert (Hx : x ∈ src) by (apply Hel; by eapply list_elem_of_lookup_2).
    apply list_elem_of_lookup_1 in Hx as [k Hk].
    apply (Hold k Hk). intros Hin. apply Hz.
    eapply elem_of_sublist; [exact Hin|]. apply sublist_take.
Qed.

(** An element kept by a filter, with what the filter kept before it. *)
Lemma filter_lookup_origin (P : Z -> Prop) `{!forall x, Decision (P x)}
    (src : list Z) (k : nat) (x : Z) :
  filter P src !! k = Some x ->
  exists k' : nat, src !! k' = Some x /\
                   take k (filter P src) = filter P (take k' src).
Proof.
  revert k. induction src as [|a r IH]; intros k; [done|].
  destruct (decide (P a)) as [Ha|Ha].
  - rewrite filter_cons_True by done. destruct k as [|k]; cbn [lookup list_lookup].
    + intros [= <-]. exists 0%nat. done.
    + intros Hk. destruct (IH k Hk) as (k' & Hk' & E). exists (S k').
      split; [done|]. cbn [take]. rewrite filter_cons_True by done. by rewrite E.
  - rewrite filter_cons_False by done. intros Hk.
    destruct (IH k Hk) as (k' & Hk' & E). exists (S k'). split; [done|].
    cbn [take]. by rewrite filter_cons_False.
Qed.

(** *** Planes *)

Section Planes.
Context (is_range : string -> bool).
Context (parse_range : string -> Z -> Z -> list Z).

Lemma collect_planes_valid (planes : list Plane) (n : Z) (name : string)
    (acc : list Z) :
  Forall (valid_plane is_range) planes ->
  collect_planes is_range parse_range planes n name acc =
    Gives (acc ++ (planes ≫= expand parse_range n)).
Proof.
  revert acc. induction planes as [|p rest IH]; intros acc Hv; simpl.
  - by rewrite app_nil_r.
  - apply Forall_cons in Hv as [Hp Hrest]. destruct p as [i|t]; simpl.
    + rewrite IH by done. by rewrite <- app_assoc.
    + simpl in Hp. rewrite Hp, IH by done. by rewrite <- app_assoc.
Qed.

Lemma collect_planes_invalid (pre post : list Plane) (t : string) (n : Z)
    (name : string) (acc : list Z) :
  Forall (valid_plane is_range) pre -> is_range t = false ->
  collect_planes is_range parse_range (pre ++ PlaneText t :: post) n name acc =
    Fails (BadRequestProblem
             (t +:+ " is not a valid index or range for " +:+ name +:+ ".")).
Proof.
  revert acc. induction pre as [|p rest IH]; intros acc Hv Ht; simpl.
  - by rewrite Ht.
  - apply Forall_cons in Hv as [Hp Hrest]. destruct p as [i|u]; simpl.
    + by apply IH.
    + simpl in Hp. rewrite Hp. by apply IH.
Qed.

(** X5. [parse_planes] on a request that is not empty.  When every item is
    an index or a range, the answer holds each index that the request names
    and that lies in [0, n_planes), once, in the order in which the request
    first names it: where [x] stands before [y] in the answer, the request
    names [x] at a place before which it has not named [y].  Indexes outside
    the range are dropped without an error, so the answer may be empty.
    The first item that is neither an index nor a range makes the whole
    request a [BadRequestProblem] that names it. *)
Theorem parse_planes_selection (planes : list Plane) (n_planes : Z)
    (default : Param Z) (name : string) :
  planes <> [] ->
  (Forall (valid_plane is_range) planes ->
     let named := planes ≫= expand parse_range n_planes in
     exists l,
       parse_planes is_range parse_range planes n_planes default name = Gives l /\
       NoDup l /\
       (forall x, x ∈ l <-> x ∈ named /\ 0 <= x < n_planes) /\
       (forall (i j : nat) x y,
          l !! i = Some x -> l !! j = Some y -> (i < j)%nat ->
          exists k : nat, named !! k = Some x /\ y ∉ take k named)) /\
  (forall pre t post,
     planes = pre ++ PlaneText t :: post ->
     Forall (valid_plane is_range) pre -> is_range t = false ->
     parse_planes is_range parse_range planes n_planes default name =
       Fails (BadRequestProblem
                (t +:+ " is not a valid index or range for " +:+ name +:+ "."))).
Proof.
  intros Hne.
  assert (Hlen : (Z.of_nat (length planes) =? 0) = false).
  { apply Z.eqb_neq. destruct planes; [done|]. simpl. lia. }
  split.
  - intros Hv. unfold parse_planes. rewrite Hlen.
    rewrite collect_planes_valid by done. cbn [app].
    eexists. split; [reflexivity|].
    set (src := planes ≫= expand parse_range n_planes).
    destruct (OrderedSet_first_occurrences
                (filter (fun idx => 0 <= idx < n_planes) src))
      as (Hnd & Hel & Hsub & _).
    split; [exact Hnd|]. split.
    + intros x. rewrite Hel, list_elem_of_filter. tauto.
    + intros i j x y Hi Hj Hij.
      destruct (OrderedSet_order _ _ _ _ _ Hi Hj Hij) as (k & Hk & Hy).
      destruct (filter_lookup_origin _ _ _ _ Hk) as (k' & Hk' & E).
      exists k'. split; [done|]. intros Hin. apply Hy. rewrite E.
      apply list_elem_of_filter. split; [|done].
      apply list_elem_of_lookup_2 in Hj. apply Hel in Hj.
      by apply list_elem_of_filter in Hj as [? _].
  - intros pre t post -> Hv Ht. unfold parse_planes. rewrite Hlen.
    by rewrite collect_planes_invalid.
Qed.



(** X6. The planes of a request that names none.  [parse_planes] then
    answers with the default as it is, without looking at the number of
    planes: all the channels in order for [get_channel_indexes], the first
    timepoint for [get_timepoint_indexes] even on an image without any
    timepoint.  A request that names only indexes outside the range is
    another matter: it selects nothing. *)
Theorem parse_planes_default (n_planes : Z) (name : string) :
  (forall default : Param Z,
     parse_planes is_range parse_range [] n_planes default name =
       Gives (OrderedSet (ensure_list default))) /\
  get_channel_indexes is_range parse_range n_planes [] =
    Gives (seqZ 0 n_planes) /\
  get_timepoint_indexes is_range parse_range n_planes [] = Gives [0] /\
  (forall i, ~ 0 <= i < n_planes ->
     get_channel_indexes is_range parse_range n_planes [PlaneIndex i] = Gives []).
Proof.
  split; [done|]. split; [|split; [done|]].
  - unfold get_channel_indexes, parse_planes. cbn.
    f_equal. apply OrderedSet_first_occurrences. apply NoDup_seqZ.
  - intros i Hi. unfold get_channel_indexes, parse_planes. cbn.
    rewrite decide_False by done. done.
Qed.
End Planes.

Lemma parse_planes_selection_witness :
  exists l,
    parse_planes (fun _ => false) (fun _ _ _ => [])
      [PlaneIndex 2; PlaneIndex 7; PlaneIndex 0; PlaneIndex 2] 3 (One 0)
      "channels" = Gives l /\
    l = [2; 0] /\
    forall x, x ∈ l <-> x ∈ [2; 7; 0; 2] /\ 0 <= x < 3.
Proof.
  destruct (proj1 (parse_planes_selection (fun _ => false) (fun _ _ _ => [])
                     [PlaneIndex 2; PlaneIndex 7; PlaneIndex 0; PlaneIndex 2]
                     3 (One 0) "channels" ltac:(discriminate))
              ltac:(repeat constructor)) as (l & Hl & _ & Hel & _).
  exists l. split; [exact Hl|]. split; [|exact Hel].
  assert (E : Gives l = Gives [2; 0]) by (rewrite <- Hl; reflexivity).
  by injection E.
Defined.

(** *** Output dimensions *)

(** X7. [safeguard_output_dimensions].  Dimensions within the maximum are
    returned as they are in every mode.  Above the maximum, [SAFE_REJECT]
    raises [TooLargeOutputProblem] with the request and the maximum, and
    [UNSAFE], like any mode that is none of the three, lets the dimensions
    through.  [SAFE_RESIZE] divides the maximum by the larger side (the
    height when both sides are equal) and rounds the product of the ratio
    and the other side: when it answers, the larger side is exactly the
    maximum; it fails only where the division or the rounding raises. *)
Theorem safeguard_modes {F : Type} (true_div : Z -> Z -> Res F)
    (round_times : F -> Z -> Res Z) (safe_mode : string)
    (max_size width height : Z) :
  let guard := safeguard_output_dimensions true_div round_times in
  let too_large := max_size < width \/ max_size < height in
  let larger := if height <? width then width else height in
  let other := if height <? width then height else width in
  (~ too_large -> guard safe_mode max_size width height = Gives (width, height)) /\
  (too_large ->
     guard "SAFE_REJECT" max_size width height =
       Fails (TooLargeOutputProblem width height max_size) /\
     guard "UNSAFE" max_size width height = Gives (width, height) /\
     (safe_mode <> "SAFE_REJECT" -> safe_mode <> "SAFE_RESIZE" ->
        guard safe_mode max_size width height = Gives (width, height)) /\
     (0 <= max_size ->
        guard "SAFE_RESIZE" max_size width height =
          (ratio ← builtin (true_div max_size larger);
           resized ← rounded round_times ratio other;
           mret (if height <? width then (max_size, resized)
                 else (resized, max_size))) /\
        (forall w h, guard "SAFE_RESIZE" max_size width height = Gives (w, h) ->
           (height < width -> w = max_size) /\
           (width <= height -> h = max_size)) /\
        (forall p, guard "SAFE_RESIZE" max_size width height = Fails p ->
           exists e, p = Builtin e /\
             (true_div max_size larger = Raise e \/
              exists ratio, true_div max_size larger = Ok ratio /\
                            round_times ratio other = Raise e)))).
Proof.
  intros guard too_large larger other. subst guard too_large.
  unfold safeguard_output_dimensions. split.
  - intros Hok.
    assert (Hc : (max_size <? width) || (max_size <? height) = false).
    { apply orb_false_iff. split; apply Z.ltb_ge; lia. }
    rewrite Hc, !andb_false_r. by destruct (bool_decide _).
  - intros Hbig.
    assert (Hc : (max_size <? width) || (max_size <? height) = true).
    { apply orb_true_iff. destruct Hbig; [left|right]; apply Z.ltb_lt; lia. }
    rewrite Hc. split; [done|]. split; [done|]. split.
    + intros H1 H2. rewrite !andb_true_r.
      destruct (bool_decide (safe_mode = "UNSAFE")); [done|].
      rewrite (bool_decide_eq_false_2 _ H1), (bool_decide_eq_false_2 _ H2). done.
    + intros Hmax. cbn [bool_decide decide_rel andb].
      assert (Hresize :
        (if height <? width
         then get_rationed_resizing true_div round_times (Absolute max_size)
                width height
         else swap_outcome
                (get_rationed_resizing true_div round_times (Absolute max_size)
                   height width)) =
        (ratio ← builtin (true_div max_size larger);
         resized ← rounded round_times ratio other;
         mret (if height <? width then (max_size, resized)
               else (resized, max_size)))).
      { subst larger other. unfold get_rationed_resizing, quotient, rounded.
        destruct (Z.ltb_spec height width) as [Hlt|Hge].
        - destruct (Z.eqb_spec width 0); [lia|]. done.
        - destruct (Z.eqb_spec height 0); [lia|].
          destruct (true_div max_size height) as [ratio|e]; [|done]. cbn.
          by destruct (round_times ratio width). }
      replace (bool_decide ("SAFE_RESIZE" = "UNSAFE")) with false by done.
      replace (bool_decide ("SAFE_RESIZE" = "SAFE_REJECT")) with false by done.
      replace (bool_decide ("SAFE_RESIZE" = "SAFE_RESIZE")) with true by done.
      cbn [andb]. rewrite Hresize. split; [done|].
      destruct (true_div max_size larger) as [ratio|e] eqn:Ed; cbn.
      * unfold rounded.
        destruct (round_times ratio other) as [resized|e] eqn:Er; cbn.
        -- split; [|done]. intros w h.
           destruct (Z.ltb_spec height width); intros [= <- <-]; lia.
        -- split; [done|]. intros p [= <-]. exists e. split; [done|].
           right. by exists ratio.
      * split; [done|]. intros p [= <-]. exists e. split; [done|]. by left.
Qed.

Lemma safeguard_modes_witness :
  safeguard_output_dimensions (fun a b => Ok (a, b))
    (fun r n => Ok (n * r.1 / r.2))
    "SAFE_RESIZE" 1000 4000 3000 = Gives (1000, 750).
Proof.
  destruct (proj2 (safeguard_modes (fun a b => Ok (a, b))
                     (fun (r : Z * Z) n => Ok (n * r.1 / r.2)) "" 1000 4000 3000)
              ltac:(left; lia)) as (_ & _ & _ & H).
  destruct (H ltac:(lia)) as (E & _). rewrite E. reflexivity.
Defined.

(** X8. [get_output_dimensions]: the height rules when it is given,
    whatever the width and the length; the width rules when there is no
    height; the length is applied to the larger side of the image (to its
    height when the sides are equal); and a request with none of the three
    is a [BadRequestProblem].  A size in pixels is divided by the side it is
    given for, which must not be zero, and the other side is the rounded
    product of the ratio; a ratio is applied to both sides, the ruling one
    first.  When there is an answer, the size given in pixels comes back as
    it is on its side. *)
Theorem output_dimensions_precedence {F : Type} (true_div : Z -> Z -> Res F)
    (round_times : F -> Z -> Res Z) (image_width image_height : Z)
    (width length : option (Size F)) :
  let dims := get_output_dimensions true_div round_times image_width image_height in
  (forall height,
     dims (Some height) width length = dims (Some height) None None) /\
  (forall width', dims None (Some width') length = dims None (Some width') None) /\
  (forall length',
     dims None None (Some length') =
       if image_height <? image_width then dims None (Some length') None
       else dims (Some length') None None) /\
  (forall n,
     dims (Some (Absolute n)) None None =
       (ratio ← quotient true_div n image_height;
        w ← rounded round_times ratio image_width; mret (w, n)) /\
     dims None (Some (Absolute n)) None =
       (ratio ← quotient true_div n image_width;
        h ← rounded round_times ratio image_height; mret (n, h))) /\
  (forall f,
     dims (Some (Ratio f)) None None =
       (h ← rounded round_times f image_height;
        w ← rounded round_times f image_width; mret (w, h)) /\
     dims None (Some (Ratio f)) None =
       (w ← rounded round_times f image_width;
        h ← rounded round_times f image_height; mret (w, h))) /\
  (forall n w h,
     (dims (Some (Absolute n)) width length = Gives (w, h) ->
        h = n /\ image_height <> 0) /\
     (dims None (Some (Absolute n)) length = Gives (w, h) ->
        w = n /\ image_width <> 0)) /\
  (forall n,
     (image_height = 0 ->
        dims (Some (Absolute n)) width length = Fails (Builtin ZeroDivisionError)) /\
     (image_width = 0 ->
        dims None (Some (Absolute n)) length = Fails (Builtin ZeroDivisionError))) /\
  (exists detail, dims None None None = Fails (BadRequestProblem detail)).
Proof.
  intros dims. subst dims. unfold get_output_dimensions.
  split; [done|]. split; [done|]. split; [done|].
  split; [|split; [|split; [|split]]].
  - intros n. split; [|done]. unfold get_rationed_resizing.
    destruct (quotient true_div n image_height) as [ratio|p]; [|done]. cbn.
    by destruct (rounded round_times ratio image_width).
  - intros f. split; [|done]. unfold get_rationed_resizing.
    destruct (rounded round_times f image_height) as [h|p]; [|done]. cbn.
    by destruct (rounded round_times f image_width).
  - intros n w h. unfold get_rationed_resizing, quotient. split.
    + destruct (Z.eqb_spec image_height 0); [done|].
      destruct (true_div n image_height) as [ratio|e]; [|done]. cbn.
      destruct (rounded round_times ratio image_width); [|done]. cbn.
      by intros [= <- <-].
    + destruct (Z.eqb_spec image_width 0); [done|].
      destruct (true_div n image_width) as [ratio|e]; [|done]. cbn.
      destruct (rounded round_times ratio image_height); [|done]. cbn.
      by intros [= <- <-].
  - intros n. unfold get_rationed_resizing, quotient.
    split; intros ->; done.
  - eexists. reflexivity.
Qed.

(** *** Intensities *)

Lemma parse_intensity_allow_none (bits : Z) (stats : Z -> string -> Z)
    (a b : bool) (c : Z) (v : Intensity) (d : Z) (k : string) :
  parse_intensity bits stats a c v d k = parse_intensity bits stats b c v d k.
Proof.
  unfold parse_intensity. destruct v as [n|s]; [done|].
  destruct (decide (s = "NONE")) as [->|Hs].
  - destruct a, b; done.
  - rewrite (bool_decide_eq_false_2 _ Hs), !andb_false_r. done.
Qed.

(** X9. The flag [allow_none] of [parse_intensity_bounds] changes nothing:
    the name [NONE] gives the default bound when the flag is set, and when
    it is not set the name is not one that the function knows, which gives
    the default bound as well. *)
Theorem allow_none_is_without_effect (bits : Z) (stats : Z -> string -> Z)
    (out_channels : list Z) (mins maxs : list Intensity) :
  parse_intensity_bounds bits stats out_channels mins maxs true =
  parse_intensity_bounds bits stats out_channels mins maxs false.
Proof.
  unfold parse_intensity_bounds, parse_bounds.
  f_equal; f_equal; apply zip_with_ext; try done;
    intros; f_equal; apply parse_intensity_allow_none.
Qed.

Lemma lookup_spread (n : nat) (d : Intensity) (l : list Intensity) (i : nat) :
  (length l <= 1)%nat -> (i < n)%nat ->
  spread n d l !! i = Some (default d (head l)).
Proof.
  intros Hl Hi. destruct l as [|x [|y l]]; simpl in *; [| |lia];
    by apply lookup_replicate_2.
Qed.

(** X10. [parse_intensity_bounds] on a request with at most one minimum and
    at most one maximum: both answers have one entry per output channel; a
    number is brought into [0, 2 ^ bits - 1], the minimum that is not given
    is 0 and the maximum that is not given is [2 ^ bits - 1]. *)
Theorem intensity_bounds_are_clamped (bits : Z) (stats : Z -> string -> Z)
    (out_channels : list Z) (mins maxs : list Intensity) (allow_none : bool) :
  0 <= bits ->
  (length mins <= 1)%nat -> (length maxs <= 1)%nat ->
  let r := parse_intensity_bounds bits stats out_channels mins maxs allow_none in
  let top := 2 ^ bits - 1 in
  let clamp v := Z.max 0 (Z.min top v) in
  length r.1 = length out_channels /\ length r.2 = length out_channels /\
  (forall i, (i < length out_channels)%nat ->
     (mins = [] -> r.1 !! i = Some (IntensityValue 0)) /\
     (maxs = [] -> r.2 !! i = Some (IntensityValue top)) /\
     (forall v, mins = [IntensityValue v] ->
        r.1 !! i = Some (IntensityValue (clamp v))) /\
     (forall v, maxs = [IntensityValue v] ->
        r.2 !! i = Some (IntensityValue (clamp v)))).
Proof.
  intros Hbits Hmin Hmax r top clamp.
  assert (Htop : 0 <= top).
  { unfold top. pose proof (Z.pow_pos_nonneg 2 bits ltac:(lia) Hbits). lia. }
  assert (Hlen : forall d l, (length l <= 1)%nat ->
            length (spread (length out_channels) d l) = length out_channels).
  { intros d l Hl. destruct l as [|x [|y l]]; simpl in *; [| |lia];
      by rewrite length_replicate. }
  assert (Hnum : forall c v d k,
            parse_intensity bits stats allow_none c (IntensityValue v) d k
            = clamp v).
  { intros c v d k. unfold parse_intensity, clamp. fold top.
    destruct (Z.ltb_spec v 0); [lia|]. destruct (Z.ltb_spec top v); lia. }
  assert (Hlook : forall (d : Z) k l i c, (length l <= 1)%nat ->
            out_channels !! i = Some c ->
            parse_bounds bits stats allow_none out_channels
              (spread (length out_channels) (IntensityValue d) l) d k !! i =
            Some (IntensityValue
                    (parse_intensity bits stats allow_none c
                       (default (IntensityValue d) (head l)) d k))).
  { intros d k l i c Hl Hc. unfold parse_bounds.
    pose proof (lookup_lt_Some _ _ _ Hc) as Hi.
    rewrite lookup_app_l by (rewrite length_zip_with, Hlen by done; lia).
    rewrite lookup_zip_with, Hc. cbn.
    destruct l as [|x [|y l]]; simpl in *; [| |lia];
      by rewrite lookup_replicate_2. }
  subst r. unfold parse_intensity_bounds. cbn [fst snd]. fold top.
  split; [|split].
  - unfold parse_bounds. rewrite length_app, length_zip_with, length_drop, Hlen by done.
    lia.
  - unfold parse_bounds. rewrite length_app, length_zip_with, length_drop, Hlen by done.
    lia.
  - intros i Hi. destruct (lookup_lt_is_Some_2 out_channels i Hi) as [c Hc].
    split; [|split; [|split]].
    + intros ->. rewrite (Hlook 0 "minimum" [] i c) by (done || simpl; lia).
      cbn -[parse_intensity Z.pow]. rewrite Hnum. unfold clamp. do 2 f_equal. lia.
    + intros ->. rewrite (Hlook top "maximum" [] i c) by (done || simpl; lia).
      cbn -[parse_intensity Z.pow]. rewrite Hnum. unfold clamp. do 2 f_equal. lia.
    + intros v ->. rewrite (Hlook 0 "minimum" _ i c) by (done || simpl; lia).
      cbn -[parse_intensity Z.pow]. by rewrite Hnum.
    + intros v ->. rewrite (Hlook top "maximum" _ i c) by (done || simpl; lia).
      cbn -[parse_intensity Z.pow]. by rewrite Hnum.
Qed.

Lemma intensity_bounds_are_clamped_witness :
  let r := parse_intensity_bounds 8 (fun _ _ => 0) [0; 1; 2]
             [IntensityValue (-5)] [IntensityValue 300] false in
  r.1 !! 1%nat = Some (IntensityValue 0) /\
  r.2 !! 1%nat = Some (IntensityValue 255).
Proof.
  intros r.
  destruct (intensity_bounds_are_clamped 8 (fun _ _ => 0) [0; 1; 2]
              [IntensityValue (-5)] [IntensityValue 300] false
              ltac:(lia) ltac:(simpl; lia) ltac:(simpl; lia))
    as (_ & _ & H).
  destruct (H 1%nat ltac:(simpl; lia)) as (_ & _ & H1 & H2).
  split; [exact (H1 _ eq_refl)|exact (H2 _ eq_refl)].
Defined.

End ParameterFacts.

(** ** Facts about the histograms per channel *)

Module ChannelFacts.
Import Histograms HistogramFacts HistogramEdges ImageParameter ParameterFacts
  ChannelRoutes.
Local Open Scope Z_scope.

Lemma expand_indexes (parse_range : string -> Z -> Z -> list Z) (n : Z)
    (l : list Z) :
  (PlaneIndex <$> l) ≫= expand parse_range n = l.
Proof. induction l as [|x l IH]; [done|]. cbn. by rewrite IH. Qed.

Lemma py_index_in_range {A} (l : list A) (i : Z) :
  0 <= i < len l -> is_Some (py_index l i).
Proof.
  intros Hi. unfold py_index. destruct (Z.ltb_spec i 0); [lia|].
  apply lookup_lt_is_Some_2. unfold len in Hi. lia.
Qed.

(** The channels that a request selects. *)
Lemma selected_channels (is_range : string -> bool)
    (parse_range : string -> Z -> Z -> list Z) (n_channels : Z) (l : list Z) :
  get_channel_indexes is_range parse_range n_channels (PlaneIndex <$> l) =
    Gives (match l with
           | [] => seqZ 0 n_channels
           | _ => OrderedSet (filter (fun c => 0 <= c < n_channels) l)
           end).
Proof.
  destruct l as [|x l].
  - unfold get_channel_indexes, parse_planes. cbn.
    f_equal. apply OrderedSet_first_occurrences. apply NoDup_seqZ.
  - unfold get_channel_indexes, parse_planes.
    replace (Z.of_nat (length (PlaneIndex <$> x :: l)) =? 0) with false
      by (symmetry; apply Z.eqb_neq; simpl; lia).
    rewrite collect_planes_valid.
    + cbn [app]. by rewrite expand_indexes.
    + apply Forall_fmap, Forall_forall. done.
Qed.

Lemma channel_histograms_fit (im : ChannelImage) (n : Z) (full_range : bool)
    (cs : list Z) :
  is_power_of_2 n = true ->
  len (hex_colors im) = n_channels im ->
  (forall c, 0 <= c < n_channels im ->
     len (channel_histogram im c) = 2 ^ Z.of_N (significant_bits (base im))) ->
  Forall (fun c => 0 <= c < n_channels im) cs ->
  forall acc, exists new,
    channel_histograms im (parse_n_bins n (2 ^ Z.of_N (significant_bits (base im))))
      full_range cs acc = Success (acc ++ new) /\
    channel <$> new = cs /\
    Forall (fun it =>
      py_index (hex_colors im) (channel it) = Some (color it) /\
      histogram_formatter (channel_histogram im (channel it))
        (channel_bounds im (channel it))
        (parse_n_bins n (2 ^ Z.of_N (significant_bits (base im)))) full_range
      = Ok (formatted it)) new.
Proof.
  intros Hpow Hcol Hlen Hcs. induction Hcs as [|c cs Hc _ IH]; intros acc.
  - exists []. by rewrite app_nil_r.
  - cbn [channel_histograms].
    destruct (py_index_in_range (hex_colors im) c ltac:(lia)) as [col Hcol'].
    rewrite Hcol'.
    destruct (power_of_two_fits (channel_histogram im c) (channel_bounds im c)
                n (Z.of_N (significant_bits (base im))) full_range
                ltac:(lia) (Hlen c Hc) Hpow) as (f & Hf & _).
    rewrite Hf.
    destruct (IH (acc ++ [{| channel := c; color := col; formatted := f |}]))
      as (new & Hnew & Hch & Hall).
    exists ({| channel := c; color := col; formatted := f |} :: new).
    split; [by rewrite Hnew, <- app_assoc|]. split; [cbn; by rewrite Hch|].
    constructor; [done|exact Hall].
Qed.

(** X4. The histograms per channel.  On an existing image of at most 62
    significant bits that has a colour for each of its channels and, for
    each channel, a stored histogram of [2 ^ significant_bits] bins, the
    query answers for every bin count that is a power of two; from 63
    significant bits on it raises [OverflowError], as the query per image
    does.  The collection has one histogram for each channel
    selected, in the order of the selection, and [size] is their number:
    every channel when the request names none, otherwise the channels named
    that the image has, each once, in the order of their first mention;
    channels that the image does not have are passed over.  All the
    histograms are formatted with the same clamped bin count. *)
Theorem channels_histogram_collection (is_range : string -> bool)
    (parse_range : string -> Z -> Z -> list Z) (im : ChannelImage) (n : Z)
    (full_range : bool) (channels : option (list Z)) :
  img_exists (base im) = true ->
  is_power_of_2 n = true ->
  len (hex_colors im) = n_channels im ->
  (forall c, 0 <= c < n_channels im ->
     len (channel_histogram im c) = 2 ^ Z.of_N (significant_bits (base im))) ->
  let selected :=
    match channels with
    | None | Some [] => seqZ 0 (n_channels im)
    | Some l => OrderedSet (filter (fun c => 0 <= c < n_channels im) l)
    end in
  let eff := Z.min n (2 ^ Z.of_N (significant_bits (base im))) in
  ((significant_bits (base im) <= 62)%N ->
     exists out,
       show_channels_histogram is_range parse_range im n full_range channels
         = Success out /\
       size out = len (items out) /\
       channel <$> items out = selected /\
       Forall (fun it =>
         py_index (hex_colors im) (channel it) = Some (color it) /\
         histogram_formatter (channel_histogram im (channel it))
           (channel_bounds im (channel it)) eff full_range = Ok (formatted it) /\
         n_bins (formatted it) = eff) (items out)) /\
  ((63 <= significant_bits (base im))%N ->
     show_channels_histogram is_range parse_range im n full_range channels
       = Failure (Api OverflowError)).
Proof.
  intros Hex Hpow Hcol Hlen selected eff.
  set (b := Z.of_N (significant_bits (base im))) in *.
  assert (Hp : 0 < 2 ^ b) by (apply Z.pow_pos_nonneg; unfold b; lia).
  assert (Heff : parse_n_bins n (2 ^ b) = eff).
  { unfold parse_n_bins, eff. destruct (Z.leb_spec n (2 ^ b)); lia. }
  unfold show_channels_histogram, HistogramConfig_init,
    check_representation_existence. rewrite Hpow, Hex. cbn [negb].
  assert (Hsel : get_channel_indexes is_range parse_range (n_channels im)
                   (ensure_list match channels with
                                | Some l => Many (PlaneIndex <$> l)
                                | None => Unset
                                end) = Gives selected).
  { destruct channels as [l|]; cbn [ensure_list].
    - rewrite selected_channels. by destruct l.
    - apply (selected_channels is_range parse_range (n_channels im) []). }
  rewrite Hsel.
  assert (Hin : Forall (fun c => 0 <= c < n_channels im) selected).
  { apply Forall_forall. intros c Hc. subst selected.
    assert (Hseq : c ∈ seqZ 0 (n_channels im) -> 0 <= c < n_channels im)
      by (intros ?%elem_of_seqZ; lia).
    destruct channels as [[|x l]|]; [by apply Hseq| |by apply Hseq].
    destruct (OrderedSet_first_occurrences
                (filter (fun c => 0 <= c < n_channels im) (x :: l)))
      as (_ & Hel & _).
    apply Hel in Hc. by apply list_elem_of_filter in Hc as [? _]. }
  unfold effective_n_bins. split.
  2: { intros Hbits. by rewrite (len_value_range_wide _ Hbits). }
  intros Hbits. rewrite (len_value_range_small _ Hbits).
  cbn [cfg_n_bins cfg_full_range]. fold b.
  destruct (channel_histograms_fit im n full_range selected Hpow Hcol Hlen Hin [])
    as (new & Hnew & Hch & Hall).
  fold b in Hnew, Hall. rewrite Hnew. cbn [app].
  exists (response_list new). split; [done|]. split; [done|].
  split; [exact Hch|]. cbn [items response_list].
  eapply Forall_impl; [exact Hall|]. cbn beta. intros it [H1 H2].
  rewrite Heff in H2. split; [done|]. split; [done|].
  by apply formatter_n_bins in H2.
Qed.

Lemma channels_histogram_collection_witness :
  let im :=
    {| base := {| img_exists := true; significant_bits := 2;
                  image_histogram := [1; 3; 1; 2]; image_bounds := (0, 3) |};
       n_channels := 2;
       hex_colors := [Some "#ff0000"; None];
       channel_histogram := fun c => if c =? 0 then [1; 0; 0; 2] else [0; 3; 1; 0];
       channel_bounds := fun c => if c =? 0 then (0, 3) else (1, 2) |} in
  exists out,
    show_channels_histogram (fun _ => false) (fun _ _ _ => []) im 2 true
      (Some [1; 5; 1; 0]) = Success out /\
    channel <$> items out = [1; 0] /\ size out = 2.
Proof.
  intros im.
  assert (Hlen : forall c, 0 <= c < n_channels im ->
            len (channel_histogram im c) = 2 ^ Z.of_N (significant_bits (base im))).
  { intros c _. cbn. by destruct (c =? 0). }
  destruct (proj1 (channels_histogram_collection (fun _ => false)
                     (fun _ _ _ => []) im 2 true (Some [1; 5; 1; 0])
                     eq_refl eq_refl eq_refl Hlen)
              ltac:(vm_compute; discriminate))
    as (out & Hout & Hsize & Hch & _).
  exists out. split; [exact Hout|]. split; [exact Hch|].
  rewrite Hsize. unfold len. rewrite <- (length_fmap channel), Hch. reflexivity.
Defined.

End ChannelFacts.

(** ** Facts about the format of a response *)

Module MimetypeFacts.
Import Mimetype.

Lemma acceptable_Exists {T} (matches : T -> string -> bool) (acc : list T)
    (t : string) :
  acceptable matches acc t = true <-> Exists (fun a => matches a t = true) acc.
Proof.
  induction acc as [|a acc IH]; simpl.
  - split; [done|by intros ?%Exists_nil].
  - rewrite Exists_cons. destruct (matches a t); [tauto|].
    rewrite IH. split; [auto|]. by intros [?|?].
Qed.

Lemma acceptable_Forall {T} (matches : T -> string -> bool) (acc : list T)
    (t : string) :
  acceptable matches acc t = false <-> Forall (fun a => matches a t = false) acc.
Proof.
  induction acc as [|a acc IH]; simpl; [done|].
  rewrite Forall_cons. destruct (matches a t); [split; [done|by intros [? _]]|].
  rewrite IH. tauto.
Qed.

Lemma acceptable_perm {T} (matches : T -> string -> bool) (acc acc' : list T)
    (t : string) :
  acc ≡ₚ acc' -> acceptable matches acc t = acceptable matches acc' t.
Proof.
  intros Hp. destruct (acceptable matches acc t) eqn:E; symmetry.
  - apply acceptable_Exists. rewrite <- Hp. by apply acceptable_Exists.
  - apply acceptable_Forall. rewrite <- Hp. by apply acceptable_Forall.
Qed.

(** X24. [get_best_mimetype] answers with the first of the available types,
    in the order in which the server lists them, that some acceptable type
    of the header matches, and with nothing when none is matched.  The order
    of the acceptable types, and with it the weights [q] by which
    [parse_accept_header] sorts them, has no part in the choice. *)
Theorem best_mimetype_is_first_available {T} (matches : T -> string -> bool)
    (acc : list T) (avail : list string) :
  (forall t, best_of matches acc avail = Some t <->
     exists pre post, avail = pre ++ t :: post /\
       Exists (fun a => matches a t = true) acc /\
       Forall (fun u => Forall (fun a => matches a u = false) acc) pre) /\
  (best_of matches acc avail = None <->
     Forall (fun u => Forall (fun a => matches a u = false) acc) avail) /\
  (forall acc', acc ≡ₚ acc' ->
     best_of matches acc' avail = best_of matches acc avail).
Proof.
  split; [|split].
  - induction avail as [|u avail IH]; intros t; simpl.
    + split; [done|]. intros (pre & post & H & _). by destruct pre.
    + destruct (acceptable matches acc u) eqn:E.
      * split.
        -- intros [= <-]. exists [], avail. split; [done|].
           split; [by apply acceptable_Exists|constructor].
        -- intros (pre & post & H & Hex & Hall). destruct pre as [|v pre].
           ++ by injection H as ->.
           ++ injection H as -> ->. apply Forall_cons in Hall as [Hu _].
              apply acceptable_Forall in Hu. congruence.
      * rewrite IH. split.
        -- intros (pre & post & -> & Hex & Hall). exists (u :: pre), post.
           split; [done|]. split; [done|]. constructor; [|done].
           by apply acceptable_Forall.
        -- intros (pre & post & H & Hex & Hall). destruct pre as [|v pre].
           ++ injection H as -> ->. apply acceptable_Exists in Hex. congruence.
           ++ injection H as -> ->. apply Forall_cons in Hall as [_ Hall].
              by exists pre, post.
  - induction avail as [|u avail IH]; simpl; [done|].
    rewrite Forall_cons. destruct (acceptable matches acc u) eqn:E.
    + split; [done|]. intros [Hu _]. apply acceptable_Forall in Hu. congruence.
    + rewrite IH. apply acceptable_Forall in E. tauto.
  - intros acc' Hp. induction avail as [|u avail IH]; simpl; [done|].
    by rewrite IH, (acceptable_perm matches acc acc' u Hp).
Qed.

Lemma dict_get_keys {V} (d : OrderedDict V) (k : string) (v : V) :
  dict_get d k = Some v -> k ∈ keys d.
Proof.
  induction d as [|[k' v'] d IH]; simpl; [done|].
  destruct (decide (k' = k)) as [->|]; [intros _; left|].
  intros H. right. by apply IH.
Qed.

Lemma best_of_acceptable {T} (matches : T -> string -> bool) (acc : list T)
    (avail : list string) (t : string) :
  best_of matches acc avail = Some t ->
  t ∈ avail /\ acceptable matches acc t = true.
Proof.
  induction avail as [|u avail IH]; simpl; [done|].
  destruct (acceptable matches acc u) eqn:E.
  - intros [= <-]. split; [left|done].
  - intros H. destruct (IH H). split; [by right|done].
Qed.

(** X25. [get_output_format].  With one of the extensions [.jpg], [.png] and
    [.webp] the [Accept] header is not looked at.  Whatever is returned is
    an entry of the dictionary of supported types whose value is true, and,
    when no extension is given, a type that the header accepts.  The
    problem raised otherwise lists the supported types and carries an empty
    [Accept] header, whatever the header of the request was. *)
Theorem output_format_is_supported {V T} (truthy : V -> bool)
    (parse_accept_header : string -> list T) (matches : T -> string -> bool)
    (extension : OutputExtension) (accept_header : string)
    (supported : OrderedDict V) :
  let answer := get_output_format parse_accept_header matches truthy extension in
  (extension <> NONE -> forall other_header,
     answer other_header supported = answer accept_header supported) /\
  (forall f m, answer accept_header supported = inr (f, m) ->
     dict_get supported m = Some f /\ truthy f = true /\ m ∈ keys supported /\
     (extension = NONE ->
        acceptable matches (parse_accept_header accept_header) m = true) /\
     (extension <> NONE ->
        dict_get mimetype_from_extension (value extension) = Some m)) /\
  (forall p, answer accept_header supported = inl p ->
     p = NoAcceptableResponseMimetypeProblem "" (keys supported)).
Proof.
  intros answer. subst answer. unfold get_output_format. split; [|split].
  - intros Hne other. by destruct extension.
  - intros f m.
    assert (Hstep : forall (o : option string),
      match match o with
            | Some m0 => match dict_get supported m0 with
                         | Some f0 => Some (f0, m0)
                         | None => None
                         end
            | None => None
            end with
      | Some (f0, m0) =>
          if truthy f0 then inr (f0, m0)
          else inl (NoAcceptableResponseMimetypeProblem "" (keys supported))
      | None => inl (NoAcceptableResponseMimetypeProblem "" (keys supported))
      end = inr (f, m) ->
      o = Some m /\ dict_get supported m = Some f /\ truthy f = true).
    { intros [m0|]; [|done]. destruct (dict_get supported m0) as [f0|] eqn:Hg; [|done].
      destruct (truthy f0) eqn:Ht; [|done]. by intros [= <- <-]. }
    intros H. apply Hstep in H as (Ho & Hg & Ht).
    split; [done|]. split; [done|]. split; [by eapply dict_get_keys|].
    destruct extension; cbn in Ho.
    + split; [|done]. intros _. unfold get_best_mimetype in Ho.
      by apply best_of_acceptable in Ho as [_ ?].
    + split; [done|]. by intros _.
    + split; [done|]. by intros _.
    + split; [done|]. by intros _.
  - intros p.
    match goal with |- context [match ?o with Some _ => _ | None => None end] =>
      destruct o as [m|] end; [|by intros [= <-]].
    destruct (dict_get supported m) as [f|]; [|by intros [= <-]].
    destruct (truthy f); [done|by intros [= <-]].
Qed.

(** X26. The two dictionaries of the module.  [VISUALISATION_MIMETYPES] lists
    WebP first, then JPEG, then PNG; [PROCESSING_MIMETYPES] lists PNG first,
    then JPEG, then WebP.  Against either of them a request with the
    extension [.jpg], [.png] or [.webp] is always served, with the mime type
    that [mimetype_from_extension] gives for the extension and with that
    same extension as format: the two tables agree. *)
Theorem known_extensions_are_served {T}
    (parse_accept_header : string -> list T) (matches : T -> string -> bool)
    (extension : OutputExtension) (accept_header : string) :
  extension <> NONE ->
  keys VISUALISATION_MIMETYPES =
    ["image/webp"; "image/jpg"; "image/jpeg"; "image/png"; "image/apng"] /\
  keys PROCESSING_MIMETYPES =
    ["image/png"; "image/apng"; "image/jpg"; "image/jpeg"; "image/webp"] /\
  exists m,
    dict_get mimetype_from_extension (value extension) = Some m /\
    get_output_format parse_accept_header matches extension_truthy extension
      accept_header VISUALISATION_MIMETYPES = inr (extension, m) /\
    get_output_format parse_accept_header matches extension_truthy extension
      accept_header PROCESSING_MIMETYPES = inr (extension, m).
Proof.
  intros Hne. split; [reflexivity|]. split; [reflexivity|].
  destruct extension; [done| | |]; eexists; repeat split; reflexivity.
Qed.

Lemma known_extensions_are_served_witness :
  get_output_format (fun _ : string => @nil unit) (fun _ _ => false)
    extension_truthy PNG "text/html" VISUALISATION_MIMETYPES
  = inr (PNG, "image/png").
Proof.
  destruct (known_extensions_are_served (fun _ : string => @nil unit)
              (fun _ _ => false) PNG "text/html" ltac:(discriminate))
    as (_ & _ & m & Hm & Hv & _).
  injection Hm as <-. exact Hv.
Defined.

End MimetypeFacts.

(** ** Facts about the listener that mirrors an import in Cytomine *)

Module CytomineLogFacts.
Import Importer CytomineLog.

Lemma lookup_uf_Ok (path : Path) (l : CytomineListener) (a : nat)
    (uf : UploadedFile) :
  lookup_uf path l = Ok (a, uf) <->
  path_uf_mapping l !! path = Some a /\ heap l !! a = Some uf.
Proof.
  unfold lookup_uf. destruct (path_uf_mapping l !! path) as [b|]; [|split; [done|by intros [? _]]].
  destruct (heap l !! b) as [u|] eqn:E.
  - split; [by intros [= <- <-]|]. intros [[= <-] H]. congruence.
  - split; [done|]. intros [[= <-] H]. congruence.
Qed.

Lemma lookup_uf_unknown (path : Path) (l : CytomineListener) :
  path_uf_mapping l !! path = None -> lookup_uf path l = Raise KeyError.
Proof. unfold lookup_uf. by intros ->. Qed.

Lemma set_status_spec (s : Status) (path : Path) (l : CytomineListener) (a : nat)
    (uf : UploadedFile) :
  path_uf_mapping l !! path = Some a -> heap l !! a = Some uf ->
  set_status s path l = (Ok tt, write a (with_status s uf) l).
Proof.
  intros Hm Hh. unfold set_status.
  by rewrite (proj2 (lookup_uf_Ok path l a uf) (conj Hm Hh)).
Qed.

(** X27. A handler that is called with a path that the listener does not
    know raises [KeyError] and leaves the listener as it was: nothing is
    written and nothing is sent.  Only [integrity_success] looks no path
    up. *)
Theorem unknown_path_is_a_KeyError (c : Call) (l : CytomineListener) :
  match looked_up c with
  | Some p =>
      path_uf_mapping l !! p = None -> call c l = (Raise KeyError, l)
  | None => call c l = (Ok tt, l)
  end.
Proof.
  destruct c; cbn; try done; intros H;
    unfold start_import, file_not_moved, file_not_found,
      start_format_detection, no_matching_format, generic_file_error,
      integrity_error, conversion_error, set_status, file_moved,
      matching_format_found;
    by rewrite lookup_uf_unknown.
Qed.

(** X28. After [file_moved] the uploaded file is one object known under both
    paths.  The call needs the old path to be known and the new one to lie
    below the root; it writes the new path, relative to the root, as file
    name, sends the object, and registers it under the new path.  What a
    later handler writes through either path is then read through the
    other. *)
Theorem moved_file_is_known_under_both_paths (old_path new_path : Path)
    (l : CytomineListener) (a : nat) (uf : UploadedFile) (rel : Path) :
  path_uf_mapping l !! old_path = Some a ->
  heap l !! a = Some uf ->
  new_path = FILE_ROOT_PATH ++ rel ->
  let moved := {| uf_path := uf_path uf; status := status uf; filename := rel;
                  contentType := contentType uf |} in
  let l' := (file_moved old_path new_path l).2 in
  (file_moved old_path new_path l).1 = Ok tt /\
  lookup_uf new_path l' = Ok (a, moved) /\
  lookup_uf old_path l' = Ok (a, moved) /\
  sent l' = sent l ++ [(a, moved)] /\
  forall s,
    (set_status s new_path l').1 = Ok tt /\
    lookup_uf old_path (set_status s new_path l').2 = Ok (a, with_status s moved) /\
    (set_status s old_path l').1 = Ok tt /\
    lookup_uf new_path (set_status s old_path l').2 = Ok (a, with_status s moved).
Proof.
  intros Hm Hh -> moved l'.
  assert (Hrel : relative_to FILE_ROOT_PATH (FILE_ROOT_PATH ++ rel) = Ok rel).
  { unfold relative_to, under. rewrite take_app_length.
    rewrite bool_decide_eq_true_2 by done. by rewrite drop_app_length. }
  assert (Hl' : file_moved old_path (FILE_ROOT_PATH ++ rel) l =
    (Ok tt,
     {| heap := <[a := moved]> (heap l);
        path_uf_mapping := <[FILE_ROOT_PATH ++ rel := a]> (path_uf_mapping l);
        root_path := root_path l; sent := sent l ++ [(a, moved)] |})).
  { unfold file_moved.
    rewrite (proj2 (lookup_uf_Ok old_path l a uf) (conj Hm Hh)), Hrel. done. }
  subst l'. rewrite Hl'. cbn [fst snd].
  set (l' := {| heap := _; path_uf_mapping := _; root_path := _; sent := _ |}).
  assert (Hnew : path_uf_mapping l' !! (FILE_ROOT_PATH ++ rel) = Some a)
    by apply lookup_insert_eq.
  assert (Hold : path_uf_mapping l' !! old_path = Some a).
  { subst l'. cbn [path_uf_mapping].
    destruct (decide (FILE_ROOT_PATH ++ rel = old_path)) as [<-|Hne].
    - apply lookup_insert_eq.
    - by rewrite lookup_insert_ne. }
  assert (Hheap : heap l' !! a = Some moved) by apply lookup_insert_eq.
  split; [done|]. split; [by apply lookup_uf_Ok|].
  split; [by apply lookup_uf_Ok|]. split; [done|]. intros s.
  rewrite (set_status_spec s _ l' a moved Hnew Hheap).
  rewrite (set_status_spec s _ l' a moved Hold Hheap). cbn [fst snd].
  split; [done|]. split; [|split; [done|]]; apply lookup_uf_Ok;
    (split; [done|]); apply lookup_insert_eq.
Qed.

Lemma moved_file_is_known_under_both_paths_witness :
  let root := {| uf_path := ["tmp"; "uploaded"; "slide"]; status := UPLOADED;
                 filename := []; contentType := "" |} in
  let l := init 7 7 root root in
  let l' := (file_moved ["tmp"; "uploaded"; "slide"]
               ["data"; "pims"; "upload0001"; "slide"] l).2 in
  (start_format_detection ["data"; "pims"; "upload0001"; "slide"] l').1 = Ok tt.
Proof.
  intros root l l'.
  destruct (moved_file_is_known_under_both_paths ["tmp"; "uploaded"; "slide"]
              ["data"; "pims"; "upload0001"; "slide"] l 0%nat root
              ["upload0001"; "slide"] eq_refl eq_refl eq_refl)
    as (_ & _ & _ & _ & H).
  exact (proj1 (H DETECTING_FORMAT)).
Defined.

Lemma lookup_uf_raises (p : Path) (l : CytomineListener) (e : Exception) :
  lookup_uf p l = Raise e -> e = KeyError.
Proof.
  unfold lookup_uf. destruct (path_uf_mapping l !! p) as [a|]; [|by intros [= <-]].
  destruct (heap l !! a); [done|by intros [= <-]].
Qed.

Lemma keeps_failure (l : CytomineListener) (e : Exception) :
  well_formed l -> e = KeyError \/ e = ValueError -> keeps l (Raise e, l).
Proof.
  intros Hwf He. unfold keeps. cbn.
  split; [done|]. split; [done|]. split; [done|]. split; [done|]. split.
  - exists []. by rewrite app_nil_r.
  - by intros e' [= <-].
Qed.

Lemma heap_write (l : CytomineListener) (a b : nat) (uf0 uf1 : UploadedFile) :
  heap l !! a = Some uf0 ->
  is_Some (heap l !! b) <-> is_Some (<[a := uf1]> (heap l) !! b).
Proof.
  intros Ha. destruct (decide (a = b)) as [->|Hne].
  - rewrite lookup_insert_eq, Ha. split; eauto.
  - by rewrite lookup_insert_ne.
Qed.

Lemma keeps_write (l : CytomineListener) (a : nat) (uf0 uf1 : UploadedFile) :
  well_formed l -> heap l !! a = Some uf0 -> keeps l (Ok tt, write a uf1 l).
Proof.
  intros Hwf Ha. unfold keeps.
  cbn [fst snd heap path_uf_mapping root_path sent write].
  split; [|split; [done|split; [|split; [done|split; [eauto|done]]]]].
  - intros p b Hp. apply (heap_write l a b uf0 uf1 Ha). by eapply Hwf.
  - intros b. by apply (heap_write l a b uf0).
Qed.

Lemma keeps_set_status (s : Status) (p : Path) (l : CytomineListener) :
  well_formed l -> keeps l (set_status s p l).
Proof.
  intros Hwf. unfold set_status.
  destruct (lookup_uf p l) as [[a uf]|e] eqn:E.
  - apply lookup_uf_Ok in E as [_ Ha]. by eapply keeps_write.
  - apply keeps_failure; [done|]. left. by eapply lookup_uf_raises.
Qed.

Lemma call_keeps (c : Call) (l : CytomineListener) :
  well_formed l -> keeps l (call c l).
Proof.
  intros Hwf. destruct c; cbn [call]; try by apply keeps_set_status.
  - (* file_moved *)
    unfold file_moved. destruct (lookup_uf old_path l) as [[a uf]|e] eqn:E.
    + apply lookup_uf_Ok in E as [Hm Ha].
      destruct (relative_to FILE_ROOT_PATH new_path) as [rel|e] eqn:Er.
      * unfold keeps. cbn [fst snd heap path_uf_mapping root_path sent write].
        split; [|split; [|split; [|split; [done|split; [eauto|done]]]]].
        -- intros p b Hp. cbn [fst snd heap path_uf_mapping write] in Hp |- *.
           apply (heap_write l a b uf _ Ha).
           destruct (decide (new_path = p)) as [->|Hne].
           ++ rewrite lookup_insert_eq in Hp. injection Hp as <-. by rewrite Ha.
           ++ rewrite lookup_insert_ne in Hp by done. by eapply Hwf.
        -- intros p Hp. destruct (decide (new_path = p)) as [->|Hne].
           ++ rewrite lookup_insert_eq. eauto.
           ++ by rewrite lookup_insert_ne.
        -- intros b. by apply (heap_write l a b uf).
      * apply keeps_failure; [done|]. unfold relative_to in Er.
        destruct (under FILE_ROOT_PATH new_path); [done|].
        injection Er as <-. by right.
    + apply keeps_failure; [done|]. left. by eapply lookup_uf_raises.
  - (* matching_format_found *)
    unfold matching_format_found.
    destruct (lookup_uf path l) as [[a uf]|e] eqn:E.
    + apply lookup_uf_Ok in E as [_ Ha]. by eapply keeps_write.
    + apply keeps_failure; [done|]. left. by eapply lookup_uf_raises.
  - (* integrity_success *)
    unfold integrity_success, keeps. cbn.
    split; [done|]. split; [done|]. split; [done|]. split; [done|].
    split; [|done]. exists []. by rewrite app_nil_r.
Qed.

(** What a row of calls keeps, and where it stops. *)
Lemma calls_keep (cs : list Call) (l : CytomineListener) :
  well_formed l ->
  let r := calls cs l in
  well_formed r.2 /\
  (forall p, is_Some (path_uf_mapping l !! p) ->
             is_Some (path_uf_mapping r.2 !! p)) /\
  (forall a, is_Some (heap l !! a) <-> is_Some (heap r.2 !! a)) /\
  root_path r.2 = root_path l /\
  (exists new, sent r.2 = sent l ++ new) /\
  (forall e, r.1 = Raise e ->
     (e = KeyError \/ e = ValueError) /\
     exists made c rest l2,
       cs = made ++ c :: rest /\
       calls made l = (Ok tt, l2) /\
       call c l2 = (Raise e, l2) /\
       r.2 = l2).
Proof.
  revert l. induction cs as [|c cs IH]; intros l Hwf; cbn [calls].
  - cbn. split; [done|]. split; [done|]. split; [done|]. split; [done|].
    split; [|done]. exists []. by rewrite app_nil_r.
  - destruct (call_keeps c l Hwf) as (Hwf' & Hp & Hh & Hr & [new Hs] & He).
    destruct (call c l) as [[[]|e] l'] eqn:Ec; cbn [fst snd] in *.
    + destruct (IH l' Hwf') as (H1 & H2 & H3 & H4 & [new' H5] & H6).
      split; [done|]. split; [by auto|]. split; [intros a; by rewrite Hh, H3|].
      split; [congruence|]. split.
      { exists (new ++ new'). by rewrite H5, Hs, app_assoc. }
      intros e Hre. destruct (H6 e Hre) as (Hk & made & c' & rest & l2 & -> & Hm & Hc & E).
      split; [done|]. exists (c :: made), c', rest, l2.
      split; [done|]. split; [|done]. cbn [calls]. by rewrite Ec.
    + destruct (He e eq_refl) as [Hke ->].
      split; [done|]. split; [done|]. split; [done|]. split; [done|].
      split; [by exists new|]. intros e' [= <-]. split; [done|].
      exists [], c, cs, l. done.
Qed.

(** X29. What the handlers of [call] keep, whatever the calls and their
    order.  The listener made by [__init__] knows the path of the root.  At
    any point reached without an error, and over any calls made from there:
    a path that is known stays known and leads to an object, no object is
    made or dropped, the root path does not change, and what has been sent
    stays sent.  A call raises nothing but [KeyError] (an unknown path) or
    [ValueError] (a file moved out of the root), and the call that raises
    has changed nothing: the listener is left as the calls before it had
    made it. *)
Theorem listener_keeps_its_paths (root_id uploaded_file_id : Z)
    (root uf : UploadedFile) (before after : list Call) :
  let l0 := init root_id uploaded_file_id root uf in
  well_formed l0 /\ is_Some (path_uf_mapping l0 !! uf_path root) /\
  forall l1, calls before l0 = (Ok tt, l1) ->
    let r := calls after l1 in
    well_formed l1 /\ well_formed r.2 /\
    (forall p, is_Some (path_uf_mapping l1 !! p) ->
               is_Some (path_uf_mapping r.2 !! p)) /\
    (forall a, is_Some (heap l1 !! a) <-> is_Some (heap r.2 !! a)) /\
    root_path r.2 = uf_path root /\
    (exists new, sent r.2 = sent l1 ++ new) /\
    (forall e, r.1 = Raise e ->
       (e = KeyError \/ e = ValueError) /\
       exists made c rest l2,
         after = made ++ c :: rest /\
         calls made l1 = (Ok tt, l2) /\
         call c l2 = (Raise e, l2) /\
         r.2 = l2).
Proof.
  intros l0.
  assert (Hwf0 : well_formed l0).
  { subst l0. unfold init, well_formed.
    destruct (bool_decide (uploaded_file_id <> root_id)); cbn; intros p a.
    - destruct (decide (uf_path uf = p)) as [->|Hne].
      + rewrite lookup_insert_eq. intros [= <-]. rewrite lookup_insert_eq. eauto.
      + rewrite lookup_insert_ne by done.
        destruct (decide (uf_path root = p)) as [->|Hne'].
        * rewrite lookup_insert_eq. intros [= <-].
          rewrite lookup_insert_ne by done. rewrite lookup_insert_eq. eauto.
        * rewrite lookup_insert_ne by done. by rewrite lookup_empty.
    - destruct (decide (uf_path root = p)) as [->|Hne'].
      + rewrite lookup_insert_eq. intros [= <-]. rewrite lookup_insert_eq. eauto.
      + rewrite lookup_insert_ne by done. by rewrite lookup_empty. }
  assert (Hroot0 : is_Some (path_uf_mapping l0 !! uf_path root)).
  { subst l0. unfold init.
    destruct (bool_decide (uploaded_file_id <> root_id)); cbn.
    - destruct (decide (uf_path uf = uf_path root)) as [->|Hne].
      + rewrite lookup_insert_eq. eauto.
      + rewrite lookup_insert_ne by done. rewrite lookup_insert_eq. eauto.
    - rewrite lookup_insert_eq. eauto. }
  assert (Hrp0 : root_path l0 = uf_path root).
  { subst l0. unfold init. by destruct (bool_decide _). }
  split; [done|]. split; [done|]. intros l1 Hbefore r.
  destruct (calls_keep before l0 Hwf0) as (Hwf1 & _ & _ & Hrp1 & _).
  rewrite Hbefore in Hwf1, Hrp1. cbn [fst snd] in Hwf1, Hrp1.
  destruct (calls_keep after l1 Hwf1) as (H1 & H2 & H3 & H4 & H5 & H6).
  fold r in H1, H2, H3, H4, H5, H6.
  split; [done|]. split; [done|]. split; [done|]. split; [done|].
  split; [congruence|]. split; done.
Qed.

End CytomineLogFacts.

(** ** Facts about the request of a legacy import *)

Module OperationsFacts.
Import Operations.
Local Open Scope Z_scope.

Lemma split_comma_cons (s : string) : exists h t, split_comma s = h :: t.
Proof.
  destruct s as [|c rest]; simpl; [by eexists _, _|].
  destruct (bool_decide _); [by eexists _, _|].
  destruct (split_comma rest); by eexists _, _.
Qed.

Lemma concat_two (sep x y : string) (l : list string) :
  String.concat sep (x :: y :: l) =
    String.append x (String.append sep (String.concat sep (y :: l))).
Proof. reflexivity. Qed.

(** Joining the pieces with commas gives the string back. *)
Lemma concat_split_comma (s : string) :
  String.concat "," (split_comma s) = s.
Proof.
  induction s as [|c rest IH]; [done|]. cbn [split_comma].
  destruct (split_comma_cons rest) as (h & t & E). rewrite E in IH |- *.
  destruct (bool_decide (String c EmptyString = ",")) eqn:Hc.
  - apply bool_decide_eq_true in Hc. injection Hc as ->.
    rewrite concat_two, IH. done.
  - destruct t as [|h' t].
    + cbn in IH |- *. by rewrite IH.
    + rewrite concat_two. etrans; [|by rewrite <- IH]. reflexivity.
Qed.

(** No piece holds a comma. *)
Lemma split_comma_pieces (s : string) :
  Forall (fun piece => has_comma piece = false) (split_comma s).
Proof.
  induction s as [|c rest IH]; [by repeat constructor|]. cbn [split_comma].
  destruct (bool_decide (String c EmptyString = ",")) eqn:Hc.
  - by constructor.
  - destruct (split_comma rest) as [|h t]; [by repeat constructor; cbn; rewrite Hc|].
    apply Forall_cons in IH as [Hh Ht]. constructor; [|done].
    cbn [has_comma]. by rewrite Hc, Hh.
Qed.

Lemma ints_Forall2 (py_int : string -> option Z) (pieces : list string)
    (ids : list Z) :
  ints py_int pieces = Some ids <->
  Forall2 (fun piece id => py_int piece = Some id) pieces ids.
Proof.
  revert ids. induction pieces as [|p rest IH]; intros ids; simpl.
  - split; [intros [= <-]; constructor|]. by intros ->%Forall2_nil_inv_l.
  - destruct (py_int p) as [n|] eqn:Hp.
    + destruct (ints py_int rest) as [ns|] eqn:Hr.
      * split.
        -- intros [= <-]. constructor; [done|]. by apply IH.
        -- intros H. apply Forall2_cons_inv_l in H as (id & ids' & Hid & Hrest & ->).
           apply IH in Hrest. congruence.
      * split; [done|]. intros H.
        apply Forall2_cons_inv_l in H as (id & ids' & Hid & Hrest & ->).
        apply IH in Hrest. congruence.
    + split; [done|]. intros H.
      apply Forall2_cons_inv_l in H as (id & ids' & Hid & Hrest & ->). congruence.
Qed.

(** X30. The parameters of a legacy import.  Of each pair of names the
    second, [cytomine], [idStorage], [idProject], hides the first as soon
    as it is given, even when what it gives is empty: an empty [cytomine]
    makes the request fail though [core] is set, and an [idStorage] of zero
    does though [storage] is set.  The core is checked before the storage
    and the storage before the projects.  When the request is accepted the
    core is not empty, the storage is not zero, and the projects are the
    numbers read, in order, from the pieces that the commas of the
    parameter separate (none when the parameter is empty or missing): the
    pieces hold no comma and, joined with commas, give the parameter
    back. *)
Theorem legacy_import_parameters_precedence (py_int : string -> option Z)
    (core cytomine : option string) (storage id_storage : option Z)
    (projects id_project : option string) :
  let params := legacy_import_parameters py_int in
  let answer := params core cytomine storage id_storage projects id_project in
  (is_Some cytomine -> forall core',
     params core' cytomine storage id_storage projects id_project = answer) /\
  (is_Some id_storage -> forall storage',
     params core cytomine storage' id_storage projects id_project = answer) /\
  (is_Some id_project -> forall projects',
     params core cytomine storage id_storage projects' id_project = answer) /\
  (cytomine = Some "" ->
     answer = inl (BadRequest "core or cytomine parameter missing.")) /\
  (forall c, cytomine = Some c -> c <> "" -> id_storage = Some 0 ->
     answer = inl (BadRequest "idStorage or storage parameter missing.")) /\
  (forall c s ids, answer = inr (c, s, ids) ->
     c <> "" /\ s <> 0 /\
     from_option Some core cytomine = Some c /\
     from_option Some storage id_storage = Some s /\
     match from_option Some projects id_project with
     | None | Some "" => ids = []
     | Some p =>
         exists pieces,
           pieces = split_comma p /\
           String.concat "," pieces = p /\
           Forall (fun piece => has_comma piece = false) pieces /\
           Forall2 (fun piece id => py_int piece = Some id) pieces ids
     end).
Proof.
  intros params answer. subst params answer. unfold legacy_import_parameters.
  split; [by intros [c ->]|]. split; [by intros [i ->]|].
  split; [by intros [p ->]|]. split; [by intros ->|]. split.
  - intros c -> Hc ->. by destruct c.
  - intros c s ids.
    destruct (from_option Some core cytomine) as [c0|] eqn:Ec.
    2: { destruct cytomine, core; discriminate. }
    replace (match cytomine with Some c1 => Some c1 | None => core end)
      with (Some c0) by (by destruct cytomine).
    destruct c0 as [|ch c0]; [done|].
    destruct (from_option Some storage id_storage) as [s0|] eqn:Es.
    2: { destruct id_storage, storage; discriminate. }
    replace (match id_storage with Some i => Some i | None => storage end)
      with (Some s0) by (by destruct id_storage).
    destruct (Z.eq_dec s0 0) as [->|Hs]; [done|].
    assert (Hgo : forall X (a b : X), match s0 with 0 => a | _ => b end = b)
      by (intros; by destruct s0).
    rewrite Hgo.
    replace (match id_project with Some p => Some p | None => projects end)
      with (from_option Some projects id_project) by (by destruct id_project).
    destruct (from_option Some projects id_project) as [[|ch' p]|].
    + intros [= <- <- <-]. done.
    + destruct (ints py_int (split_comma (String ch' p))) as [l|] eqn:Hi; [|done].
      intros [= <- <- <-]. repeat split; try done.
      exists (split_comma (String ch' p)). split; [done|].
      split; [apply concat_split_comma|]. split; [apply split_comma_pieces|].
      by apply ints_Forall2.
    + intros [= <- <- <-]. done.
Qed.

End OperationsFacts.

(** ** The import pipeline when a step fails *)

Module ImportEdges.
Import Importer ImporterFacts Expected Broken.
#[local] Arguments ImageCheck.check_integrity : simpl never.

(** *** The errors of the filesystem calls *)

Lemma directory_error_is_OSError (fuel : nat) (fs0 : FS) (d : Path)
    (e : Exception) :
  directory_error fuel fs0 d = Some e -> is_OSError e = true.
Proof.
  revert d. induction fuel as [|fuel IH]; intros d; cbn [directory_error];
    destruct (node_at fs0 d) as [[| |t]|]; try (by intros [= <-]); try done.
  apply IH.
Qed.

Lemma directory_error_not_a_directory (fuel : nat) (fs0 : FS) (d : Path)
    (c : string) :
  node_at fs0 d = Some (File c) ->
  directory_error fuel fs0 d = Some NotADirectoryError.
Proof. intros H. destruct fuel; cbn [directory_error]; by rewrite H. Qed.

Lemma directory_error_missing (fuel : nat) (fs0 : FS) (d : Path) :
  node_at fs0 d = None -> directory_error fuel fs0 d = Some FileNotFoundError.
Proof. intros H. destruct fuel; cbn [directory_error]; by rewrite H. Qed.

Lemma os_mkdir_raises (d : Path) (fs0 : FS) (e : Exception) :
  os_mkdir d fs0 = Raise e -> is_OSError e = true.
Proof.
  unfold os_mkdir.
  destruct (directory_error SYMLOOP_MAX fs0 (parent d)) as [e'|] eqn:E.
  - intros [= <-]. by eapply directory_error_is_OSError.
  - destruct (node_at fs0 d); [by intros [= <-]|done].
Qed.

Lemma os_symlink_raises (path target : Path) (fs0 : FS) (e : Exception) :
  os_symlink path target fs0 = Raise e -> is_OSError e = true.
Proof.
  unfold os_symlink.
  destruct (directory_error SYMLOOP_MAX fs0 (parent path)) as [e'|] eqn:E.
  - intros [= <-]. by eapply directory_error_is_OSError.
  - destruct (node_at fs0 path); [by intros [= <-]|done].
Qed.

Lemma shutil_move_raises (origin dest : Path) (fs0 : FS) (e : Exception) :
  shutil_move origin dest fs0 = Raise e -> is_OSError e = true.
Proof.
  unfold shutil_move.
  destruct (is_dir fs0 dest && _); [by intros [= <-]|].
  destruct (fs0 !! origin); [|by intros [= <-]].
  destruct (directory_error SYMLOOP_MAX fs0 _) as [e'|] eqn:E; [|done].
  intros [= <-]. by eapply directory_error_is_OSError.
Qed.

Lemma shutil_copy_raises (origin dest : Path) (fs0 : FS) (e : Exception) :
  shutil_copy origin dest fs0 = Raise e -> is_OSError e = true.
Proof.
  unfold shutil_copy.
  destruct (resolve SYMLOOP_MAX fs0 origin) as [[q []]|];
    try by intros [= <-].
  destruct (directory_error SYMLOOP_MAX fs0 _) as [e'|] eqn:E; [|done].
  intros [= <-]. by eapply directory_error_is_OSError.
Qed.

(** What [run] does with an exception of its block. *)
Lemma run_handler (env : Env) (loggers : list Listener) (prefer_copy : bool)
    (w w' : World) (e : Exception) :
  Forall well_behaved loggers ->
  run_body env loggers prefer_copy w = (Raise e, w') ->
  exists log,
    run env loggers prefer_copy w =
      (Raise e,
       ({| self := self w'.1; fs := fs w'.1;
           emitted := emitted w'.1 ++
             [file_error_event (upload_path (self w'.1)) e] |}, log)).
Proof.
  intros Hwb Hb. unfold run, try_except. rewrite Hb. simpl.
  unfold self_upload_path, attr, lift, mbind, M_bind. simpl.
  match goal with |- context [notify loggers ?m ?a ?k ?w] =>
    destruct (notify_tolerant loggers m a k w Hwb) as [log ->] end.
  by exists log.
Qed.

(** X11. [run] neither swallows nor replaces an exception: what its block
    raises is raised again after one [FILE_ERROR] event that carries the
    upload path and the exception, with the files and the attributes left as
    the block left them; and what the block returns is returned with no
    further event. *)
Theorem run_announces_and_reraises (env : Env) (loggers : list Listener)
    (prefer_copy : bool) (w : World) :
  Forall well_behaved loggers ->
  (forall e w', run_body env loggers prefer_copy w = (Raise e, w') ->
     (run env loggers prefer_copy w).1 = Raise e /\
     (run env loggers prefer_copy w).2.1 =
       {| self := self w'.1; fs := fs w'.1;
          emitted := emitted w'.1 ++
            [file_error_event (upload_path (self w'.1)) e] |}) /\
  (forall r w', run_body env loggers prefer_copy w = (Ok r, w') ->
     run env loggers prefer_copy w = (Ok r, w')).
Proof.
  intros Hwb. split.
  - intros e w' Hb.
    destruct (run_handler env loggers prefer_copy w w' e Hwb Hb) as [log ->].
    done.
  - intros r w' Hb. unfold run, try_except. by rewrite Hb.
Qed.

Lemma run_announces_and_reraises_witness :
  (run Demo.env [Demo.stdout] false (Demo.world "text")).1 =
    Raise (NoMatchingFormatProblem
             (Some ["data"; "pims"; "upload0001"; "slide"])).
Proof.
  assert (Hwb : Forall well_behaved [Demo.stdout]) by (repeat constructor).
  refine (proj1 (proj1 (run_announces_and_reraises Demo.env [Demo.stdout] false
                   (Demo.world "text") Hwb) _
                   (run_body Demo.env [Demo.stdout] false (Demo.world "text")).2 _)).
  vm_compute. reflexivity.
Defined.

(** X12. With observers whose handlers raise at most [AttributeError], the
    three filesystem helpers turn an error of the operating system into a
    [FileErrorProblem] on the path they were given, after one event that
    carries the error: [FILE_ERROR] for [mkdir] and [mksymlink],
    [FILE_NOT_MOVED] for [move]; the helper itself changes no file (a call
    of the operating system that fails is taken to have changed none).  When
    the call succeeds nothing is announced.  The error that
    [mkdir] and [mksymlink] report for an entry to be made in a regular file
    is [NotADirectoryError], in a missing directory [FileNotFoundError], and
    for an entry that exists in a directory [FileExistsError]. *)
Theorem file_helpers_report_os_errors (loggers : list Listener) (w : World) :
  Forall well_behaved loggers ->
  let failed (c : M unit) (k : ImportEventType) (p : Path) (e : Exception) :=
    (c w).1 = Raise (FileErrorProblem (Some p)) /\
    (c w).2.1 =
      {| self := self w.1; fs := fs w.1;
         emitted := emitted w.1 ++
           [evt k [APath (Some p)] [("exception", AException e)]] |} in
  let done (c : M unit) (fs' : FS) :=
    c w = (Ok tt, ({| self := self w.1; fs := fs'; emitted := emitted w.1 |}, w.2)) in
  (forall d, match os_mkdir d (fs w.1) with
             | Raise e => failed (mkdir loggers d) FILE_ERROR d e
             | Ok fs' => done (mkdir loggers d) fs'
             end) /\
  (forall origin dest,
     match shutil_move origin dest (fs w.1) with
     | Raise e => failed (move loggers origin dest false) FILE_NOT_MOVED origin e
     | Ok fs' => done (move loggers origin dest false) fs'
     end /\
     match shutil_copy origin dest (fs w.1) with
     | Raise e => failed (move loggers origin dest true) FILE_NOT_MOVED origin e
     | Ok fs' => done (move loggers origin dest true) fs'
     end) /\
  (forall path target,
     match os_symlink path target (fs w.1) with
     | Raise e => failed (mksymlink loggers path (Some target)) FILE_ERROR path e
     | Ok fs' => done (mksymlink loggers path (Some target)) fs'
     end) /\
  (forall path target,
     let made (e : Exception) :=
       os_mkdir path (fs w.1) = Raise e /\
       os_symlink path target (fs w.1) = Raise e in
     (forall c, node_at (fs w.1) (parent path) = Some (File c) ->
        made NotADirectoryError) /\
     (node_at (fs w.1) (parent path) = None -> made FileNotFoundError) /\
     (node_at (fs w.1) (parent path) = Some Dir ->
      is_Some (node_at (fs w.1) path) -> made FileExistsError)).
Proof.
  intros Hwb failed done. subst failed done. cbn beta.
  destruct w as [[s fs0 em] o]. cbn [fst snd self fs emitted].
  assert (Hfail : forall (op : FS -> Res FS) k p e,
    op fs0 = Raise e -> is_OSError e = true ->
    let c := try_except (syscall op) is_OSError (fun e =>
      notify loggers k [APath (Some p)] [("exception", AException e)] ;;
      raise (FileErrorProblem (Some p))) in
    (c ({| self := s; fs := fs0; emitted := em |}, o)).1
      = Raise (FileErrorProblem (Some p)) /\
    (c ({| self := s; fs := fs0; emitted := em |}, o)).2.1 =
      {| self := s; fs := fs0;
         emitted := em ++ [evt k [APath (Some p)] [("exception", AException e)]] |}).
  { intros op k p e Hop He. cbn zeta.
    unfold try_except, syscall, lift. cbn [fst snd fs]. rewrite Hop, He.
    unfold mbind, M_bind.
    match goal with |- context [notify loggers ?m ?a ?kw ?w] =>
      destruct (notify_tolerant loggers m a kw w Hwb) as [log ->] end.
    done. }
  assert (Hok : forall (op : FS -> Res FS) k p fs',
    op fs0 = Ok fs' ->
    try_except (syscall op) is_OSError (fun e =>
      notify loggers k [APath (Some p)] [("exception", AException e)] ;;
      raise (FileErrorProblem (Some p)))
      ({| self := s; fs := fs0; emitted := em |}, o)
    = (Ok tt, ({| self := s; fs := fs'; emitted := em |}, o))).
  { intros op k p fs' Hop. unfold try_except, syscall, lift.
    cbn [fst snd fs]. by rewrite Hop. }
  split; [|split; [|split]].
  - intros d. destruct (os_mkdir d fs0) as [fs'|e] eqn:E.
    + by apply Hok.
    + apply Hfail; [done|]. by eapply os_mkdir_raises.
  - intros origin dest. split.
    + destruct (shutil_move origin dest fs0) as [fs'|e] eqn:E.
      * by apply (Hok (shutil_move origin dest)).
      * apply (Hfail (shutil_move origin dest)); [done|].
        by eapply shutil_move_raises.
    + destruct (shutil_copy origin dest fs0) as [fs'|e] eqn:E.
      * by apply (Hok (shutil_copy origin dest)).
      * apply (Hfail (shutil_copy origin dest)); [done|].
        by eapply shutil_copy_raises.
  - intros path target. destruct (os_symlink path target fs0) as [fs'|e] eqn:E.
    + by apply (Hok (os_symlink path target)).
    + apply (Hfail (os_symlink path target)); [done|].
      by eapply os_symlink_raises.
  - intros path target. cbn zeta. unfold os_mkdir, os_symlink.
    split; [|split].
    + intros c Hc.
      by rewrite (directory_error_not_a_directory _ _ _ _ Hc).
    + intros Hc. by rewrite (directory_error_missing _ _ _ Hc).
    + intros Hd [n Hn]. unfold SYMLOOP_MAX. cbn [directory_error].
      by rewrite Hd, Hn.
Qed.

Lemma file_helpers_report_os_errors_witness :
  (mkdir [Demo.stdout] ["tmp"; "uploaded"] (Demo.world "raw")).1 =
    Raise (FileErrorProblem (Some ["tmp"; "uploaded"])) /\
  os_mkdir ["tmp"; "uploaded"; "slide"; "below"] (fs (Demo.world "raw").1) =
    Raise NotADirectoryError.
Proof.
  assert (Hwb : Forall well_behaved [Demo.stdout]) by (repeat constructor).
  pose proof (file_helpers_report_os_errors [Demo.stdout] (Demo.world "raw") Hwb)
    as (Hmk & _ & _ & Herr).
  split; [exact (proj1 (Hmk ["tmp"; "uploaded"]))|].
  exact (proj1 (proj1 (Herr ["tmp"; "uploaded"; "slide"; "below"] [])
                  "raw" eq_refl)).
Defined.

(** *** Running a step without observers *)

Lemma with_observers {A} (c1 c2 : M A) (p p' : Pipeline) (o : ObserverLog)
    (r : Res A) :
  same_outcome c1 c2 ->
  (c2 (p, o)).1 = r -> (c2 (p, o)).2.1 = p' ->
  exists log, c1 (p, o) = (r, (p', log)).
Proof.
  intros Hs Hr Hp. destruct (Hs p o o) as [H1 H2].
  destruct (c1 (p, o)) as [r1 [p1 log]]. exists log.
  cbn [fst snd] in *. congruence.
Qed.

Ltac run_quiet :=
  unfold mbind, M_bind, try_except, self_pending_file, self_pending_name,
    self_upload_dir, self_upload_path, self_original_path, self_spatial_path,
    self_spatial, self_histogram, self_processed_dir, attr, assign, files,
    syscall, extern, lift, of_res, as_path, assert, notify, raise, mret, M_ret;
  cbn -[app String.append path_exists os_mkdir os_symlink shutil_move
        shutil_copy parent].

Section Failures.
Context (env : Env) (loggers : list Listener).
Context (Hwb : Forall well_behaved loggers).

Lemma move_in_rejects (prefer_copy : bool) (w : World) :
  let pf := pending_file (self w.1) in
  (is_extracted env pf = false /\ parent pf <> PENDING_PATH env) \/
    path_exists (fs w.1) pf = false ->
  exists log,
    move_in env loggers prefer_copy w =
      (Raise (FilepathNotFoundProblem pf),
       ({| self := self w.1; fs := fs w.1;
           emitted := emitted w.1 ++
             [evt START_DATA_EXTRACTION [APath (Some pf)] [];
              evt FILE_NOT_FOUND [APath (Some pf)] []] |}, log)).
Proof using Hwb.
  intros pf Hbad. destruct w as [[s fs0 em] o]. cbn [fst snd self fs emitted] in *.
  apply (with_observers _ (move_in env [] prefer_copy));
    [apply sim_move_in; [done|constructor]|..].
  all: unfold move_in; run_quiet; fold pf.
  all: assert (Hc : negb (is_extracted env pf)
                      && negb (bool_decide (parent pf = PENDING_PATH env))
                    || negb (path_exists fs0 pf) = true)
         by (destruct Hbad as [[-> Hne] | ->];
             [by rewrite bool_decide_eq_false_2|by rewrite orb_true_r]).
  all: rewrite Hc; cbn -[app]; rewrite <- ?app_assoc; reflexivity.
Qed.
End Failures.

(** X13. With observers whose handlers raise at most [AttributeError], a
    pending file that is neither in the pending directory nor taken out of
    an archive, or that does not exist, is refused: the import raises
    [FilepathNotFoundProblem] on it after [START_DATA_EXTRACTION],
    [FILE_NOT_FOUND] and the closing [FILE_ERROR], and nothing is created or
    moved. *)
Theorem missing_pending_file_is_refused (env : Env) (loggers : list Listener)
    (prefer_copy : bool) (w : World) :
  Forall well_behaved loggers ->
  let pf := pending_file (self w.1) in
  (is_extracted env pf = false /\ parent pf <> PENDING_PATH env) \/
    path_exists (fs w.1) pf = false ->
  (run env loggers prefer_copy w).1 = Raise (FilepathNotFoundProblem pf) /\
  (run env loggers prefer_copy w).2.1 =
    {| self := self w.1; fs := fs w.1;
       emitted := emitted w.1 ++
         [evt START_DATA_EXTRACTION [APath (Some pf)] [];
          evt FILE_NOT_FOUND [APath (Some pf)] [];
          file_error_event (upload_path (self w.1))
            (FilepathNotFoundProblem pf)] |}.
Proof.
  intros Hwb pf Hbad.
  destruct (move_in_rejects env loggers Hwb prefer_copy w Hbad) as [log Hm].
  fold pf in Hm.
  assert (Hb : run_body env loggers prefer_copy w =
               (Raise (FilepathNotFoundProblem pf),
                ({| self := self w.1; fs := fs w.1;
                    emitted := emitted w.1 ++
                      [evt START_DATA_EXTRACTION [APath (Some pf)] [];
                       evt FILE_NOT_FOUND [APath (Some pf)] []] |}, log))).
  { unfold run_body, identify. apply bind_raise. by apply bind_raise. }
  destruct (run_handler env loggers prefer_copy w _ _ Hwb Hb) as [log' ->].
  cbn [fst snd self fs emitted]. split; [done|]. by rewrite <- app_assoc.
Qed.

Lemma missing_pending_file_is_refused_witness :
  let w : World :=
    ({| self := FileImporter_init ["tmp"; "uploaded"; "absent"] None;
        fs := Demo.pending "raw"; emitted := [] |},
     {| delivered := []; warnings := [] |}) in
  (run Demo.env [Demo.stdout] false w).1 =
    Raise (FilepathNotFoundProblem ["tmp"; "uploaded"; "absent"]) /\
  fs (run Demo.env [Demo.stdout] false w).2.1 = Demo.pending "raw".
Proof.
  intros w.
  assert (Hwb : Forall well_behaved [Demo.stdout]) by (repeat constructor).
  assert (Hbad : path_exists (fs w.1) (pending_file (self w.1)) = false)
    by (vm_compute; reflexivity).
  destruct (missing_pending_file_is_refused Demo.env [Demo.stdout] false w Hwb
              (or_intror Hbad)) as [H1 H2].
  split; [exact H1|]. rewrite H2. reflexivity.
Defined.

(** X14. With observers whose handlers raise at most [AttributeError],
    format detection asks the format registry first and looks for an
    archive only when no format matches: a file that the registry knows is
    never unpacked, an archive is identified by the format of the archive,
    and a file that is neither is refused with [NoMatchingFormatProblem]
    after an [ERROR_NO_FORMAT] event, before the processed directory is
    made.  Detection itself changes no file and no attribute. *)
Theorem format_detection (env : Env) (loggers : list Listener) (w : World)
    (up : Path) :
  Forall well_behaved loggers ->
  upload_path (self w.1) = Some up ->
  let r := detect_format env loggers w in
  let start := evt START_FORMAT_DETECTION [APath (Some up)] [] in
  let found f := evt END_FORMAT_DETECTION [APath (Some up); AFormat f] [] in
  self r.2.1 = self w.1 /\ fs r.2.1 = fs w.1 /\
  (forall f, FormatFactory_match env (fs w.1) up = Some f ->
     r.1 = Ok (f, None) /\ emitted r.2.1 = emitted w.1 ++ [start; found f]) /\
  (forall a, FormatFactory_match env (fs w.1) up = None ->
     Archive_from_path env (fs w.1) up = Some a ->
     r.1 = Ok (archive_format a, Some a) /\
     emitted r.2.1 = emitted w.1 ++ [start; found (archive_format a)]) /\
  (FormatFactory_match env (fs w.1) up = None ->
   Archive_from_path env (fs w.1) up = None ->
     r.1 = Raise (NoMatchingFormatProblem (Some up)) /\
     emitted r.2.1 =
       emitted w.1 ++ [start; evt ERROR_NO_FORMAT [APath (Some up)] []] /\
     forall prefer_copy w0,
       move_in env loggers prefer_copy w0 = (Ok tt, w) ->
       (run env loggers prefer_copy w0).1 =
         Raise (NoMatchingFormatProblem (Some up)) /\
       processed_dir (self (run env loggers prefer_copy w0).2.1) =
         processed_dir (self w.1) /\
       fs (run env loggers prefer_copy w0).2.1 = fs w.1).
Proof.
  intros Hwb Hup r start found.
  destruct w as [[s fs0 em] o]. cbn [fst snd self fs emitted] in *.
  destruct (sim_detect_format env loggers [] Hwb (List.Forall_nil _)
              {| self := s; fs := fs0; emitted := em |} o o) as [Hr Hp].
  assert (Hq1 : (detect_format env [] ({| self := s; fs := fs0; emitted := em |}, o)).1 =
    match FormatFactory_match env fs0 up, Archive_from_path env fs0 up with
    | Some f, _ => Ok (f, None)
    | None, Some a => Ok (archive_format a, Some a)
    | None, None => Raise (NoMatchingFormatProblem (Some up))
    end).
  { unfold detect_format. run_quiet. rewrite Hup. cbn -[app].
    destruct (FormatFactory_match env fs0 up) as [f|]; [reflexivity|].
    destruct (Archive_from_path env fs0 up) as [a|]; reflexivity. }
  assert (Hq2 : (detect_format env [] ({| self := s; fs := fs0; emitted := em |}, o)).2.1 =
    {| self := s; fs := fs0;
       emitted := em ++ [start;
         match FormatFactory_match env fs0 up, Archive_from_path env fs0 up with
         | Some f, _ => found f
         | None, Some a => found (archive_format a)
         | None, None => evt ERROR_NO_FORMAT [APath (Some up)] []
         end] |}).
  { unfold detect_format. run_quiet. rewrite Hup. cbn -[app].
    destruct (FormatFactory_match env fs0 up) as [f|];
      [cbn -[app]; by rewrite <- app_assoc|].
    destruct (Archive_from_path env fs0 up) as [a|];
      cbn -[app]; by rewrite <- app_assoc. }
  rewrite <- Hr in Hq1. rewrite <- Hp in Hq2. fold r in Hq1, Hq2.
  rewrite Hq2. cbn [self fs emitted].
  split; [done|]. split; [done|]. split; [|split].
  - intros f Hf. rewrite Hf in Hq1 |- *. done.
  - intros a Hf Ha. rewrite Hf, Ha in Hq1 |- *. done.
  - intros Hf Ha. rewrite Hf, Ha in Hq1, Hq2 |- *.
    split; [done|]. split; [done|].
    intros prefer_copy w0 Hm.
    destruct r as [r1 [rp log]] eqn:Er. cbn [fst snd] in Hq1, Hq2. subst r1 rp.
    assert (Hb : run_body env loggers prefer_copy w0 =
      (Raise (NoMatchingFormatProblem (Some up)),
       ({| self := s; fs := fs0;
           emitted := em ++ [start; evt ERROR_NO_FORMAT [APath (Some up)] []] |},
        log))).
    { unfold run_body, identify. apply bind_raise.
      rewrite (bind_step _ _ _ _ _ Hm). by apply bind_raise. }
    destruct (run_handler env loggers prefer_copy w0 _ _ Hwb Hb) as [log' ->].
    done.
Qed.

Lemma format_detection_witness :
  (run Demo.env [Demo.stdout] false (Demo.world "text")).1 =
    Raise (NoMatchingFormatProblem (Some ["data"; "pims"; "upload0001"; "slide"])) /\
  processed_dir (self (run Demo.env [Demo.stdout] false (Demo.world "text")).2.1)
    = None.
Proof.
  pose (w := (move_in Demo.env [Demo.stdout] false (Demo.world "text")).2).
  assert (Hwb : Forall well_behaved [Demo.stdout]) by (repeat constructor).
  destruct (format_detection Demo.env [Demo.stdout] w
              ["data"; "pims"; "upload0001"; "slide"] Hwb eq_refl)
    as (_ & _ & _ & _ & H).
  destruct (H ltac:(vm_compute; reflexivity) ltac:(vm_compute; reflexivity))
    as (_ & _ & Hrun).
  destruct (Hrun false (Demo.world "text") ltac:(vm_compute; reflexivity))
    as (H1 & H2 & _).
  split; [exact H1|]. rewrite H2. reflexivity.
Defined.

(** X21. [deploy_histogram], with observers whose handlers raise at most
    [AttributeError].  The builder is called once, after
    [START_HISTOGRAM_DEPLOY], and the files are left as the builder leaves
    them.  What the builder returns is recorded as the histogram and, when
    it has the histogram role, returned after [END_HISTOGRAM_DEPLOY];
    without that role the method raises [AssertionError].  When the builder
    raises [FileNotFoundError] or [FileExistsError] the method announces
    [ERROR_HISTOGRAM] with the error and raises [FileErrorProblem] on the
    histogram path; an error of any other kind goes through as it is,
    without [ERROR_HISTOGRAM].  In no case of failure is a histogram
    recorded. *)
Theorem histogram_deployment (env : Env) (loggers : list Listener)
    (image : option Image) (w : World) (pd : Path) :
  Forall well_behaved loggers ->
  processed_dir (self w.1) = Some pd ->
  let hp := pd ++ [HISTOGRAM_STEM] in
  let r := deploy_histogram env loggers image w in
  let start := evt START_HISTOGRAM_DEPLOY [APath (Some hp); AImage image] [] in
  let built :=
    build_histogram_file env image hp
      ({| self := set_histogram_path (Some hp) (self w.1); fs := fs w.1;
          emitted := emitted w.1 ++ [start] |}, w.2) in
  histogram_path (self r.2.1) = Some hp /\
  fs r.2.1 = fs built.2.1 /\
  match built.1 with
  | Ok h =>
      histogram (self r.2.1) = Some h /\
      if has_histogram_role env h then
        r.1 = Ok (Some h) /\
        emitted r.2.1 = emitted w.1 ++
          [start; evt END_HISTOGRAM_DEPLOY [APath (Some hp); AImage image] []]
      else
        r.1 = Raise AssertionError /\ emitted r.2.1 = emitted w.1 ++ [start]
  | Raise e =>
      histogram (self r.2.1) = histogram (self w.1) /\
      (e = FileNotFoundError \/ e = FileExistsError ->
         r.1 = Raise (FileErrorProblem (Some hp)) /\
         emitted r.2.1 = emitted w.1 ++
           [start; evt ERROR_HISTOGRAM [APath (Some hp); AImage image]
                     [("exception", AException e)]]) /\
      (e <> FileNotFoundError -> e <> FileExistsError ->
         r.1 = Raise e /\ emitted r.2.1 = emitted w.1 ++ [start])
  end.
Proof.
  intros Hwb Hpd hp r start built.
  destruct w as [[s fs0 em] o]. cbn [fst snd self fs emitted] in *.
  destruct (sim_deploy_histogram env loggers [] Hwb (List.Forall_nil _) image
              {| self := s; fs := fs0; emitted := em |} o o) as [Hr Hp].
  fold r in Hr, Hp. rewrite Hr, Hp. clear Hr Hp r.
  destruct s. cbn [processed_dir] in Hpd. subst.
  subst built. unfold deploy_histogram, build_histogram_file. run_quiet. fold hp.
  destruct (histogram_engine env fs0 image hp) as [blob|e] eqn:Hb.
  - cbn -[app insert].
    destruct (has_histogram_role env hp);
      cbn -[app insert]; rewrite <- ?app_assoc; repeat split; done.
  - assert (Hcases : (e = FileNotFoundError \/ e = FileExistsError) \/
                     (e <> FileNotFoundError /\ e <> FileExistsError)).
    { destruct e; first [by left; left | by left; right | by right]. }
    cbn -[app insert].
    destruct Hcases as [[-> | ->] | [H1 H2]].
    + cbn -[app insert]. rewrite <- ?app_assoc.
      repeat split; try done; try (intros H; by destruct H).
    + cbn -[app insert]. rewrite <- ?app_assoc.
      repeat split; try done; try (intros _ H; by destruct H).
    + split; [by destruct e|]. split; [by destruct e|].
      split; [by destruct e|]. split.
      * intros [-> | ->]; done.
      * intros _ _. by destruct e.
Qed.

Lemma histogram_deployment_witness :
  let w : World :=
    ({| self := set_processed_dir (Some ["data"; "pims"])
                  (FileImporter_init ["tmp"; "uploaded"; "slide"] None);
        fs := Demo.pending "raw"; emitted := [] |},
     {| delivered := []; warnings := [] |}) in
  (deploy_histogram Demo.env [Demo.stdout] None w).1 =
    Ok (Some ["data"; "pims"; "histogram"]).
Proof.
  intros w.
  assert (Hwb : Forall well_behaved [Demo.stdout]) by (repeat constructor).
  destruct (histogram_deployment Demo.env [Demo.stdout] None w ["data"; "pims"]
              Hwb eq_refl) as (_ & _ & H).
  exact (proj1 (proj2 H)).
Defined.

(** *** Collections *)

Lemma register_children_spec (loggers : list Listener)
    (cyto : option CytomineHooks) (prefer_copy : bool) (children : list Path) :
  Forall well_behaved loggers ->
  forall (tasks : list Signature) (p : Pipeline) (o : ObserverLog),
  exists log,
    register_children loggers cyto (task_name cyto) prefer_copy children tasks
      (p, o) =
    (Ok (tasks ++ omap (child_signature cyto prefer_copy) children),
     ({| self := self p; fs := fs p;
         emitted := emitted p ++
           (register_event (upload_path (self p)) <$> children) |}, log)).
Proof.
  intros Hwb. induction children as [|child rest IH]; intros tasks p o.
  - exists o. destruct p. cbn. by rewrite !app_nil_r.
  - cbn [register_children].
    unfold mbind at 1, M_bind at 1, self_upload_path, attr, lift.
    cbn [fst snd].
    unfold mbind at 1, M_bind at 1.
    match goal with |- context [notify loggers ?m ?a ?k ?w] =>
      destruct (notify_tolerant loggers m a k w Hwb) as [log1 ->] end.
    cbn [fst snd self fs emitted].
    unfold mbind at 1, M_bind at 1.
    match goal with |- context [try_except ?b ?c ?h ?w] =>
      assert (Htry : try_except b c h w =
        (Ok (tasks ++ option_list (child_signature cyto prefer_copy child)), w))
    end.
    { unfold try_except, child_signature. destruct cyto as [c|].
      - unfold mbind, M_bind, of_res.
        destruct (new_listener_from_registered_child c child) as [nl|e];
          cbn; [reflexivity|by rewrite app_nil_r].
      - reflexivity. }
    rewrite Htry.
    match goal with |- context [register_children _ _ _ _ rest ?t (?p', ?o')] =>
      destruct (IH t p' o') as [log2 ->] end.
    exists log2. cbn [self fs emitted fmap list_fmap omap list_omap].
    f_equal; [|f_equal].
    + f_equal. rewrite <- app_assoc. f_equal.
      by destruct (child_signature cyto prefer_copy child).
    + f_equal. by rewrite <- app_assoc.
Qed.

(** X17. With observers whose handlers raise at most [AttributeError],
    [import_collection] announces every extracted child with one
    [REGISTER_FILE] event, in the order of the listing, and hands one task
    per child to the worker pool: [run_import_with_cytomine] when a
    [CytomineListener] is registered, [run_import] otherwise.  A child whose
    task cannot be built is left out and its siblings are kept.  The
    importer's own attributes are not touched, and the value returned when
    the pool is done is always the empty list. *)
Theorem collection_children_are_registered (env : Env)
    (loggers : list Listener) (collection : Path) (prefer_copy : bool)
    (w : World) :
  Forall well_behaved loggers ->
  let cyto := head (omap cytomine loggers) in
  let children := get_extracted_children env (fs w.1) collection in
  let tasks := omap (child_signature cyto prefer_copy) children in
  let r := import_collection env loggers collection prefer_copy w in
  emitted r.2.1 =
    emitted w.1 ++ (register_event (upload_path (self w.1)) <$> children) /\
  self r.2.1 = self w.1 /\
  fs r.2.1 = (group_get env tasks (fs w.1)).2 /\
  r.1 = match (group_get env tasks (fs w.1)).1 with
        | Ok _ => Ok []
        | Raise e => Raise e
        end /\
  Forall (fun t => task t = task_name cyto) tasks /\
  (length tasks <= length children)%nat /\
  (cyto = None -> length tasks = length children).
Proof.
  intros Hwb cyto children tasks r.
  destruct w as [p o]. cbn [fst snd] in *.
  assert (Hr : exists log, r =
    (match (group_get env tasks (fs p)).1 with
     | Ok _ => Ok []
     | Raise e => Raise e
     end,
     ({| self := self p; fs := (group_get env tasks (fs p)).2;
         emitted := emitted p ++
           (register_event (upload_path (self p)) <$> children) |}, log))).
  { subst r. unfold import_collection. fold cyto.
    unfold mbind at 1, M_bind at 1, files, lift. cbn [fst snd].
    unfold mbind at 1, M_bind at 1.
    change (match cyto with
            | Some _ => "pims.tasks.worker.run_import_with_cytomine"
            | None => "pims.tasks.worker.run_import"
            end) with (task_name cyto).
    destruct (register_children_spec loggers cyto prefer_copy
                (get_extracted_children env (fs p) collection) Hwb [] p o)
      as [log ->].
    exists log. fold children. cbn [app]. fold tasks.
    unfold mbind, M_bind, extern, lift. cbn [fst snd self fs emitted].
    destruct (group_get env tasks (fs p)) as [[u|e] fs']; reflexivity. }
  destruct Hr as [log ->]. cbn [fst snd self fs emitted].
  repeat split; try done.
  - subst tasks. apply Forall_forall. intros t Ht.
    apply list_elem_of_omap in Ht as (child & _ & Hc).
    unfold child_signature in Hc. destruct cyto as [c|].
    + destruct (new_listener_from_registered_child c child); by simplify_eq.
    + by simplify_eq.
  - subst tasks. clear. induction children as [|c cs IH]; [done|]. cbn.
    destruct (child_signature cyto prefer_copy c); cbn; lia.
  - intros Hc. subst tasks. rewrite Hc. clear.
    induction children as [|c cs IH]; [done|]. cbn. by rewrite IH.
Qed.

Lemma collection_children_are_registered_witness :
  let w := (Demo.world "zip") in
  let r := import_collection Demo.env [Demo.stdout] ["d"] false w in
  r.1 = Ok [] /\ length (emitted r.2.1) = 2%nat.
Proof.
  intros w r.
  assert (Hwb : Forall well_behaved [Demo.stdout]) by (repeat constructor).
  destruct (collection_children_are_registered Demo.env [Demo.stdout] ["d"]
              false w Hwb) as (He & _ & _ & Hr & _).
  split; [exact Hr|]. subst r. rewrite He. reflexivity.
Defined.

(** *** Running a step with observers that let every event through *)

Ltac tolerate Hwb :=
  match goal with |- context [notify ?l ?m ?a ?k ?w] =>
    let log := fresh "log" in
    destruct (notify_tolerant l m a k w Hwb) as [log ->]
  end.

Ltac run_with Hwb :=
  repeat first
    [ progress
        (unfold mbind, M_bind, try_except, self_pending_file,
           self_pending_name, self_upload_dir, self_upload_path,
           self_original_path, self_spatial_path, self_spatial,
           self_histogram, self_processed_dir, attr, assign, files, syscall,
           extern, lift, of_res, as_path, assert, raise, mret, M_ret;
         cbn -[app String.append path_exists os_mkdir os_symlink shutil_move
               shutil_copy parent notify insert])
    | tolerate Hwb ].

(** X15. Unpacking an archive, with observers whose handlers raise at most
    [AttributeError]: when the extraction raises [ArchiveError] the
    import announces [ERROR_UNPACKING] with the error and raises
    [FileErrorProblem] on the upload path; any other error of the
    extraction goes through as it is, with no [ERROR_UNPACKING] event. *)
Theorem failed_unpacking (env : Env) (loggers : list Listener)
    (format : Format) (archive : Archive) (prefer_copy : bool) (w : World)
    (ud : Path) (fs1 fs2 : FS) (e : Exception) :
  Forall well_behaved loggers ->
  upload_dir (self w.1) = Some ud ->
  let pd := ud ++ [PROCESSED_DIR] in
  let op := pd ++ [ORIGINAL_STEM +:+ "." +:+ get_identifier format] in
  let up := upload_path (self w.1) in
  let r := create_original_role env loggers format (Some archive) prefer_copy w in
  os_mkdir pd (fs w.1) = Ok fs1 ->
  archive_extract env archive op fs1 = (Raise e, fs2) ->
  fs r.2.1 = fs2 /\
  original_path (self r.2.1) = Some op /\
  (e = ArchiveError ->
     r.1 = Raise (FileErrorProblem up) /\
     emitted r.2.1 = emitted w.1 ++
       [evt START_UNPACKING [APath up] [];
        evt ERROR_UNPACKING [APath up] [("exception", AException e)]]) /\
  (e <> ArchiveError ->
     r.1 = Raise e /\
     emitted r.2.1 = emitted w.1 ++ [evt START_UNPACKING [APath up] []]).
Proof.
  intros Hwb Hud pd op up r Hmk Hex. subst r up.
  destruct w as [[s fs0 em] o]. destruct s.
  cbn [fst snd self fs emitted upload_dir upload_path] in *. subst.
  unfold create_original_role, mkdir.
  run_with Hwb. fold pd. rewrite Hmk. run_with Hwb. fold pd. fold op.
  rewrite Hex. run_with Hwb.
  assert (Hcases : e = ArchiveError \/ e <> ArchiveError)
    by (destruct e; first [by left | by right]).
  destruct Hcases as [-> | Hne].
  - run_with Hwb. rewrite <- ?app_assoc. repeat split; try done.
  - assert (Hc : match e with ArchiveError => true | _ => false end = false)
      by (by destruct e).
    rewrite Hc. run_with Hwb. repeat split; try done.
Qed.

Lemma failed_unpacking_witness :
  let env := with_extract (fun _ _ fs => (Raise ArchiveError, fs)) Demo.env in
  let up := ["data"; "pims"; "upload0001"; "slide"] in
  (create_original_role env [Demo.stdout] (Demo.zip_at up)
     (Some {| archive_path := up; archive_format := Demo.zip_at up |}) false
     (uploaded "zip")).1 = Raise (FileErrorProblem (Some up)).
Proof.
  intros env up.
  assert (Hwb : Forall well_behaved [Demo.stdout]) by (repeat constructor).
  pose (pd := ["data"; "pims"; "upload0001"; "processed"]).
  destruct (failed_unpacking env [Demo.stdout] (Demo.zip_at up)
              {| archive_path := up; archive_format := Demo.zip_at up |} false
              (uploaded "zip") ["data"; "pims"; "upload0001"]
              (<[pd := Dir]> (fs (uploaded "zip").1))
              (<[pd := Dir]> (fs (uploaded "zip").1))
              ArchiveError Hwb eq_refl eq_refl eq_refl) as (_ & _ & H & _).
  exact (proj1 (H eq_refl)).
Defined.

(** X16. An archive that holds one image in several files, with observers
    whose handlers raise at most [AttributeError]: when the format
    registry knows the extracted directory, the directory takes the name of
    the original role of that format, the import goes on with that format,
    and the upload path of the importer becomes the original path, so that
    this is the path the import returns. *)
Theorem multi_file_archive (env : Env) (loggers : list Listener)
    (format format' : Format) (archive : Archive) (prefer_copy : bool)
    (w : World) (ud : Path) (fs1 fs2 fs3 : FS) :
  Forall well_behaved loggers ->
  upload_dir (self w.1) = Some ud ->
  let pd := ud ++ [PROCESSED_DIR] in
  let op := pd ++ [ORIGINAL_STEM +:+ "." +:+ get_identifier format] in
  let nop := pd ++ [ORIGINAL_STEM +:+ "." +:+ get_identifier format'] in
  let up := upload_path (self w.1) in
  let r := create_original_role env loggers format (Some archive) prefer_copy w in
  os_mkdir pd (fs w.1) = Ok fs1 ->
  archive_extract env archive op fs1 = (Ok tt, fs2) ->
  FormatFactory_match env fs2 op = Some format' ->
  shutil_move op nop fs2 = Ok fs3 ->
  r.1 = Ok (Single format') /\
  fs r.2.1 = fs3 /\
  processed_dir (self r.2.1) = Some pd /\
  original_path (self r.2.1) = Some nop /\
  upload_path (self r.2.1) = Some nop /\
  emitted r.2.1 = emitted w.1 ++
    [evt START_UNPACKING [APath up] [];
     evt END_UNPACKING [APath up; APath (Some nop)]
       [("format", AFormat format'); ("is_collection", ABool false)]].
Proof.
  intros Hwb Hud pd op nop up r Hmk Hex Hf Hmv. subst r up.
  destruct w as [[s fs0 em] o]. destruct s.
  cbn [fst snd self fs emitted upload_dir upload_path] in *. subst.
  unfold create_original_role, mkdir, move.
  run_with Hwb. fold pd. rewrite Hmk. run_with Hwb. fold pd. fold op.
  rewrite Hex. run_with Hwb. fold pd. fold op. rewrite Hf.
  run_with Hwb. fold pd. fold op. fold nop. rewrite Hmv. run_with Hwb.
  rewrite <- ?app_assoc. repeat split; done.
Qed.

Lemma multi_file_archive_witness :
  let env := with_extract bundle_extract Demo.env in
  let up := ["data"; "pims"; "upload0001"; "slide"] in
  let r := create_original_role env [Demo.stdout] (Demo.zip_at up)
             (Some {| archive_path := up; archive_format := Demo.zip_at up |})
             false (uploaded "zip") in
  upload_path (self r.2.1) =
    Some ["data"; "pims"; "upload0001"; "processed"; "original.PYRTIFF"].
Proof.
  intros env up r.
  assert (Hwb : Forall well_behaved [Demo.stdout]) by (repeat constructor).
  pose (w := uploaded "zip").
  pose (pd := ["data"; "pims"; "upload0001"; "processed"]).
  pose (op := pd ++ ["original.ZIP"]).
  pose (fs1 := <[pd := Dir]> (fs w.1)).
  pose (fs2 := <[op := File "tiff"]> fs1).
  exact (proj1 (proj2 (proj2 (proj2 (proj2
    (multi_file_archive env [Demo.stdout] (Demo.zip_at up) (Demo.tiff_at op)
       {| archive_path := up; archive_format := Demo.zip_at up |} false
       w ["data"; "pims"; "upload0001"] fs1 fs2
       (rename_tree op (pd ++ ["original.PYRTIFF"]) fs2)
       Hwb eq_refl eq_refl eq_refl eq_refl eq_refl)))))).
Defined.

(** X18. With observers whose handlers raise at most [AttributeError], a
    format that is not spatial passes detection and the integrity
    check and is then refused with [NotImplementedError]: no spatial role
    and no histogram are made, and the only event after the integrity check
    is the closing [FILE_ERROR]. *)
Theorem non_spatial_format_is_not_deployed (env : Env)
    (loggers : list Listener) (format : Format) (original : Image) (w : World) :
  Forall well_behaved loggers ->
  is_spatial format = false ->
  deploy env loggers format original w = (Raise NotImplementedError, w) /\
  forall prefer_copy w0 w1,
    identify env loggers prefer_copy w0 = (Ok (Single format), w1) ->
    check_original_integrity env loggers format w1 = (Ok original, w) ->
    (run env loggers prefer_copy w0).1 = Raise NotImplementedError /\
    (run env loggers prefer_copy w0).2.1 =
      {| self := self w.1; fs := fs w.1;
         emitted := emitted w.1 ++
           [file_error_event (upload_path (self w.1)) NotImplementedError] |}.
Proof.
  intros Hwb Hsp.
  assert (Hd : deploy env loggers format original w
               = (Raise NotImplementedError, w)).
  { unfold deploy. rewrite Hsp. reflexivity. }
  split; [exact Hd|]. intros prefer_copy w0 w1 Hid Hco.
  assert (Hb : run_body env loggers prefer_copy w0
               = (Raise NotImplementedError, w)).
  { unfold run_body. rewrite (bind_step _ _ _ _ _ Hid).
    by rewrite (bind_step _ _ _ _ _ Hco). }
  destruct (run_handler env loggers prefer_copy w0 _ _ Hwb Hb) as [log ->].
  done.
Qed.

Lemma non_spatial_format_is_not_deployed_witness :
  let format := Demo.zip_at ["data"; "pims"; "upload0001"; "slide"] in
  let original := {| image_path := ["o"]; image_format := format |} in
  deploy Demo.env [Demo.stdout] format original (Demo.world "zip") =
    (Raise NotImplementedError, Demo.world "zip").
Proof.
  intros format original.
  assert (Hwb : Forall well_behaved [Demo.stdout]) by (repeat constructor).
  exact (proj1 (non_spatial_format_is_not_deployed Demo.env [Demo.stdout]
                  format original (Demo.world "zip") Hwb eq_refl)).
Defined.

(** *** Conversions that go wrong *)

(** X19. With observers whose handlers raise at most [AttributeError],
    whatever goes wrong while converting is reported as a
    [FormatConversionProblem]: when the format has no conversion format the
    error is announced with the spatial path the importer had before (none
    on a fresh importer) and no [START_CONVERSION]; when the converter
    itself raises, [ERROR_CONVERSION] carries the spatial path and the
    converter's error.  The error of the converter is never what the import
    raises, and no spatial image is recorded. *)
Theorem conversion_errors_are_replaced (env : Env) (loggers : list Listener)
    (format : Format) (w : World) :
  Forall well_behaved loggers ->
  need_conversion format = true ->
  let r := deploy_spatial env loggers format w in
  let start := evt START_SPATIAL_DEPLOY [APath (original_path (self w.1))] [] in
  (forall e, conversion_identifier format = Raise e ->
     r.1 = Raise FormatConversionProblem /\
     self r.2.1 = self w.1 /\ fs r.2.1 = fs w.1 /\
     emitted r.2.1 = emitted w.1 ++
       [start;
        evt ERROR_CONVERSION [APath (spatial_path (self w.1))]
          [("exception", AException e)]]) /\
  (forall ext pd e fs',
     conversion_identifier format = Ok ext ->
     processed_dir (self w.1) = Some pd ->
     let sp := pd ++ [SPATIAL_STEM +:+ "." +:+ ext] in
     format_convert env format sp (fs w.1) = (Raise e, fs') ->
     r.1 = Raise FormatConversionProblem /\
     fs r.2.1 = fs' /\
     spatial_path (self r.2.1) = Some sp /\
     spatial (self r.2.1) = spatial (self w.1) /\
     emitted r.2.1 = emitted w.1 ++
       [start;
        evt START_CONVERSION [APath (Some sp); APath (upload_path (self w.1))] [];
        evt ERROR_CONVERSION [APath (Some sp)] [("exception", AException e)]]).
Proof.
  intros Hwb Hn r start. subst r.
  destruct w as [[s fs0 em] o]. destruct s.
  cbn [fst snd self fs emitted original_path spatial_path processed_dir
       upload_path spatial] in *.
  split.
  - intros e He. unfold deploy_spatial. rewrite Hn, He.
    run_with Hwb. rewrite <- ?app_assoc. repeat split; done.
  - intros ext pd e fs' Hext Hpd. cbn zeta.
    set (sp := pd ++ [SPATIAL_STEM +:+ "." +:+ ext]). intros Hc. subst.
    unfold deploy_spatial. rewrite Hn, Hext.
    run_with Hwb. fold sp. rewrite Hc. run_with Hwb.
    rewrite <- ?app_assoc. repeat split; done.
Qed.

Lemma conversion_errors_are_replaced_witness :
  let env := with_convert (fun _ _ fs => (Raise OSError, fs)) Demo.env in
  let format := Demo.raw_at ["data"; "pims"; "upload0001"; "slide"] in
  let w : World :=
    ({| self := set_processed_dir (Some ["data"; "pims"])
                  (FileImporter_init ["tmp"; "uploaded"; "slide"] None);
        fs := Demo.pending "raw"; emitted := [] |},
     {| delivered := []; warnings := [] |}) in
  (deploy_spatial env [Demo.stdout] format w).1 = Raise FormatConversionProblem.
Proof.
  intros env format w.
  assert (Hwb : Forall well_behaved [Demo.stdout]) by (repeat constructor).
  exact (proj1 (proj2 (conversion_errors_are_replaced env [Demo.stdout] format w
                         Hwb eq_refl)
                  "PYRTIFF" ["data"; "pims"] OSError (fs w.1)
                  eq_refl eq_refl eq_refl)).
Defined.

(** X20. With observers whose handlers raise at most [AttributeError], a
    converted file that no readable spatial format matches is refused
    with [NoMatchingFormatProblem] on the spatial path, after
    [END_CONVERSION] and an [ERROR_NO_FORMAT] event; the converted file
    stays where it is and no spatial image is recorded. *)
Theorem unreadable_conversion_result (env : Env) (loggers : list Listener)
    (format : Format) (w : World) (ext : string) (pd : Path) (fs' : FS) :
  Forall well_behaved loggers ->
  need_conversion format = true ->
  conversion_identifier format = Ok ext ->
  processed_dir (self w.1) = Some pd ->
  let sp := pd ++ [SPATIAL_STEM +:+ "." +:+ ext] in
  let r := deploy_spatial env loggers format w in
  format_convert env format sp (fs w.1) = (Ok true, fs') ->
  path_exists fs' sp = true ->
  SpatialReadableFormatFactory_match env fs' sp = None ->
  r.1 = Raise (NoMatchingFormatProblem (Some sp)) /\
  fs r.2.1 = fs' /\
  spatial (self r.2.1) = spatial (self w.1) /\
  emitted r.2.1 = emitted w.1 ++
    [evt START_SPATIAL_DEPLOY [APath (original_path (self w.1))] [];
     evt START_CONVERSION [APath (Some sp); APath (upload_path (self w.1))] [];
     evt END_CONVERSION [APath (Some sp)] [];
     evt START_FORMAT_DETECTION [APath (Some sp)] [];
     evt ERROR_NO_FORMAT [APath (Some sp)] []].
Proof.
  intros Hwb Hn Hext Hpd sp r Hc Hex Hm. subst r.
  destruct w as [[s fs0 em] o]. destruct s.
  cbn [fst snd self fs emitted original_path spatial_path processed_dir
       upload_path spatial] in *. subst.
  unfold deploy_spatial. rewrite Hn, Hext.
  run_with Hwb. fold sp. rewrite Hc. run_with Hwb. fold sp. rewrite Hex.
  run_with Hwb. fold sp. rewrite Hm. run_with Hwb.
  rewrite <- ?app_assoc. repeat split; done.
Qed.

Lemma unreadable_conversion_result_witness :
  let env := with_spatial_registry (fun _ _ => None) Demo.env in
  let format := Demo.raw_at ["data"; "pims"; "upload0001"; "slide"] in
  let w : World :=
    ({| self := set_processed_dir (Some ["data"; "pims"])
                  (FileImporter_init ["tmp"; "uploaded"; "slide"] None);
        fs := Demo.pending "raw"; emitted := [] |},
     {| delivered := []; warnings := [] |}) in
  (deploy_spatial env [Demo.stdout] format w).1 =
    Raise (NoMatchingFormatProblem (Some ["data"; "pims"; "spatial.PYRTIFF"])).
Proof.
  intros env format w.
  assert (Hwb : Forall well_behaved [Demo.stdout]) by (repeat constructor).
  refine (proj1 (unreadable_conversion_result env [Demo.stdout] format w
                   "PYRTIFF" ["data"; "pims"]
                   (<[ ["data"; "pims"; "spatial.PYRTIFF"] := File "tiff" ]> (fs w.1))
                   Hwb eq_refl eq_refl eq_refl eq_refl _ eq_refl)).
  vm_compute. reflexivity.
Defined.

(** *** Imports that succeed *)

Lemma histogram_is_not_original (pd : Path) (id : string) :
  pd ++ [HISTOGRAM_STEM] <> pd ++ [ORIGINAL_STEM +:+ "." +:+ id].
Proof. intros H. apply app_inv_head in H. discriminate H. Qed.

Lemma create_original_role_links (env : Env) (loggers : list Listener)
    (format : Format) (prefer_copy : bool) (w w' : World)
    (identified : Identified) :
  create_original_role env loggers format None prefer_copy w
    = (Ok identified, w') ->
  exists ud up fs1,
    upload_dir (self w.1) = Some ud /\
    upload_path (self w.1) = Some up /\
    identified = Single format /\
    let pd := ud ++ [PROCESSED_DIR] in
    let op := pd ++ [ORIGINAL_STEM +:+ "." +:+ get_identifier format] in
    os_mkdir pd (fs w.1) = Ok fs1 /\
    w'.1 =
      {| self := set_original_path (Some op)
                   (set_processed_dir (Some pd) (self w.1));
         fs := <[op := Symlink up]> fs1; emitted := emitted w.1 |}.
Proof.
  destruct w as [[s fs0 em] o]. destruct s. unfold create_original_role.
  intros H. ok_run H. world_simpl. subst.
  apply os_symlink_ok in Hlink as [_ ->].
  by eexists _, _, _.
Qed.

(** X22. An import that succeeds on a format matched on the upload itself
    and needing no conversion emits exactly the twelve events of
    [plain_trace], in that order.  The original role is a link to the
    uploaded file and the spatial role a link to the original role, both
    named after the same format, so that the three names give the same
    bytes; the histogram is a file of its own beside them; and the import
    returns the upload path. *)
Theorem plain_import (env : Env) (loggers : list Listener)
    (prefer_copy : bool) (w0 w1 w2 w' : World) (format : Format)
    (r : list Path) :
  move_in env loggers prefer_copy w0 = (Ok tt, w1) ->
  detect_format env loggers w1 = (Ok (format, None), w2) ->
  need_conversion format = false ->
  run env loggers prefer_copy w0 = (Ok r, w') ->
  let up := upload_path_of env (self w0.1) in
  let op := original_path_of env format in
  let sp := spatial_path_of env (get_identifier format) in
  let hp := histogram_path_of env in
  exists hist_image blob,
    emitted w'.1 =
      emitted w0.1 ++ plain_trace env (self w0.1) format hist_image /\
    upload_path (self w'.1) = Some up /\
    original_path (self w'.1) = Some op /\
    spatial_path (self w'.1) = Some sp /\
    histogram_path (self w'.1) = Some hp /\
    fs w'.1 !! op = Some (Symlink up) /\
    fs w'.1 !! sp = Some (Symlink op) /\
    fs w'.1 !! hp = Some (File blob) /\
    (forall c, reads (fs w'.1) up c -> reads (fs w'.1) sp c) /\
    r = [up].
Proof.
  intros Hmi Hdet Hn Hrun up op sp hp. apply run_ok in Hrun.
  unfold run_body, identify in Hrun.
  apply bind_ok in Hrun as (idf & wi & Hid & Hrun).
  apply bind_ok in Hid as (u & wa & Hmv & Hid).
  rewrite Hmi in Hmv. injection Hmv as <- <-.
  apply bind_ok in Hid as ([f a] & wb & Hdf & Hid).
  rewrite Hdet in Hdf. injection Hdf as <- <- <-.
  cbn beta iota in Hid.
  destruct w0 as [[s0 fs0 em0] o0]. destruct s0.
  apply move_in_ok in Hmi as (fs1 & E1). into_world E1 w1.
  apply detect_format_ok in Hdet as (up' & Eup & E2 & _). into_world E2 w2.
  apply create_original_role_links in Hid
    as (ud & up'' & fs3 & Eud & Eup2 & -> & _ & E3).
  into_world E3 wi. world_simpl.
  apply (inj Some) in Eup, Eud, Eup2. subst up' ud up''.
  apply bind_ok in Hrun as (orig & wc & Hco & Hrun).
  apply check_original_integrity_ok in Hco as (op' & Eop & -> & _ & E4).
  into_world E4 wc. world_simpl. apply (inj Some) in Eop. subst op'.
  unfold deploy in Hrun. ok_run Hrun.
  match goal with H : deploy_spatial _ _ _ _ = _ |- _ =>
    apply (deploy_spatial_alias_ok _ _ _ _ _ _ Hn) in H
      as (pd & op' & Epd & Eop' & Hnone & _ & E5)
  end.
  into_worlds. apply (inj Some) in Epd, Eop'. subst pd op'.
  match goal with H : deploy_histogram _ _ ?i _ = _ |- _ =>
    apply deploy_histogram_ok in H as (pd & blob & Epd & _ & E6);
    exists i, blob
  end.
  into_worlds. apply (inj Some) in Epd. subst pd.
  match goal with E : Some _ = Some ?a |- _ => apply (inj Some) in E; subst a end.
  subst up op sp hp. unfold plain_trace. unfold_expected. world_simpl.
  match goal with |- _ /\ _ /\ _ /\ _ /\ _ /\ ?m !! ?ko = Some ?vo /\
                     ?m !! ?ks = Some ?vs /\ _ =>
    assert (Ho : m !! ko = Some vo);
    [|assert (Hs : m !! ks = Some vs)] end.
  { rewrite lookup_insert_ne by apply histogram_is_not_original.
    rewrite lookup_insert_ne by apply spatial_is_not_original.
    apply lookup_insert_eq. }
  { rewrite lookup_insert_ne by apply histogram_is_not_spatial.
    apply lookup_insert_eq. }
  split; [by rewrite <- ?app_assoc|]. split; [reflexivity|].
  split; [reflexivity|]. split; [reflexivity|]. split; [reflexivity|].
  split; [exact Ho|]. split; [exact Hs|].
  split; [apply lookup_insert_eq|]. split; [|reflexivity].
  intros c Hc. eapply reads_link; [exact Hs|]. eapply reads_link; [exact Ho|].
  exact Hc.
Qed.

Lemma plain_import_witness :
  let l := [Demo.stdout] in
  let w0 := Demo.world "tiff" in
  let r := run Demo.env l false w0 in
  r.1 = Ok [["data"; "pims"; "upload0001"; "slide"]] /\
  length (emitted r.2.1) = 12%nat.
Proof.
  intros l w0 r.
  pose (w1 := (move_in Demo.env l false w0).2).
  pose (w2 := (detect_format Demo.env l w1).2).
  pose (format := Demo.tiff_at ["data"; "pims"; "upload0001"; "slide"]).
  assert (H1 : move_in Demo.env l false w0 = (Ok tt, w1))
    by (vm_compute; reflexivity).
  assert (H2 : detect_format Demo.env l w1 = (Ok (format, None), w2))
    by (vm_compute; reflexivity).
  assert (H3 : run Demo.env l false w0 =
               (Ok [["data"; "pims"; "upload0001"; "slide"]], r.2))
    by (vm_compute; reflexivity).
  destruct (plain_import Demo.env l false w0 w1 w2 r.2 format _ H1 H2 eq_refl H3)
    as (hist_image & blob & He & _).
  split; [subst r; rewrite H3; reflexivity|].
  rewrite He. reflexivity.
Defined.

(** X23. What a successful [run] returns: for a single image the one path
    that the importer holds as its upload path when it ends, which is the
    upload path it had once the original role was made; for a collection
    the empty list. *)
Theorem run_returns_the_upload (env : Env) (loggers : list Listener)
    (prefer_copy : bool) (w0 w1 w' : World) (identified : Identified)
    (r : list Path) :
  identify env loggers prefer_copy w0 = (Ok identified, w1) ->
  run env loggers prefer_copy w0 = (Ok r, w') ->
  match identified with
  | Collection _ => r = []
  | Single _ =>
      exists up, upload_path (self w1.1) = Some up /\
                 upload_path (self w'.1) = Some up /\ r = [up]
  end.
Proof.
  intros Hid Hrun.
  pose proof (ImportRuns.run_result env loggers prefer_copy w0 w1 w'
                identified r Hid Hrun) as Hres.
  destruct identified as [c|format]; [exact Hres|].
  destruct Hres as (up & Hup & ->). exists up. split; [|done].
  apply run_ok in Hrun. unfold run_body in Hrun.
  rewrite (bind_step _ _ _ _ _ Hid) in Hrun.
  apply bind_ok in Hrun as (orig & wc & Hco & Hrun).
  destruct w1 as [[s1 fs1 em1] o1]. destruct s1.
  apply check_original_integrity_ok in Hco as (op & Eop & -> & _ & E4).
  into_worlds. unfold deploy in Hrun. ok_run Hrun. world_simpl.
  match goal with H : deploy_histogram _ _ _ _ = _ |- _ =>
    apply deploy_histogram_ok in H as (pd & blob & Epd & _ & E6) end.
  destruct (need_conversion format) eqn:Hn.
  - match goal with H : deploy_spatial _ _ _ _ = _ |- _ =>
      apply (deploy_spatial_conversion_ok _ _ _ _ _ _ Hn) in H
        as (ext & pd' & fs5 & sfmt & _ & _ & _ & _ & _ & _ & _ & E5) end.
    into_worlds. done.
  - match goal with H : deploy_spatial _ _ _ _ = _ |- _ =>
      apply (deploy_spatial_alias_ok _ _ _ _ _ _ Hn) in H
        as (pd' & op' & _ & _ & _ & _ & E5) end.
    into_worlds. done.
Qed.

Lemma run_returns_the_upload_witness :
  let l := [Demo.stdout] in
  let w0 := Demo.world "raw" in
  exists up, upload_path (self (run Demo.env l false w0).2.1) = Some up /\
             (run Demo.env l false w0).1 = Ok [up].
Proof.
  intros l w0.
  pose (w1 := (identify Demo.env l false w0).2).
  pose (format := Demo.raw_at ["data"; "pims"; "upload0001"; "slide"]).
  assert (H1 : identify Demo.env l false w0 = (Ok (Single format), w1))
    by (vm_compute; reflexivity).
  assert (H2 : run Demo.env l false w0 =
               (Ok [["data"; "pims"; "upload0001"; "slide"]],
                (run Demo.env l false w0).2))
    by (vm_compute; reflexivity).
  destruct (run_returns_the_upload Demo.env l false w0 w1 _ _ _ H1 H2)
    as (up & _ & Hup & Hr).
  exists up. split; [exact Hup|]. rewrite H2. cbn [fst]. by rewrite Hr.
Defined.

End ImportEdges.
